(** * senio: band ordering and the 12-band merge

    A shallow embedding of [senio/utils.py] and [senio/processors.py].

    - Python objects that the code mutates ([numpy] arrays, lists) live in a
      store addressed by locations; [stack_sort] is run on that store.
    - The processors run in a state-and-exception monad over a tree-shaped
      file system; the raster engine (GDAL behind [rasterio]) is a record of
      operations that the processors are parametrised by.
    - A state of the processors is the tree of the files they read and
      write.  The log is no part of it: [logger.info] appends a line to
      [Logs/logs.log] beside the package (utils.py, line 44), and the model
      has no step for it.  What is stated of a state is stated of those
      files, not of the log. *)

From Stdlib Require Import Ascii String.
From stdpp Require Import base numbers list strings.

Open Scope string_scope.
Open Scope list_scope.
Open Scope nat_scope.

(** ** Exceptions and results *)

Inductive exn :=
  | SystemExit (msg : string)
  | IndexError
  | ValueError
  | TypeError
  | AttributeError
  | OverflowError
  | UnboundLocalError
  | ZeroDivisionError
  | FileNotFoundError
  | FileExistsError
  | NotADirectoryError
  | IsADirectoryError
  | BadZipFile
  | RasterioIOError
  | OverviewCreationError
  | CPLE_OpenFailedError
  | DanglingReference.

(** [OutOfFuel] is not a Python outcome: it is what a fuel-indexed loop
    gives when the fuel is too short.  [stack_sort_total] shows that the
    fuel [stack_sort] hands its loop is always enough. *)
Inductive result (A : Type) :=
  | Ok (a : A)
  | Raise (e : exn)
  | OutOfFuel.
Arguments Ok {A} a.
Arguments Raise {A} e.
Arguments OutOfFuel {A}.

(** State and exception monad; [S] is the store the code works on. *)
Definition M (S A : Type) : Type := S → S * result A.

Definition ret {S A} (a : A) : M S A := λ s, (s, Ok a).
Definition raise {S A} (e : exn) : M S A := λ s, (s, Raise e).
Definition bind {S A B} (m : M S A) (k : A → M S B) : M S B :=
  λ s, match m s with
       | (s', Ok a) => k a s'
       | (s', Raise e) => (s', Raise e)
       | (s', OutOfFuel) => (s', OutOfFuel)
       end.

Notation "'let*' x ':=' m 'in' k" := (bind m (λ x, k))
  (at level 10, x name, m at level 100, k at level 200).
Notation "'let*' ' p ':=' m 'in' k" := (bind m (λ x, match x with p => k end))
  (at level 10, p pattern, m at level 100, k at level 200).
Notation "m1 ';;;' m2" := (bind m1 (λ _, m2))
  (at level 100, m2 at level 200, right associativity).

(** ** numpy arrays *)

(** The integer element types the model knows.  Floating-point element
    types are outside the model. *)
Inductive dtype := uint8 | uint16 | int32.

Global Instance dtype_eq_dec : EqDecision dtype.
Proof. solve_decision. Defined.

Definition in_range (dt : dtype) (v : Z) : Prop :=
  match dt with
  | uint8 => (0 ≤ v < 256)%Z
  | uint16 => (0 ≤ v < 65536)%Z
  | int32 => (-2147483648 ≤ v < 2147483648)%Z
  end.

(** Conversion of an integer to an element type as array-to-array
    assignment does it: the value wraps around. *)
Definition cast (dt : dtype) (v : Z) : Z :=
  match dt with
  | uint8 => v `mod` 256
  | uint16 => v `mod` 65536
  | int32 => (v + 2147483648) `mod` 4294967296 - 2147483648
  end%Z.

(** A band sample: [row] rows of [column] pixels. *)
Abbreviation plane := (list (list Z)) (only parsing).

(** A 3-D array of shape [(length bands, row, column)]. *)
Record ndarray := NdArray {
  nd_dtype : dtype;
  row : nat;
  column : nat;
  bands : list plane
}.

Definition plane_wf (dt : dtype) (r c : nat) (p : plane) : Prop :=
  length p = r ∧ Forall (λ line, length line = c ∧ Forall (in_range dt) line) p.

(** The array is rectangular and every element fits its element type. *)
Definition ndarray_wf (a : ndarray) : Prop :=
  Forall (plane_wf (nd_dtype a) (row a) (column a)) (bands a).

Definition shape (a : ndarray) : nat * nat * nat :=
  (length (bands a), row a, column a).

Definition cast_plane (dt : dtype) (p : plane) : plane := map (map (cast dt)) p.

(** ** The store of Python objects *)

Inductive pyobj :=
  | PyList (xs : list string)      (* a list of str *)
  | Nd1 (dt : dtype) (xs : list Z) (* a 1-D array *)
  | Nd3 (a : ndarray).             (* a 3-D array *)

Abbreviation loc := nat (only parsing).
Abbreviation heap := (list pyobj) (only parsing).

(** What [c_arr[i] = count] does with a Python int that does not fit the
    element type: numpy before 2.0 wraps it around, numpy 2 raises. *)
Inductive overflow_policy := Wraps | Raises.

Definition alloc (o : pyobj) : M heap loc := λ h, (h ++ [o], Ok (length h)).

Definition deref (l : loc) : M heap pyobj :=
  λ h, match h !! l with
       | Some o => (h, Ok o)
       | None => (h, Raise DanglingReference)
       end.

Definition store (l : loc) (o : pyobj) : M heap unit :=
  λ h, (<[l := o]> h, Ok tt).

(** [np.zeros((band, row, column), dtype=dt)] *)
Definition np_zeros3 (band r c : nat) (dt : dtype) : M heap loc :=
  alloc (Nd3 (NdArray dt r c (replicate band (replicate r (replicate c 0%Z))))).

(** [np.zeros((n), dtype=dt)] *)
Definition np_zeros1 (n : nat) (dt : dtype) : M heap loc :=
  alloc (Nd1 dt (replicate n 0%Z)).

(** [band, row, column = a.shape] *)
Definition shape3 (l : loc) : M heap (nat * nat * nat) :=
  let* o := deref l in
  match o with
  | Nd3 a => ret (shape a)
  | Nd1 _ _ => raise ValueError
  | PyList _ => raise AttributeError
  end.

(** [len(xs)] for an argument annotated [list]; [TypeError] stands for
    arguments of another type, which the model does not follow. *)
Definition list_len (l : loc) : M heap nat :=
  let* o := deref l in
  match o with
  | PyList xs => ret (length xs)
  | _ => raise TypeError
  end.

(** [xs[i]] for a list and [i >= 0] *)
Definition list_getitem (l : loc) (i : nat) : M heap string :=
  let* o := deref l in
  match o with
  | PyList xs =>
      match xs !! i with
      | Some x => ret x
      | None => raise IndexError
      end
  | _ => raise TypeError
  end.

(** [a[i] = v] for a 1-D array and a Python int [v] *)
Definition arr1_setitem (ov : overflow_policy) (l : loc) (i : nat) (v : Z)
  : M heap unit :=
  let* o := deref l in
  match o with
  | Nd1 dt xs =>
      if decide (i < length xs) then
        if decide (cast dt v = v) then store l (Nd1 dt (<[i := v]> xs))
        else match ov with
             | Wraps => store l (Nd1 dt (<[i := cast dt v]> xs))
             | Raises => raise OverflowError
             end
      else raise IndexError
  | _ => raise TypeError
  end.

(** [a[i]] for a 1-D array *)
Definition arr1_getitem (l : loc) (i : nat) : M heap Z :=
  let* o := deref l in
  match o with
  | Nd1 _ xs =>
      match xs !! i with
      | Some x => ret x
      | None => raise IndexError
      end
  | _ => raise TypeError
  end.

(** [a[j, :, :]] for a 3-D array and an index taken from an unsigned array *)
Definition band_getitem (l : loc) (j : Z) : M heap plane :=
  let* o := deref l in
  match o with
  | Nd3 a =>
      match bands a !! Z.to_nat j with
      | Some p => ret p
      | None => raise IndexError
      end
  | _ => raise TypeError
  end.

(** [a[i, :, :] = p] for a 3-D array and a sample of the array's own
    [(row, column)] shape: the elements are converted to the element type
    of [a]. *)
Definition band_setitem (l : loc) (i : nat) (p : plane) : M heap unit :=
  let* o := deref l in
  match o with
  | Nd3 a =>
      if decide (i < length (bands a)) then
        store l (Nd3 (NdArray (nd_dtype a) (row a) (column a)
                        (<[i := cast_plane (nd_dtype a) p]> (bands a))))
      else raise IndexError
  | _ => raise TypeError
  end.

(** ** [stack_sort] (utils.py) *)

Section sorting.
Variable ov : overflow_policy.

(** The [while count_sort != len_list_bands] loop. *)
Fixpoint scan_loop (fuel : nat) (code_list sorted_list c_arr : loc)
    (len_list_bands count count_sort : nat) : M heap unit :=
  match fuel with
  | 0 => λ h, (h, OutOfFuel)
  | S fuel' =>
      if decide (count_sort ≠ len_list_bands) then
        let* code := list_getitem code_list count in
        let* target := list_getitem sorted_list count_sort in
        if decide (code = target) then
          arr1_setitem ov c_arr count_sort (Z.of_nat count) ;;;
          scan_loop fuel' code_list sorted_list c_arr len_list_bands
            0 (count_sort + 1)
        else
          scan_loop fuel' code_list sorted_list c_arr len_list_bands
            (count + 1) count_sort
      else ret tt
  end.

(** The [for sorted_band in range(0, len_list_bands)] loop, at
    [sorted_band] with [todo] rounds to go. *)
Fixpoint copy_loop (todo : nat) (stack_array stack_sorted c_arr : loc)
    (sorted_band : nat) : M heap unit :=
  match todo with
  | 0 => ret tt
  | S todo' =>
      let* j := arr1_getitem c_arr sorted_band in
      let* p := band_getitem stack_array j in
      band_setitem stack_sorted sorted_band p ;;;
      copy_loop todo' stack_array stack_sorted c_arr (sorted_band + 1)
  end.

(** Fuel for the scan: a round either moves [count] up, at most
    [len] times for one target, or moves on to the next target. *)
Definition scan_fuel (len : nat) : nat := S (len * S (S len)).

Definition stack_sort (stack_array code_list sorted_list : loc) : M heap loc :=
  let* '(band, r, c) := shape3 stack_array in
  let* stack_sorted := np_zeros3 band r c uint16 in
  let* len_list_bands := list_len code_list in
  let* c_arr := np_zeros1 len_list_bands uint8 in
  scan_loop (scan_fuel len_list_bands) code_list sorted_list c_arr
    len_list_bands 0 0 ;;;
  copy_loop len_list_bands stack_array stack_sorted c_arr 0 ;;;
  ret stack_sorted.
End sorting.

(** [stack_sort] called on freshly built arguments, as the processors do:
    the result is read back from the store. *)
Definition stack_sort_call (ov : overflow_policy) (stack_array : pyobj)
    (code_list sorted_list : list string) : result ndarray :=
  match stack_sort ov 0 1 2 [stack_array; PyList code_list; PyList sorted_list] with
  | (h, Ok l) =>
      match h !! l with
      | Some (Nd3 a) => Ok a
      | _ => Raise DanglingReference
      end
  | (_, Raise e) => Raise e
  | (_, OutOfFuel) => OutOfFuel
  end.

(** ** Slicing and concatenation along the first axis *)

(** [a[i:j]] for [0 <= i <= j]; indices past the end are clipped. *)
Definition slice (a : ndarray) (i j : nat) : ndarray :=
  NdArray (nd_dtype a) (row a) (column a) (take (j - i) (drop i (bands a))).

(** The common element type of two integer arrays. *)
Definition promote (d1 d2 : dtype) : dtype :=
  match d1, d2 with
  | int32, _ | _, int32 => int32
  | uint16, _ | _, uint16 => uint16
  | uint8, uint8 => uint8
  end.

Definition same_plane_shape (a b : ndarray) : bool :=
  bool_decide (row a = row b ∧ column a = column b).

(** [np.concatenate(arrays, axis=0)]: the arrays must agree on every
    dimension but the first. *)
Definition np_concatenate (arrays : list ndarray) : result ndarray :=
  match arrays with
  | [] => Raise ValueError
  | a :: rest =>
      if forallb (same_plane_shape a) rest then
        Ok (NdArray (foldr promote (nd_dtype a) (map nd_dtype rest))
              (row a) (column a) (concat (map bands arrays)))
      else Raise ValueError
  end.

(** ** The merge step of [processor_all] (processors.py, lines 242-258) *)

Definition merge_stack (stack_10m_sorted data_20m data_60m : ndarray)
  : result ndarray :=
  np_concatenate
    [ slice data_60m 0 1;
      slice stack_10m_sorted 0 1;
      slice stack_10m_sorted 1 2;
      slice stack_10m_sorted 2 3;
      slice data_20m 0 1;
      slice data_20m 1 2;
      slice data_20m 2 3;
      slice stack_10m_sorted 3 4;
      slice data_20m 5 6;
      slice data_60m 1 2;
      slice data_20m 3 4;
      slice data_20m 4 5 ].

(** The output sequence in the words of the spec: the 60m stack's band 1,
    three 10m bands, three 20m bands, the remaining 10m band, the remaining
    20m bands, the remaining 60m band. *)
Definition spec_merge_sequence (stack_10m_sorted data_20m data_60m : ndarray)
  : list plane :=
  take 1 (bands data_60m) ++
  take 3 (bands stack_10m_sorted) ++
  take 3 (bands data_20m) ++
  drop 3 (bands stack_10m_sorted) ++
  drop 3 (bands data_20m) ++
  drop 1 (bands data_60m).

(** ** Strings *)

Definition upper_ascii (c : ascii) : ascii :=
  let n := Ascii.nat_of_ascii c in
  if (97 <=? n) && (n <=? 122) then Ascii.ascii_of_nat (n - 32) else c.

Definition lower_ascii (c : ascii) : ascii :=
  let n := Ascii.nat_of_ascii c in
  if (65 <=? n) && (n <=? 90) then Ascii.ascii_of_nat (n + 32) else c.

Fixpoint string_map (f : ascii → ascii) (s : string) : string :=
  match s with
  | EmptyString => EmptyString
  | String c s' => String (f c) (string_map f s')
  end.

(** [s.upper()] on ASCII text *)
Definition upper (s : string) : string := string_map upper_ascii s.

(** [needle in hay] *)
Fixpoint contains (needle hay : string) : bool :=
  String.prefix needle hay ||
  match hay with
  | EmptyString => false
  | String _ hay' => contains needle hay'
  end.

(** [s[i:j]] for [0 <= i <= j] *)
Definition str_slice (s : string) (i j : nat) : string := substring i (j - i) s.

(** [s[:-k]] *)
Definition str_drop_last (s : string) (k : nat) : string :=
  substring 0 (String.length s - k) s.

(** [s.rfind(".")], counting from position [i] of the whole string *)
Fixpoint rfind_dot (s : string) (i : nat) : option nat :=
  match s with
  | EmptyString => None
  | String c s' =>
      match rfind_dot s' (S i) with
      | Some j => Some j
      | None => if Ascii.eqb c "."%char then Some i else None
      end
  end.

(** The suffix of a file name as [pathlib] computes it: from the last dot,
    unless that dot starts or ends the name. *)
Definition suffix (name : string) : string :=
  match rfind_dot name 0 with
  | Some i =>
      if (0 <? i) && (i <? String.length name - 1)
      then substring i (String.length name - i) name
      else ""
  | None => ""
  end.

(** [fnmatch] patterns with [*], [?] and literal characters; [fold] is the
    case folding of the path flavour. *)
Fixpoint fnmatch (fold : ascii → ascii) (pat name : string) : bool :=
  match pat with
  | EmptyString => match name with EmptyString => true | _ => false end
  | String "*"%char pat' =>
      (fix star (s : string) : bool :=
         fnmatch fold pat' s ||
         match s with
         | EmptyString => false
         | String _ s' => star s'
         end) name
  | String "?"%char pat' =>
      match name with
      | EmptyString => false
      | String _ name' => fnmatch fold pat' name'
      end
  | String c pat' =>
      match name with
      | EmptyString => false
      | String d name' => Ascii.eqb (fold c) (fold d) && fnmatch fold pat' name'
      end
  end.

(** ** Paths *)

(** [pathlib]'s flavours: matching and lookup fold case on Windows. *)
Inductive flavour := PosixFlavour | WindowsFlavour.

Definition fold_case (fl : flavour) : ascii → ascii :=
  match fl with
  | PosixFlavour => λ c, c
  | WindowsFlavour => lower_ascii
  end.

Definition same_name (fl : flavour) (a b : string) : bool :=
  String.eqb (string_map (fold_case fl) a) (string_map (fold_case fl) b).

(** A path is the list of its components. *)
Abbreviation path := (list string) (only parsing).

Definition path_name (p : path) : string := List.last p "".
Definition path_parent (p : path) : path := removelast p.
Definition path_suffix (p : path) : string := suffix (path_name p).

(** [p.with_suffix(sfx)] for a path with a name *)
Definition with_suffix (p : path) (sfx : string) : path :=
  let name := path_name p in
  let old := suffix name in
  path_parent p ++ [str_drop_last name (String.length old) +:+ sfx].

Definition separator (fl : flavour) : string :=
  match fl with PosixFlavour => "/" | WindowsFlavour => "\" end.

(** [str(p)] *)
Definition path_str (fl : flavour) (p : path) : string :=
  String.concat (separator fl) p.

(** ** Rasters *)

(** The six coefficients of an affine transform, each the bit pattern of a
    binary64 float.  The model does no arithmetic on them: products and
    comparisons are the raster engine's. *)
Record affine := Affine {
  af_a : Z; af_b : Z; af_c : Z; af_d : Z; af_e : Z; af_f : Z
}.

Global Instance affine_eq_dec : EqDecision affine.
Proof. solve_decision. Defined.

(** The part of a rasterio profile that the processors read or set. *)
Record profile := Profile {
  driver : string;
  p_dtype : dtype;
  count : nat;
  height : nat;
  width : nat;
  transform : affine;
  compress : option string;
  interleave : option string
}.

(** A 2-D array, as [src.read(1)] returns it. *)
Record image := Image {
  im_dtype : dtype;
  im_row : nat;
  im_column : nat;
  im_data : plane
}.

Inductive resampling := nearest | bilinear | cubic.

(** What the processors ask of the raster library and of [affine]:
    - [resample_pixel res band h w i j]: pixel [(i, j)] of [band] read at
      shape [(h, w)] with resampling [res];
    - [scaled_transform t width w height h]:
      [t * t.scale(width / w, height / h)] for [w], [h] not zero;
    - [transform_eq]: [==] on transforms. *)
Record raster_engine := RasterEngine {
  resample_pixel : resampling → plane → nat → nat → nat → nat → Z;
  scaled_transform : affine → nat → nat → nat → nat → affine;
  transform_eq : affine → affine → bool
}.

(** ** The file system *)

#[warnings="-register-all"]
Inductive node :=
  | Dir (entries : list (string * node))
  | Raster (prof : profile) (data : option ndarray)
      (* a dataset; [None]: created, nothing written yet *)
  | ZipArchive (members : list (string * node))
  | PamXml (band_count : nat)
  | Overviews (factors : list nat)
  | OtherFile.

Abbreviation entries_t := (list (string * node)) (only parsing).

Section file_system.
Variable fl : flavour.

Fixpoint entry_lookup (name : string) (es : entries_t) : option node :=
  match es with
  | [] => None
  | (n, x) :: es' => if same_name fl name n then Some x else entry_lookup name es'
  end.

(** Replace the entry called [name], or add it after the others. *)
Fixpoint entry_put (name : string) (x : node) (es : entries_t) : entries_t :=
  match es with
  | [] => [(name, x)]
  | (n, y) :: es' =>
      if same_name fl name n then (n, x) :: es' else (n, y) :: entry_put name x es'
  end.

Fixpoint entry_remove (name : string) (es : entries_t) : entries_t :=
  match es with
  | [] => []
  | (n, y) :: es' =>
      if same_name fl name n then es' else (n, y) :: entry_remove name es'
  end.

Fixpoint fs_lookup (root : node) (p : path) : option node :=
  match p with
  | [] => Some root
  | name :: p' =>
      match root with
      | Dir es =>
          match entry_lookup name es with
          | Some x => fs_lookup x p'
          | None => None
          end
      | _ => None
      end
  end.

(** Apply [f] to the entries of the directory at [p]. *)
Fixpoint fs_modify (root : node) (p : path) (f : entries_t → entries_t)
  : option node :=
  match root with
  | Dir es =>
      match p with
      | [] => Some (Dir (f es))
      | name :: p' =>
          match entry_lookup name es with
          | Some x =>
              match fs_modify x p' f with
              | Some x' => Some (Dir (entry_put name x' es))
              | None => None
              end
          | None => None
          end
      end
  | _ => None
  end.

(** The error of the operating system for a path that leads nowhere:
    [ENOENT] where a component is missing, [ENOTDIR] where one is looked
    for in a file. *)
Fixpoint missing_error (root : node) (p : path) : exn :=
  match p with
  | [] => FileNotFoundError
  | name :: p' =>
      match root with
      | Dir es =>
          match entry_lookup name es with
          | Some x => missing_error x p'
          | None => FileNotFoundError
          end
      | _ => NotADirectoryError
      end
  end.

(** The error of an operation that needs the directory [p]. *)
Definition no_directory (root : node) (p : path) : exn :=
  match fs_lookup root p with
  | None => missing_error root p
  | Some _ => NotADirectoryError
  end.

(** Put [x] at [p], whose parent must be a directory. *)
Definition fs_put (p : path) (x : node) : M node unit :=
  λ root,
    match fs_modify root (path_parent p) (entry_put (path_name p) x) with
    | Some root' => (root', Ok tt)
    | None => (root, Raise (no_directory root (path_parent p)))
    end.

(** [p.exists()] *)
Definition path_exists (p : path) : M node bool :=
  λ root, (root, Ok (bool_decide (is_Some (fs_lookup root p)))).

(** [p.mkdir(parents=False, exist_ok=True)] *)
Definition mkdir (p : path) : M node unit :=
  λ root,
    match fs_lookup root p with
    | Some (Dir _) => (root, Ok tt)
    | Some _ => (root, Raise FileExistsError)
    | None => fs_put p (Dir []) root
    end.

(** [shutil.rmtree(p)] *)
Definition rmtree (p : path) : M node unit :=
  λ root,
    match fs_lookup root p with
    | Some (Dir _) =>
        match fs_modify root (path_parent p) (entry_remove (path_name p)) with
        | Some root' => (root', Ok tt)
        | None => (root, Raise (no_directory root (path_parent p)))
        end
    | Some _ => (root, Raise NotADirectoryError)
    | None => (root, Raise (missing_error root p))
    end.

(** The names in [p.iterdir()], in the order of the directory. *)
Definition iterdir (p : path) : M node (list string) :=
  λ root,
    match fs_lookup root p with
    | Some (Dir es) => (root, Ok (map fst es))
    | Some _ => (root, Raise NotADirectoryError)
    | None => (root, Raise (missing_error root p))
    end.

(** The directories below and including [p], parents first (pathlib's
    recursive selector), each with its entries. *)
Fixpoint iterate_directories (p : path) (n : node) : list (path * entries_t) :=
  match n with
  | Dir es =>
      (p, es) ::
      flat_map (λ e, match e with (name, child) =>
                       iterate_directories (p ++ [name]) child end) es
  | _ => []
  end.

(** [list(p.rglob(pattern))] for a pattern of one component *)
Definition rglob (p : path) (pattern : string) : M node (list path) :=
  λ root,
    match fs_lookup root p with
    | Some n =>
        (root,
         Ok (flat_map
               (λ d, match d with (dir, es) =>
                  map (λ e, dir ++ [e.1])
                    (filter (λ e, fnmatch (fold_case fl) pattern e.1 = true) es) end)
               (iterate_directories p n)))
    | None => (root, Ok [])
    end.

(** One member of an archive written over what is there: directories are
    merged, files replaced.  The result is what is there afterwards,
    with the error that stopped the extraction, if one did: the members
    written before it stay. *)
Fixpoint extract_into (m : node) (existing : option node) {struct m}
  : node * option exn :=
  match m with
  | Dir members =>
      match existing with
      | Some (Dir _) | None =>
          let '(es', err) :=
            (fix go (ms : entries_t) (es : entries_t) {struct ms}
               : entries_t * option exn :=
               match ms with
               | [] => (es, None)
               | (name, x) :: ms' =>
                   match extract_into x (entry_lookup name es) with
                   | (x', None) => go ms' (entry_put name x' es)
                   | (x', Some e) => (entry_put name x' es, Some e)
                   end
               end) members (match existing with Some (Dir es) => es | _ => [] end)
          in (Dir es', err)
      | Some x => (x, Some FileExistsError)
      end
  | _ =>
      match existing with
      | Some (Dir es) => (Dir es, Some IsADirectoryError)
      | _ => (m, None)
      end
  end.

(** [with zipfile.ZipFile(p, "r") as zfile: zfile.extractall(path=target)]
    for a directory [target] that exists (the processors extract into the
    directory that holds the archive).  An extraction that fails leaves the
    members it has written. *)
Definition zip_extractall (p target : path) : M node unit :=
  λ root,
    match fs_lookup root p with
    | Some (ZipArchive members) =>
        match extract_into (Dir members) (fs_lookup root target) with
        | (Dir es, err) =>
            match fs_modify root target (λ _, es) with
            | Some root' =>
                (root', match err with None => Ok tt | Some e => Raise e end)
            | None => (root, Raise (no_directory root target))
            end
        | (_, Some e) => (root, Raise e)
        | (_, None) => (root, Raise NotADirectoryError)
        end
    | Some (Dir _) => (root, Raise IsADirectoryError)
    | Some _ => (root, Raise BadZipFile)
    | None => (root, Raise (missing_error root p))
    end.

(** [with rasterio.open(p) as src]: the profile and the data of the dataset *)
Definition raster_open (p : path) : M node (profile * option ndarray) :=
  λ root,
    match fs_lookup root p with
    | Some (Raster prof data) => (root, Ok (prof, data))
    | _ => (root, Raise RasterioIOError)
    end.

(** A file of another kind than a directory. *)
Definition is_file (x : node) : bool :=
  match x with Dir _ => false | _ => true end.

Definition is_overviews (x : node) : bool :=
  match x with Overviews _ => true | _ => false end.

(** A file that GDAL opens as a raster (overviews are stored as one). *)
Definition is_dataset (x : node) : bool :=
  match x with Raster _ _ | Overviews _ => true | _ => false end.

(** Remove the entry called [name] if [test] holds of it. *)
Fixpoint entry_remove_if (test : node → bool) (name : string) (es : entries_t)
  : entries_t :=
  match es with
  | [] => []
  | (n, y) :: es' =>
      if same_name fl name n then (if test y then es' else (n, y) :: es')
      else (n, y) :: entry_remove_if test name es'
  end.

(** The files that GDAL counts to the dataset at [p] beside [p] itself and
    deletes with it: the statistics [p.aux.xml] and the overviews [p.ovr]. *)
Definition delete_sidecars (p : path) (root : node) : node :=
  match
    fs_modify root (path_parent p)
      (λ es, entry_remove_if is_overviews (path_name p +:+ ".ovr")
               (entry_remove_if is_file (path_name p +:+ ".aux.xml") es))
  with
  | Some root' => root'
  | None => root
  end.

(** [rasterio.open(p, "w", **prof)]: a dataset that is at [p] already is
    deleted with the files that belong to it, and the new one is created
    at once. *)
Definition raster_create (p : path) (prof : profile) : M node unit :=
  λ root,
    match fs_lookup root (path_parent p), fs_lookup root p with
    | Some (Dir _), Some (Dir _) => (root, Raise RasterioIOError)
    | Some (Dir _), Some x =>
        fs_put p (Raster prof None)
          (if is_dataset x then delete_sidecars p root else root)
    | Some (Dir _), None => fs_put p (Raster prof None) root
    | _, _ => (root, Raise RasterioIOError)
    end.

(** [dst.write(a)] on the dataset created at [p] with [prof]: rasterio
    compares the number of bands with the dataset's.  (GDAL fits a buffer of
    another height or width to the dataset; the model stores the array as
    it is given.  The processors write arrays of the shape of the bands
    they have read.) *)
Definition raster_write (p : path) (prof : profile) (a : ndarray) : M node unit :=
  if decide (length (bands a) = count prof)
  then fs_put p (Raster prof (Some a))
  else raise ValueError.

(** The shape of the overview of a raster of shape [(h, w)] at the
    decimation factor [f]. *)
Definition overview_shape (h w f : nat) : nat * nat :=
  ((h + f - 1) / f, (w + f - 1) / f).

(** [dst.build_overviews(factors, Resampling.nearest)] on the dataset
    created at [p] with [prof], under [rasterio.Env(TIFF_USE_OVR=True)]:
    factors of which more than one gives an overview of one pixel are
    refused; the overviews of the others go to [p.ovr], beside the
    dataset. *)
Definition build_overviews (p : path) (prof : profile) (factors : list nat)
  : M node unit :=
  if decide (1 < length (filter (λ f, overview_shape (height prof) (width prof) f = (1, 1))
                           factors))
  then raise OverviewCreationError
  else
    let ovr := path_parent p ++ [path_name p +:+ ".ovr"] in
    λ root,
      match fs_lookup root ovr with
      | Some (Dir _) => (root, Raise CPLE_OpenFailedError)
      | _ => fs_put ovr (Overviews factors) root
      end.

(** [tree.write(p)] *)
Definition xml_write (p : path) (band_count : nat) : M node unit :=
  λ root,
    match fs_lookup root p with
    | Some (Dir _) => (root, Raise IsADirectoryError)
    | _ => fs_put p (PamXml band_count) root
    end.
End file_system.

(** ** numpy on values, as the processors use it *)

(** A pure outcome inside a monadic computation. *)
Definition lift {S A} (r : result A) : M S A := λ s, (s, r).

(** [np.asarray(images)] for a list of 2-D arrays: a 3-D array when the
    images agree in shape, an array of shape [(0,)] for the empty list.
    Images of different shapes raise [ValueError] (numpy 1.24 and later;
    earlier versions build an array of objects, whose shape [stack_sort]
    then fails to unpack, with the same exception). *)
Definition np_asarray (images : list image) : result pyobj :=
  match images with
  | [] => Ok (Nd1 int32 [])
  | im :: rest =>
      if forallb (λ x, bool_decide (im_row x = im_row im ∧ im_column x = im_column im))
           rest
      then Ok (Nd3 (NdArray (foldr promote (im_dtype im) (map im_dtype rest))
                      (im_row im) (im_column im) (map im_data images)))
      else Raise ValueError
  end.

(** [src.read(1)] *)
Definition read_band1 (prof : profile) (data : option ndarray) : result image :=
  match data with
  | Some a =>
      match bands a with
      | b :: _ => Ok (Image (nd_dtype a) (row a) (column a) b)
      | [] => Raise IndexError
      end
  | None =>
      if decide (count prof = 0) then Raise IndexError
      else Ok (Image (p_dtype prof) (height prof) (width prof)
                 (replicate (height prof) (replicate (width prof) 0%Z)))
  end.

(** The band statistics of [create_pam_xml]: [np.nanmin] and the like
    raise on a band without pixels.  The numbers are not modelled. *)
Definition calculate_statistics (stack_array : ndarray) : result nat :=
  if decide (bands stack_array ≠ [] ∧ (row stack_array = 0 ∨ column stack_array = 0))
  then Raise ValueError
  else Ok (length (bands stack_array)).

(** ** The processors (processors.py) *)

Definition sorted_list_10m : list string := ["02"; "03"; "04"; "08"].
Definition sorted_list_20m : list string := ["05"; "06"; "07"; "11"; "12"; "8A"].
Definition sorted_list_60m : list string := ["01"; "09"].

Definition wanted_10m : list string := ["B02_10m"; "B03_10m"; "B04_10m"; "B08_10m"].
Definition wanted_20m : list string :=
  ["B05_20m"; "B06_20m"; "B07_20m"; "B8A_20m"; "B11_20m"; "B12_20m"].
Definition wanted_60m : list string := ["B01_60m"; "B09_60m"; "B10_60m"].

(** [kwargs.update({"driver": "GTiff", "compress": "deflate",
    "interleave": "band", "count": n, "dtype": rasterio.uint16})] *)
Definition update_kwargs (kwargs : profile) (n : nat) : profile :=
  Profile "GTiff" uint16 n (height kwargs) (width kwargs) (transform kwargs)
    (Some "deflate") (Some "band").

(** The arguments of [processor_all]; [processor_rgbn] has no [resample]. *)
Record arguments := Arguments_ {
  product_path : list string;
  output_path : option (list string);
  resample : string;
  xml : bool;
  pyramids : bool
}.

(** What one tier's loop leaves: the code list, the list of band arrays and
    the profile of the last band read ([None]: the name is unbound). *)
Record tier := Tier {
  code_list : list string;
  stack_list : list image;
  src_kwargs : option profile
}.

(** The state of [processor_all] at line 123, after the three loops. *)
Record read_state := ReadState {
  rs_output_folder_path : list string;
  rs_safe_path : list string;
  rs_temp_path : list string;
  rs_tier_10m : tier;
  rs_tier_20m : tier;
  rs_tier_60m : tier
}.

(** The three sorted stacks (line 144). *)
Record sorted_state := SortedState {
  ss_stack_10m_sorted : ndarray;
  ss_stack_20m_sorted : ndarray;
  ss_stack_60m_sorted : ndarray
}.

(** The state of [processor_all] at line 239, before the merge. *)
Record merge_input := MergeInput {
  mi_output_folder_path : list string;
  mi_safe_path : list string;
  mi_temp_path : list string;
  mi_src_10m_kwargs : profile;
  mi_stack_10m_sorted : ndarray;
  mi_data_20m : ndarray;
  mi_transform_20m : affine;
  mi_data_60m : ndarray;
  mi_transform_60m : affine
}.

Section processors.
Variable fl : flavour.
Variable ov : overflow_policy.
Variable engine : raster_engine.

(** utils.py, lines 46-64.  Nothing is logged before the two
    [SystemExit]s; the lines that follow them log what was detected. *)
Definition check_path_validity (product_path : path) : M node path :=
  let* found := path_exists fl product_path in
  if negb found then
    raise (SystemExit ("File does not exist: " +:+ path_str fl product_path))
  else if negb (bool_decide (path_suffix product_path ∈ [".zip"; ".SAFE"])) then
    raise (SystemExit "File does not have the correct suffix")
  else if bool_decide (path_suffix product_path = ".zip") then
    zip_extractall fl product_path (path_parent product_path) ;;;
    ret (with_suffix (with_suffix product_path "") ".SAFE")
  else ret product_path.

(** processors.py, lines 39-47 (and 330-338) *)
Definition output_folder (safe_path : path) (output_path : option path)
  : M node path :=
  match output_path with
  | Some p => ret p
  | None =>
      let output_folder_path := safe_path ++ ["GTIFF_PRODUCT"] in
      let* found := path_exists fl output_folder_path in
      (if found then rmtree fl output_folder_path else ret tt) ;;;
      mkdir fl output_folder_path ;;;
      ret output_folder_path
  end.

(** lines 53-54: [list(granule.rglob("*L2A*"))[0]] *)
Definition find_granule (safe_path : path) : M node path :=
  let* found := rglob fl (safe_path ++ ["GRANULE"]) "*L2A*" in
  match found with
  | granule :: _ => ret granule
  | [] => raise IndexError
  end.

(** [[file.name for file in p.iterdir() if file.suffix == ".jp2"]] *)
Definition band_names (p : path) : M node (list string) :=
  let* names := iterdir fl p in
  ret (filter (λ name, suffix name = ".jp2") names).

(** The test of a tier's loop: one of the wanted tags is in the name. *)
Definition is_wanted (wanted : list string) (name : string) : bool :=
  existsb (λ tag, contains tag name) wanted.

(** One tier's loop (lines 74-88, 90-106, 108-121), which logs a line for
    each file it selects. *)
Fixpoint read_tier (safe_path_tier : path) (wanted names : list string)
    (acc : tier) : M node tier :=
  match names with
  | [] => ret acc
  | name :: names' =>
      if is_wanted wanted name then
        let code := str_slice name 24 26 in
        let* '(prof, data) := raster_open fl (safe_path_tier ++ [name]) in
        let* band := lift (read_band1 prof data) in
        read_tier safe_path_tier wanted names'
          (Tier (code_list acc ++ [code]) (stack_list acc ++ [band]) (Some prof))
      else read_tier safe_path_tier wanted names' acc
  end.

(** [stack = np.asarray(stack_list); stack_sorted = stack_sort(stack,
    code_list, sorted_list)]; [stack_sort] logs the canonical list between
    its two loops (utils.py, line 101). *)
Definition sort_tier (t : tier) (sorted_list : list string) : M node ndarray :=
  let* stack := lift (np_asarray (stack_list t)) in
  lift (stack_sort_call ov stack (code_list t) sorted_list).

(** A name that a loop may have left unbound. *)
Definition bound {A} (x : option A) : M node A :=
  match x with
  | Some a => ret a
  | None => raise UnboundLocalError
  end.

(** [with rasterio.open(p, "w", **kwargs) as dst: dst.write(stack)] *)
Definition save_stack (p : path) (kwargs : profile) (stack : ndarray)
  : M node unit :=
  raster_create fl p kwargs ;;;
  raster_write fl p kwargs stack.

(** lines 200-207 *)
Definition parse_resample (resample : string) : M node resampling :=
  if bool_decide (resample = "nearest") then ret nearest
  else if bool_decide (resample = "bilinear") then ret bilinear
  else if bool_decide (resample = "cubic") then ret cubic
  else raise (SystemExit (resample +:+ " not a valid option")).

(** lines 209-222 and 224-237: the stack read back at the scale factor,
    and its transform *)
Definition read_resampled (p : path) (scale_factor : nat) (res : resampling)
  : M node (ndarray * affine) :=
  let* '(prof, data) := raster_open fl p in
  let h := height prof * scale_factor in
  let w := width prof * scale_factor in
  let stored :=
    match data with
    | Some a => bands a
    | None => replicate (count prof) (replicate (height prof) (replicate (width prof) 0%Z))
    end in
  let out :=
    NdArray (p_dtype prof) h w
      (map (λ band,
              map (λ i, map (λ j, resample_pixel engine res band h w i j) (seq 0 w))
                (seq 0 h))
         (take (count prof) stored)) in
  if decide (w = 0 ∨ h = 0) then raise ZeroDivisionError
  else ret (out, scaled_transform engine (transform prof) (width prof) w (height prof) h).

(** The test on the granule's name (lines 56 and 65, 343 and 347). *)
Definition l2a_guard (granule : path) : M node unit :=
  if contains "L2A" (path_name granule) then ret tt
  else raise (SystemExit ("L2A product not found:" +:+ String "010" (path_str fl granule))).

(** lines 33-121: the paths and the three loops *)
Definition processor_all_read (args : arguments) : M node read_state :=
  let* safe_path := check_path_validity (product_path args) in
  let* output_folder_path := output_folder safe_path (output_path args) in
  let temp_path := safe_path ++ ["TEMP"] in
  mkdir fl temp_path ;;;
  let* granule := find_granule safe_path in
  l2a_guard granule ;;;
  let safe_path_10m := granule ++ ["IMG_DATA"; "R10m"] in
  let safe_path_20m := granule ++ ["IMG_DATA"; "R20m"] in
  let safe_path_60m := granule ++ ["IMG_DATA"; "R60m"] in
  let* band_names_10m := band_names safe_path_10m in
  let* band_names_20m := band_names safe_path_20m in
  let* band_names_60m := band_names safe_path_60m in
  let* tier_10m := read_tier safe_path_10m wanted_10m band_names_10m (Tier [] [] None) in
  let* tier_20m := read_tier safe_path_20m wanted_20m band_names_20m (Tier [] [] None) in
  let* tier_60m := read_tier safe_path_60m wanted_60m band_names_60m (Tier [] [] None) in
  ret (ReadState output_folder_path safe_path temp_path tier_10m tier_20m tier_60m).

(** lines 123-142 *)
Definition processor_all_sort (rd : read_state) : M node sorted_state :=
  let* stack_10m_sorted := sort_tier (rs_tier_10m rd) sorted_list_10m in
  let* stack_20m_sorted := sort_tier (rs_tier_20m rd) sorted_list_20m in
  let* stack_60m_sorted := sort_tier (rs_tier_60m rd) sorted_list_60m in
  ret (SortedState stack_10m_sorted stack_20m_sorted stack_60m_sorted).

Definition stack_temp_10m (rd : read_state) : path := rs_temp_path rd ++ ["Temp_10m.tif"].
Definition stack_temp_20m (rd : read_state) : path := rs_temp_path rd ++ ["Temp_20m.tif"].
Definition stack_temp_60m (rd : read_state) : path := rs_temp_path rd ++ ["Temp_60m.tif"].

(** lines 144-193; the result is [src_10m_kwargs] as updated *)
Definition processor_all_save (rd : read_state) (ss : sorted_state) : M node profile :=
  let* src_10m_kwargs := bound (src_kwargs (rs_tier_10m rd)) in
  let src_10m_kwargs := update_kwargs src_10m_kwargs 4 in
  let* src_20m_kwargs := bound (src_kwargs (rs_tier_20m rd)) in
  let src_20m_kwargs := update_kwargs src_20m_kwargs 6 in
  let* src_60m_kwargs := bound (src_kwargs (rs_tier_60m rd)) in
  let src_60m_kwargs := update_kwargs src_60m_kwargs 2 in
  save_stack (stack_temp_10m rd) src_10m_kwargs (ss_stack_10m_sorted ss) ;;;
  save_stack (stack_temp_20m rd) src_20m_kwargs (ss_stack_20m_sorted ss) ;;;
  save_stack (stack_temp_60m rd) src_60m_kwargs (ss_stack_60m_sorted ss) ;;;
  ret src_10m_kwargs.

(** lines 195-237 *)
Definition processor_all_resample (args : arguments) (rd : read_state)
    (ss : sorted_state) (src_10m_kwargs : profile) : M node merge_input :=
  let scale_factor_20m := 2 in
  let scale_factor_60m := 6 in
  let* res := parse_resample (resample args) in
  let* '(data_20m, transform_20m) :=
    read_resampled (stack_temp_20m rd) scale_factor_20m res in
  let* '(data_60m, transform_60m) :=
    read_resampled (stack_temp_60m rd) scale_factor_60m res in
  ret (MergeInput (rs_output_folder_path rd) (rs_safe_path rd) (rs_temp_path rd)
         src_10m_kwargs (ss_stack_10m_sorted ss)
         data_20m transform_20m data_60m transform_60m).

(** lines 33-237 *)
Definition processor_all_front (args : arguments) : M node merge_input :=
  let* rd := processor_all_read args in
  let* ss := processor_all_sort rd in
  let* src_10m_kwargs := processor_all_save rd ss in
  processor_all_resample args rd ss src_10m_kwargs.

(** lines 239-258: [stack] is bound only when the transforms are equal *)
Definition merge (st : merge_input) : M node (option ndarray) :=
  if transform_eq engine (mi_transform_20m st) (mi_transform_60m st) then
    let* stack := lift (merge_stack (mi_stack_10m_sorted st) (mi_data_20m st)
                          (mi_data_60m st)) in
    ret (Some stack)
  else ret None.

(** utils.py, lines 109-128 *)
Definition create_pam_xml (stack_array : ndarray) (out_name : path) : M node unit :=
  let* n := lift (calculate_statistics stack_array) in
  xml_write fl (with_suffix out_name ".tif.aux.xml") n.

(** The export of a stack (lines 275-295 and 388-408); [None] is a stack
    whose name is unbound.  The export is logged after the statistics are
    written and before the dataset is opened. *)
Definition export (stack : option ndarray) (name_output : path)
    (new_kwargs : profile) (xml pyramids : bool) : M node unit :=
  (if xml then
     let* stack := bound stack in
     create_pam_xml stack name_output
   else ret tt) ;;;
  raster_create fl name_output new_kwargs ;;;
  let* stack := bound stack in
  raster_write fl name_output new_kwargs stack ;;;
  if pyramids then build_overviews fl name_output new_kwargs [2; 4; 8; 16]
  else ret tt.

Definition name_output_all (args : arguments) (st : merge_input) : path :=
  mi_output_folder_path st ++
  [str_drop_last (path_name (mi_safe_path st)) 5 +:+ "_" +:+ upper (resample args)
     +:+ "_STACK_ALL.tif"].

(** lines 239-300 *)
Definition processor_all_back (args : arguments) (st : merge_input) : M node unit :=
  let* stack := merge st in
  let new_kwargs := update_kwargs (mi_src_10m_kwargs st) 12 in
  let name_output := name_output_all args st in
  export stack name_output new_kwargs (xml args) (pyramids args) ;;;
  rmtree fl (mi_temp_path st).

Definition processor_all (args : arguments) : M node unit :=
  let* st := processor_all_front args in
  processor_all_back args st.

(** processors.py, lines 324-366: the paths and the loop of
    [processor_rgbn]; the result is [(output_folder_path, safe_path)] and
    the 10m tier *)
Definition processor_rgbn_read (args : arguments) : M node (path * path * tier) :=
  let* safe_path := check_path_validity (product_path args) in
  let* output_folder_path := output_folder safe_path (output_path args) in
  let* granule := find_granule safe_path in
  l2a_guard granule ;;;
  let safe_path_10m := granule ++ ["IMG_DATA"; "R10m"] in
  let* band_names_10m := band_names safe_path_10m in
  let* tier_10m := read_tier safe_path_10m wanted_10m band_names_10m (Tier [] [] None) in
  ret (output_folder_path, safe_path, tier_10m).

(** lines 368-372 *)
Definition processor_rgbn_sort (tier_10m : tier) : M node ndarray :=
  sort_tier tier_10m sorted_list_10m.

(** lines 375-412 *)
Definition processor_rgbn_export (args : arguments)
    (output_folder_path safe_path : path) (tier_10m : tier)
    (stack_10m_sorted : ndarray) : M node unit :=
  let* src_10m_kwargs := bound (src_kwargs tier_10m) in
  let new_kwargs := update_kwargs src_10m_kwargs 4 in
  let name_output :=
    output_folder_path ++ [str_drop_last (path_name safe_path) 5 +:+ "_STACK_RGBN.tif"] in
  export (Some stack_10m_sorted) name_output new_kwargs (xml args) (pyramids args).

Definition processor_rgbn (args : arguments) : M node unit :=
  let* '(output_folder_path, safe_path, tier_10m) := processor_rgbn_read args in
  let* stack_10m_sorted := processor_rgbn_sort tier_10m in
  processor_rgbn_export args output_folder_path safe_path tier_10m stack_10m_sorted.
End processors.

(** ** The two failures that the spec names *)

(** The path does not exist, or its suffix is neither [.zip] nor [.SAFE]. *)
Definition invalid_path (fl : flavour) (w : node) (p : path) : Prop :=
  fs_lookup fl w p = None ∨ path_suffix p ∉ [".zip"; ".SAFE"].

(** The option is none of the three that [processor_all] knows. *)
Definition invalid_resample (r : string) : Prop :=
  r ∉ ["nearest"; "bilinear"; "cubic"].

(** The file at [p] is a raster that holds the stack [a]. *)
Definition holds_stack (fl : flavour) (w : node) (p : path) (a : ndarray) : Prop :=
  ∃ prof, fs_lookup fl w p = Some (Raster prof (Some a)).


(** The message of the test on the granule's name. *)
Definition l2a_message (fl : flavour) (granule : path) : string :=
  "L2A product not found:" +:+ String "010" (path_str fl granule).

(** The bands of a tier are uint16 images of [r] rows and [c] columns, one
    for each code. *)
Definition tier_wf (t : tier) (r c : nat) : Prop :=
  length (stack_list t) = length (code_list t) ∧
  Forall (λ im, im_dtype im = uint16 ∧ im_row im = r ∧ im_column im = c ∧
                plane_wf uint16 r c (im_data im)) (stack_list t).

(** * Definitions for the statements: pure versions of the loops,
    vocabulary, concrete inputs *)

(** ** The loops of [stack_sort] as functions of the arrays they update *)

(** [carr[i] = v] on the contents of a 1-D array of element type [dt] *)
Definition setitem_pure (ov : overflow_policy) (dt : dtype) (carr : list Z)
    (i : nat) (v : Z) : list Z * result unit :=
  if decide (i < length carr) then
    if decide (cast dt v = v) then (<[i := v]> carr, Ok tt)
    else match ov with
         | Wraps => (<[i := cast dt v]> carr, Ok tt)
         | Raises => (carr, Raise OverflowError)
         end
  else (carr, Raise IndexError).

Fixpoint scan_pure (ov : overflow_policy) (fuel : nat) (codes sorted : list string)
    (len count count_sort : nat) (carr : list Z) : list Z * result unit :=
  match fuel with
  | 0 => (carr, OutOfFuel)
  | S fuel' =>
      if decide (count_sort ≠ len) then
        match codes !! count with
        | None => (carr, Raise IndexError)
        | Some code =>
            match sorted !! count_sort with
            | None => (carr, Raise IndexError)
            | Some target =>
                if decide (code = target) then
                  match setitem_pure ov uint8 carr count_sort (Z.of_nat count) with
                  | (carr', Ok _) =>
                      scan_pure ov fuel' codes sorted len 0 (count_sort + 1) carr'
                  | (carr', Raise e) => (carr', Raise e)
                  | (carr', OutOfFuel) => (carr', OutOfFuel)
                  end
                else scan_pure ov fuel' codes sorted len (count + 1) count_sort carr
            end
        end
      else (carr, Ok tt)
  end.

Fixpoint copy_pure (todo : nat) (src : list plane) (carr : list Z)
    (sorted_band : nat) (dst : list plane) : list plane * result unit :=
  match todo with
  | 0 => (dst, Ok tt)
  | S todo' =>
      match carr !! sorted_band with
      | None => (dst, Raise IndexError)
      | Some j =>
          match src !! Z.to_nat j with
          | None => (dst, Raise IndexError)
          | Some p =>
              if decide (sorted_band < length dst) then
                copy_pure todo' src carr (sorted_band + 1)
                  (<[sorted_band := cast_plane uint16 p]> dst)
              else (dst, Raise IndexError)
          end
      end
  end.

Definition zeros3 (band r c : nat) : list plane :=
  replicate band (replicate r (replicate c 0%Z)).

(** The objects a call allocates, as they are when it ends, and how it ends. *)
Definition sort_outcome (ov : overflow_policy) (a : ndarray)
    (codes sorted : list string) : list pyobj * result unit :=
  let len := length codes in
  let z := zeros3 (length (bands a)) (row a) (column a) in
  match scan_pure ov (scan_fuel len) codes sorted len 0 0 (replicate len 0%Z) with
  | (carr, Ok _) =>
      match copy_pure len (bands a) carr 0 z with
      | (dst, r) => ([Nd3 (NdArray uint16 (row a) (column a) dst); Nd1 uint8 carr], r)
      end
  | (carr, r) => ([Nd3 (NdArray uint16 (row a) (column a) z); Nd1 uint8 carr], r)
  end.

(** The linear scan of the spec: the first position of [target] in the
    code list. *)
Definition linear_scan (target : string) (code_list : list string) : option nat :=
  fst <$> list_find (λ code, code = target) code_list.

(** ** Canonical order *)

(** The slots of [out] hold the samples of [a] in the order of [sorted]:
    slot [i] holds the sample at the position that the linear scan of
    [codes] gives for the [i]-th canonical code. *)
Definition in_canonical_order (a : ndarray) (codes sorted : list string)
    (out : ndarray) : Prop :=
  shape out = shape a ∧
  ∀ i t, sorted !! i = Some t →
    ∃ j, linear_scan t codes = Some j ∧ bands out !! i = bands a !! j.

(** ** Concrete stacks *)

(** A band of one pixel. *)
Definition pixel (v : Z) : plane := [[v]].

(** The 10m tier of a product, read in directory order 08, 02, 04, 03. *)
Definition stack_10m_example : ndarray :=
  NdArray uint16 1 1 [pixel 8; pixel 2; pixel 4; pixel 3].
Definition code_10m_example : list string := ["08"; "02"; "04"; "03"].
Definition sorted_list_10m_example : list string := ["02"; "03"; "04"; "08"].
Definition heap_10m_example : list pyobj :=
  [Nd3 stack_10m_example; PyList code_10m_example; PyList sorted_list_10m_example].

(** A stack in canonical order already. *)
Definition stack_60m_example : ndarray := NdArray uint16 1 1 [pixel 1; pixel 9].
Definition heap_60m_example : list pyobj :=
  [Nd3 stack_60m_example; PyList ["01"; "09"]; PyList ["01"; "09"]].

(** 257 distinct two-character codes, "AA", "AB", ..., and a stack of 257
    one-pixel bands; band [i] holds the value [i]. *)
Definition code_of (i : nat) : string :=
  String (Ascii.ascii_of_nat (65 + i / 26))
    (String (Ascii.ascii_of_nat (65 + i mod 26)) "").
Definition codes257 : list string := map code_of (seq 0 257).
Definition stack257 : ndarray :=
  NdArray uint16 1 1 (map (λ i, pixel (Z.of_nat i)) (seq 0 257)).
Definition heap257 : list pyobj :=
  [Nd3 stack257; PyList codes257; PyList codes257].
Definition heap257_reversed : list pyobj :=
  [Nd3 stack257; PyList (reverse codes257); PyList codes257].

(** The band that a call leaves in slot [i] of the array it returns. *)
Definition returned_band (r : list pyobj * result nat) (i : nat) : option plane :=
  match r with
  | (h', Ok l) =>
      match h' !! l with
      | Some (Nd3 out) => bands out !! i
      | _ => None
      end
  | _ => None
  end.

(** ** Concrete tier stacks for the merge: one-pixel bands holding their
    band number (80 stands for band 8A) *)

Definition merge_10m_example : ndarray :=
  NdArray uint16 1 1 [pixel 2; pixel 3; pixel 4; pixel 8].
Definition merge_20m_example : ndarray :=
  NdArray uint16 1 1 [pixel 5; pixel 6; pixel 7; pixel 11; pixel 12; pixel 80].
Definition merge_60m_example : ndarray :=
  NdArray uint16 1 1 [pixel 1; pixel 9].

(** ** A concrete product *)

Definition const_plane (r c : nat) (v : Z) : plane := replicate r (replicate c v).

Definition f64_10 : Z := 0x4024000000000000.
Definition f64_20 : Z := 0x4034000000000000.
Definition f64_60 : Z := 0x404E000000000000.
Definition f64_minus_10 : Z := 0xC024000000000000.
Definition f64_minus_20 : Z := 0xC034000000000000.
Definition f64_minus_60 : Z := 0xC04E000000000000.
Definition f64_600000 : Z := 0x41224F8000000000.
Definition f64_4200000 : Z := 0x4150059000000000.
Definition f64_4300000 : Z := 0x4150673800000000.

(** An engine for the examples: nearest-neighbour reading at an integer
    scale, the products of the pixel sizes of Sentinel-2 tiles, and
    comparison of bit patterns. *)
Definition example_scale (x : Z) (n m : nat) : Z :=
  if decide (m = 2 * n ∧ x = f64_20) then f64_10
  else if decide (m = 6 * n ∧ x = f64_60) then f64_10
  else if decide (m = 2 * n ∧ x = f64_minus_20) then f64_minus_10
  else if decide (m = 6 * n ∧ x = f64_minus_60) then f64_minus_10
  else x.

Definition example_engine : raster_engine :=
  RasterEngine
    (λ _ band h w i j,
       nth (j * length (nth 0 band []) / w) (nth (i * length band / h) band []) 0%Z)
    (λ t width w height h,
       Affine (example_scale (af_a t) width w) (af_b t) (af_c t)
         (af_d t) (example_scale (af_e t) height h) (af_f t))
    (λ t1 t2, bool_decide (t1 = t2)).

Definition jp2 (size : nat) (pixel_size minus_pixel_size north : Z) (v : Z) : node :=
  Raster (Profile "JP2OpenJPEG" uint16 1 size size
            (Affine pixel_size 0 f64_600000 0 minus_pixel_size north) None None)
    (Some (NdArray uint16 size size [const_plane size size v])).

Definition r10m (v : Z) : node := jp2 6 f64_10 f64_minus_10 f64_4200000 v.
Definition r20m (v : Z) : node := jp2 3 f64_20 f64_minus_20 f64_4200000 v.
Definition r60m (north v : Z) : node := jp2 1 f64_60 f64_minus_60 north v.

(** The entries of a granule directory; the 60m bands have their upper
    edge at [north]. *)
Definition img_data (north : Z) : node :=
  Dir [ ("R10m", Dir [ ("T34SGH_20230101T092401_B08_10m.jp2", r10m 8);
                       ("T34SGH_20230101T092401_TCI_10m.jp2", OtherFile);
                       ("T34SGH_20230101T092401_B02_10m.jp2", r10m 2);
                       ("T34SGH_20230101T092401_B04_10m.jp2", r10m 4);
                       ("T34SGH_20230101T092401_B03_10m.jp2", r10m 3) ]);
        ("R20m", Dir [ ("T34SGH_20230101T092401_B8A_20m.jp2", r20m 80);
                       ("T34SGH_20230101T092401_B05_20m.jp2", r20m 5);
                       ("T34SGH_20230101T092401_B12_20m.jp2", r20m 12);
                       ("T34SGH_20230101T092401_B02_20m.jp2", r20m 2);
                       ("T34SGH_20230101T092401_B06_20m.jp2", r20m 6);
                       ("T34SGH_20230101T092401_B11_20m.jp2", r20m 11);
                       ("T34SGH_20230101T092401_B07_20m.jp2", r20m 7) ]);
        ("R60m", Dir [ ("T34SGH_20230101T092401_B09_60m.jp2", r60m north 9);
                       ("T34SGH_20230101T092401_B05_60m.jp2", r60m north 5);
                       ("T34SGH_20230101T092401_B01_60m.jp2", r60m north 1) ]) ].

Definition product (granule_name : string) (north : Z) : node :=
  Dir [ ("data",
         Dir [ ("S2A_MSIL2A_T34SGH.SAFE",
                Dir [ ("MTD_MSIL2A.xml", OtherFile);
                      ("GRANULE",
                       Dir [ (granule_name,
                              Dir [ ("MTD_TL.xml", OtherFile);
                                    ("IMG_DATA", img_data north) ]) ]) ]) ]) ].

Definition example_world : node := product "L2A_T34SGH_A039000_20230101T092401" f64_4200000.

(** The same product with the granule directory in lower case. *)
Definition lowercase_world : node := product "l2a_t34sgh_a039000_20230101t092401" f64_4200000.

(** The same product with the 60m bands georeferenced elsewhere. *)
Definition misaligned_world : node := product "L2A_T34SGH_A039000_20230101T092401" f64_4300000.

Definition example_args (resample : string) (xml : bool) : arguments :=
  Arguments_ ["data"; "S2A_MSIL2A_T34SGH.SAFE"] None resample xml true.

(** ** Runs of the processors on the concrete product *)

Definition safe_example : list string := ["data"; "S2A_MSIL2A_T34SGH.SAFE"].


(** The state of [processor_all] before the merge, on the product whose
    60m bands are georeferenced elsewhere. *)
Definition misaligned_front : node * result merge_input :=
  processor_all_front PosixFlavour Wraps example_engine (example_args "nearest" false)
    misaligned_world.
Definition misaligned_state : merge_input :=
  match misaligned_front.2 with
  | Ok st => st
  | _ => MergeInput [] [] [] (Profile "" uint16 0 0 0 (Affine 0 0 0 0 0 0) None None)
           (NdArray uint16 0 0 []) (NdArray uint16 0 0 []) (Affine 0 0 0 0 0 0)
           (NdArray uint16 0 0 []) (Affine 0 0 0 0 0 0)
  end.

(** ** Computations that never raise [SystemExit] *)

Definition no_exit {S A} (m : M S A) : Prop :=
  ∀ s s' msg, m s ≠ (s', Raise (SystemExit msg)).

Definition not_exit (e : exn) : Prop := ∀ msg, e ≠ SystemExit msg.

(** ** Arguments that [stack_sort] can sort *)

(** What decides how a call on at most 256 codes ends: the stack has a
    slot for every code, and each of the first [len(code_list)] entries of
    the canonical list is there and occurs in the code list. *)
Definition sortable (a : ndarray) (codes sorted : list string) : Prop :=
  length codes ≤ length (bands a) ∧
  ∀ i, i < length codes → ∃ t, sorted !! i = Some t ∧ t ∈ codes.

(** ** More concrete stacks *)

(** Three codes for a stack of four int32 bands; the code 02 occurs
    twice. *)
Definition stack_dup_example : ndarray :=
  NdArray int32 1 1 [pixel 70000; pixel 2; pixel 3; pixel 4].
Definition code_dup_example : list string := ["03"; "02"; "02"].
Definition sorted_dup_example : list string := ["02"; "03"; "02"; "08"].
Definition heap_dup_example : list pyobj :=
  [Nd3 stack_dup_example; PyList code_dup_example; PyList sorted_dup_example].

(** A 60m tier that holds band 10 as well, which the loop of
    [processor_all] selects. *)
Definition stack_b10_example : ndarray :=
  NdArray uint16 1 1 [pixel 1; pixel 9; pixel 10].
Definition heap_b10_example : list pyobj :=
  [Nd3 stack_b10_example; PyList ["01"; "09"; "10"]; PyList sorted_list_60m].

(** ** Suffixes *)

(** A string that is a suffix by its form: it starts with its only dot and
    has more after it. *)
Definition is_suffix (sfx : string) : Prop :=
  rfind_dot sfx 0 = Some 0 ∧ 1 < String.length sfx.

(** ** A zipped product *)

(** A zipped product next to nothing else. *)
Definition zipped_world : node :=
  Dir [ ("data",
         Dir [ ("S2A_MSIL2A_T34SGH.zip",
                ZipArchive [ ("S2A_MSIL2A_T34SGH.SAFE",
                              Dir [ ("MTD_MSIL2A.xml", OtherFile) ]) ]) ]) ].

(** ** What a tier loop reads *)

(** The file [name] of the folder [dir] is a raster whose first band is
    [im] and whose profile is [prof]. *)
Definition band_file (fl : flavour) (w : node) (dir : list string)
    (name : string) (prof : profile) (im : image) : Prop :=
  ∃ data, fs_lookup fl w (dir ++ [name]) = Some (Raster prof data) ∧
          read_band1 prof data = Ok im.

(** The names that a loop selects, in the order of the directory. *)
Definition selected (wanted names : list string) : list string :=
  List.filter (is_wanted wanted) names.

(** The tier [t] is what a loop over [names] reads in the folder [dir]:
    for each selected name, in their order, the code cut from the name and
    the first band of the file; the profile is that of the last file. *)
Definition tier_read (fl : flavour) (w : node) (dir : list string)
    (wanted names : list string) (t : tier) : Prop :=
  code_list t = map (λ name, str_slice name 24 26) (selected wanted names) ∧
  ∃ read,
    stack_list t = map snd read ∧
    Forall2 (λ name pi, band_file fl w dir name pi.1 pi.2)
      (selected wanted names) read ∧
    src_kwargs t = fst <$> last read.

(** [names] are the names with the suffix [.jp2] in the folder [dir], in
    the order of the directory. *)
Definition jp2_names (fl : flavour) (w : node) (dir names : list string) : Prop :=
  ∃ es, fs_lookup fl w dir = Some (Dir es) ∧
        names = filter (λ name, suffix name = ".jp2") (map fst es).

(** The stack [out] has one uint16 band for each code of [sorted_list]:
    the band that the tier [t] holds under the first occurrence of that
    code. *)
Definition sorted_against (sorted_list : list string) (t : tier) (out : ndarray)
  : Prop :=
  nd_dtype out = uint16 ∧
  length (bands out) = length sorted_list ∧
  ∀ i code, sorted_list !! i = Some code →
    ∃ j im, linear_scan code (code_list t) = Some j ∧
            stack_list t !! j = Some im ∧
            bands out !! i = Some (cast_plane uint16 (im_data im)).

(** ** Folders without a match *)

(** No name in the folder [p] or below it matches the pattern. *)
Definition no_match_below (fl : flavour) (w : node) (p : list string)
    (pattern : string) : Prop :=
  match fs_lookup fl w p with
  | Some n =>
      Forall (λ d : list string * list (string * node),
                Forall (λ e, fnmatch (fold_case fl) pattern e.1 = false) d.2)
        (iterate_directories p n)
  | None => True
  end.

(** A Level-1C product. *)
Definition l1c_world : node := product "L1C_T34SGH_A039000_20230101T092401" f64_4200000.

(** ** Rasters too small for the overviews, and concrete exports *)

(** More than one of the factors 2, 4, 8 and 16 gives an overview of one
    pixel. *)
Definition too_small (prof : profile) : Prop :=
  1 < length (filter (λ f, overview_shape (height prof) (width prof) f = (1, 1))
            [2; 4; 8; 16]).

(** A stack of four bands of 17 by 17 pixels and its profile. *)
Definition stack_17_example : ndarray :=
  NdArray uint16 17 17
    [const_plane 17 17 2; const_plane 17 17 3; const_plane 17 17 4; const_plane 17 17 8].
Definition profile_17_example : profile :=
  Profile "GTiff" uint16 4 17 17 (Affine 0 0 0 0 0 0) (Some "deflate") (Some "band").
Definition export_17_run : node * result unit :=
  export PosixFlavour (Some stack_17_example)
    (["data"] ++ ["S2A_STACK_RGBN" +:+ ".tif"]) profile_17_example true true zipped_world.
Definition profile_1_example : profile :=
  Profile "GTiff" uint16 4 1 1 (Affine 0 0 0 0 0 0) (Some "deflate") (Some "band").
Definition export_1_run : node * result unit :=
  export PosixFlavour (Some merge_10m_example)
    (["data"] ++ ["S2A_STACK_RGBN" +:+ ".tif"]) profile_1_example true false zipped_world.

(** ** A tier that lacks a band *)

(** A 20m tier without band 8A, the last of its canonical list. *)
Definition tier_20m_short : tier :=
  Tier ["05"; "12"; "06"; "11"; "07"]
       [Image uint16 1 1 (pixel 5); Image uint16 1 1 (pixel 12);
        Image uint16 1 1 (pixel 6); Image uint16 1 1 (pixel 11);
        Image uint16 1 1 (pixel 7)]
       None.

(** ** Runs of the processors that return *)

(** A product with rasters of 18, 9 and 3 pixels a side. *)
Definition large_img_data : node :=
  Dir [ ("R10m", Dir [ ("T34SGH_20230101T092401_B08_10m.jp2",
                        jp2 18 f64_10 f64_minus_10 f64_4200000 8);
                       ("T34SGH_20230101T092401_TCI_10m.jp2", OtherFile);
                       ("T34SGH_20230101T092401_B02_10m.jp2",
                        jp2 18 f64_10 f64_minus_10 f64_4200000 2);
                       ("T34SGH_20230101T092401_B04_10m.jp2",
                        jp2 18 f64_10 f64_minus_10 f64_4200000 4);
                       ("T34SGH_20230101T092401_B03_10m.jp2",
                        jp2 18 f64_10 f64_minus_10 f64_4200000 3) ]);
        ("R20m", Dir [ ("T34SGH_20230101T092401_B8A_20m.jp2",
                        jp2 9 f64_20 f64_minus_20 f64_4200000 80);
                       ("T34SGH_20230101T092401_B05_20m.jp2",
                        jp2 9 f64_20 f64_minus_20 f64_4200000 5);
                       ("T34SGH_20230101T092401_B12_20m.jp2",
                        jp2 9 f64_20 f64_minus_20 f64_4200000 12);
                       ("T34SGH_20230101T092401_B02_20m.jp2",
                        jp2 9 f64_20 f64_minus_20 f64_4200000 2);
                       ("T34SGH_20230101T092401_B06_20m.jp2",
                        jp2 9 f64_20 f64_minus_20 f64_4200000 6);
                       ("T34SGH_20230101T092401_B11_20m.jp2",
                        jp2 9 f64_20 f64_minus_20 f64_4200000 11);
                       ("T34SGH_20230101T092401_B07_20m.jp2",
                        jp2 9 f64_20 f64_minus_20 f64_4200000 7) ]);
        ("R60m", Dir [ ("T34SGH_20230101T092401_B09_60m.jp2",
                        jp2 3 f64_60 f64_minus_60 f64_4200000 9);
                       ("T34SGH_20230101T092401_B05_60m.jp2",
                        jp2 3 f64_60 f64_minus_60 f64_4200000 5);
                       ("T34SGH_20230101T092401_B01_60m.jp2",
                        jp2 3 f64_60 f64_minus_60 f64_4200000 1) ]) ].

Definition large_world : node :=
  Dir [ ("data",
         Dir [ ("S2A_MSIL2A_T34SGH.SAFE",
                Dir [ ("MTD_MSIL2A.xml", OtherFile);
                      ("GRANULE",
                       Dir [ ("L2A_T34SGH_A039000_20230101T092401",
                              Dir [ ("MTD_TL.xml", OtherFile);
                                    ("IMG_DATA", large_img_data) ]) ]) ]) ]) ].

(** [processor_rgbn] on that product. *)
Definition rgbn_run : node * result unit :=
  processor_rgbn PosixFlavour Wraps (example_args "nearest" true) large_world.

(** The paths [p] and [q] part at some component: neither lies under the
    other. *)
Definition diverge (fl : flavour) (p q : list string) : Prop :=
  ∃ c n n' r1 r2, p = c ++ n :: r1 ∧ q = c ++ n' :: r2 ∧ same_name fl n n' = false.

(** [data] is the stack [stored] read at [scale] times the height and width
    of the profile [prof], with the resampling [res]. *)
Definition resampled (engine : raster_engine) (res : resampling) (scale : nat)
    (prof : profile) (stored data : ndarray) : Prop :=
  data =
    NdArray uint16 (height prof * scale) (width prof * scale)
      (map (λ band,
              map (λ i, map (λ j, resample_pixel engine res band
                                    (height prof * scale) (width prof * scale) i j)
                          (seq 0 (width prof * scale)))
                (seq 0 (height prof * scale)))
         (bands stored)).

(** [processor_all] on the product with rasters of 18 pixels a side. *)
Definition all_run : node * result unit :=
  processor_all PosixFlavour Wraps example_engine (example_args "nearest" true)
    large_world.

(** ** A run without its output folder *)

(** A run with an output folder that the concrete world does not have:
    what it has read and sorted. *)
Definition missing_out_args : arguments :=
  Arguments_ safe_example (Some ["out"]) "nearest" true true.
Definition tier_10m_read_example : tier :=
  Tier ["08"; "02"; "04"; "03"]
       [Image uint16 6 6 (const_plane 6 6 8); Image uint16 6 6 (const_plane 6 6 2);
        Image uint16 6 6 (const_plane 6 6 4); Image uint16 6 6 (const_plane 6 6 3)]
       (Some (Profile "JP2OpenJPEG" uint16 1 6 6
                (Affine f64_10 0 f64_600000 0 f64_minus_10 f64_4200000) None None)).

(** ** The 10m folder of the concrete product *)

(** The 10m folder of the concrete product, and its names in the order
    of the directory. *)
Definition r10m_example : list string :=
  safe_example ++ ["GRANULE"; "L2A_T34SGH_A039000_20230101T092401"; "IMG_DATA"; "R10m"].
Definition names_10m_example : list string :=
  ["T34SGH_20230101T092401_B08_10m.jp2"; "T34SGH_20230101T092401_TCI_10m.jp2";
   "T34SGH_20230101T092401_B02_10m.jp2"; "T34SGH_20230101T092401_B04_10m.jp2";
   "T34SGH_20230101T092401_B03_10m.jp2"].

(** ** Folders with entries of different names *)

(** No two entries of a folder have the same name. *)
Fixpoint unique_names (fl : flavour) (es : list (string * node)) : Prop :=
  match es with
  | [] => True
  | (n, _) :: es' =>
      Forall (λ e : string * node, same_name fl n e.1 = false) es' ∧
      unique_names fl es'
  end.

(** A product folder that holds the product of an earlier run. *)
Definition rerun_world : node :=
  Dir [ ("data",
         Dir [ ("S2A_MSIL2A_T34SGH.SAFE",
                Dir [ ("GRANULE", Dir []);
                      ("GTIFF_PRODUCT",
                       Dir [ ("S2A_MSIL2A_T34SGH_STACK_RGBN.tif", OtherFile) ]) ]) ]) ].

(** ** The state before the merge on the concrete product *)


(** ** A run with an option that it does not know *)


(** * Properties of [stack_sort] *)

(** ** Running the primitives on a store whose contents are known *)

Lemma list_getitem_run (h : heap) l xs i :
  h !! l = Some (PyList xs) →
  list_getitem l i h =
    (h, match xs !! i with Some x => Ok x | None => Raise IndexError end).
Proof.
  intros Hl. unfold list_getitem, bind, deref. rewrite Hl.
  by destruct (xs !! i).
Qed.

Lemma arr1_setitem_run ov (h : heap) l dt xs i v :
  h !! l = Some (Nd1 dt xs) →
  arr1_setitem ov l i v h =
    (<[l := Nd1 dt (setitem_pure ov dt xs i v).1]> h, (setitem_pure ov dt xs i v).2).
Proof.
  intros Hl. unfold arr1_setitem, setitem_pure, bind, deref, store, raise.
  rewrite Hl. repeat case_decide; try destruct ov; simpl;
    try reflexivity; by rewrite list_insert_id.
Qed.

Lemma arr1_getitem_run (h : heap) l dt xs i :
  h !! l = Some (Nd1 dt xs) →
  arr1_getitem l i h =
    (h, match xs !! i with Some x => Ok x | None => Raise IndexError end).
Proof.
  intros Hl. unfold arr1_getitem, bind, deref. rewrite Hl.
  by destruct (xs !! i).
Qed.

Lemma band_getitem_run (h : heap) l a j :
  h !! l = Some (Nd3 a) →
  band_getitem l j h =
    (h, match bands a !! Z.to_nat j with Some p => Ok p | None => Raise IndexError end).
Proof.
  intros Hl. unfold band_getitem, bind, deref. rewrite Hl.
  by destruct (bands a !! Z.to_nat j).
Qed.

(** ** The loops refine their pure versions *)

Lemma scan_loop_pure ov lc ls lca codes sorted len :
  lca ≠ lc → lca ≠ ls →
  ∀ fuel count cs carr (h : heap),
    h !! lc = Some (PyList codes) →
    h !! ls = Some (PyList sorted) →
    h !! lca = Some (Nd1 uint8 carr) →
    scan_loop ov fuel lc ls lca len count cs h =
      (<[lca := Nd1 uint8 (scan_pure ov fuel codes sorted len count cs carr).1]> h,
       (scan_pure ov fuel codes sorted len count cs carr).2).
Proof.
  intros Hc Hs. induction fuel as [|fuel IH]; intros count cs carr h Hlc Hls Hca.
  { simpl. by rewrite list_insert_id. }
  simpl. case_decide; [|by rewrite list_insert_id].
  unfold bind at 1. rewrite (list_getitem_run h lc codes count Hlc).
  destruct (codes !! count) as [code|]; [|by rewrite list_insert_id].
  unfold bind at 1. rewrite (list_getitem_run h ls sorted cs Hls).
  destruct (sorted !! cs) as [target|]; [|by rewrite list_insert_id].
  case_decide.
  - unfold bind at 1. rewrite (arr1_setitem_run ov h lca uint8 carr cs _ Hca).
    destruct (setitem_pure ov uint8 carr cs (Z.of_nat count)) as [carr' [[]|e|]];
      simpl; try reflexivity.
    rewrite IH with (carr := carr').
    + by rewrite list_insert_insert_eq.
    + by rewrite list_lookup_insert_ne.
    + by rewrite list_lookup_insert_ne.
    + apply list_lookup_insert_eq. by eapply lookup_lt_Some.
  - by apply IH.
Qed.

Lemma copy_loop_pure lst lso lca a dtc carr r c :
  lso ≠ lst → lso ≠ lca →
  ∀ todo sb dst (h : heap),
    h !! lst = Some (Nd3 a) →
    h !! lca = Some (Nd1 dtc carr) →
    h !! lso = Some (Nd3 (NdArray uint16 r c dst)) →
    copy_loop todo lst lso lca sb h =
      (<[lso := Nd3 (NdArray uint16 r c (copy_pure todo (bands a) carr sb dst).1)]> h,
       (copy_pure todo (bands a) carr sb dst).2).
Proof.
  intros Hst Hca. induction todo as [|todo IH]; intros sb dst h Hlst Hlca Hlso.
  { simpl. by rewrite list_insert_id. }
  simpl. unfold bind at 1. rewrite (arr1_getitem_run h lca dtc carr sb Hlca).
  destruct (carr !! sb) as [j|]; [|by rewrite list_insert_id].
  unfold bind at 1. rewrite (band_getitem_run h lst a j Hlst).
  destruct (bands a !! Z.to_nat j) as [p|]; [|by rewrite list_insert_id].
  unfold bind at 1. unfold band_setitem, bind, deref. rewrite Hlso. simpl.
  case_decide; [|by rewrite list_insert_id].
  unfold store. rewrite IH with (dst := <[sb := cast_plane uint16 p]> dst).
  - by rewrite list_insert_insert_eq.
  - by rewrite list_lookup_insert_ne.
  - by rewrite list_lookup_insert_ne.
  - apply list_lookup_insert_eq. by eapply lookup_lt_Some.
Qed.

Local Opaque scan_fuel.

Lemma stack_sort_run ov (h : heap) lst lc ls a codes sorted :
  h !! lst = Some (Nd3 a) →
  h !! lc = Some (PyList codes) →
  h !! ls = Some (PyList sorted) →
  stack_sort ov lst lc ls h =
    (h ++ (sort_outcome ov a codes sorted).1,
     match (sort_outcome ov a codes sorted).2 with
     | Ok _ => Ok (length h)
     | Raise e => Raise e
     | OutOfFuel => OutOfFuel
     end).
Proof.
  intros Hst Hc Hs.
  pose proof (lookup_lt_Some _ _ _ Hst) as Lst.
  pose proof (lookup_lt_Some _ _ _ Hc) as Lc.
  pose proof (lookup_lt_Some _ _ _ Hs) as Ls.
  unfold stack_sort, sort_outcome, zeros3.
  unfold bind at 1. unfold shape3, bind at 1, deref. rewrite Hst. simpl.
  unfold bind at 1. unfold np_zeros3, alloc.
  unfold bind at 1. unfold list_len, bind at 1, deref.
  rewrite lookup_app_l, Hc by done. simpl.
  unfold bind at 1. unfold np_zeros1, alloc.
  set (z := replicate (length (bands a)) (replicate (row a) (replicate (column a) 0%Z))).
  set (h2 := (h ++ [Nd3 (NdArray uint16 (row a) (column a) z)]) ++
             [Nd1 uint8 (replicate (length codes) 0%Z)]).
  assert (Hlen1 : length (h ++ [Nd3 (NdArray uint16 (row a) (column a) z)]) = S (length h))
    by (rewrite length_app; simpl; lia).
  assert (H2ca : h2 !! S (length h) = Some (Nd1 uint8 (replicate (length codes) 0%Z))).
  { unfold h2. rewrite lookup_app_r by lia. by rewrite Hlen1, Nat.sub_diag. }
  assert (H2so : h2 !! length h = Some (Nd3 (NdArray uint16 (row a) (column a) z))).
  { unfold h2. rewrite lookup_app_l by lia. rewrite lookup_app_r by lia.
    by rewrite Nat.sub_diag. }
  assert (H2 : ∀ l o, h !! l = Some o → h2 !! l = Some o).
  { intros l o Hl. pose proof (lookup_lt_Some _ _ _ Hl). unfold h2.
    rewrite lookup_app_l by lia. by rewrite lookup_app_l by lia. }
  unfold bind at 1. rewrite Hlen1.
  rewrite (scan_loop_pure ov lc ls (S (length h)) codes sorted (length codes))
    with (carr := replicate (length codes) 0%Z) by (auto; lia).
  fold z.
  destruct (scan_pure ov (scan_fuel (length codes)) codes sorted (length codes) 0 0
              (replicate (length codes) 0%Z)) as [carr r1] eqn:Escan.
  assert (Hins : <[S (length h) := Nd1 uint8 carr]> h2 =
                 h ++ [Nd3 (NdArray uint16 (row a) (column a) z); Nd1 uint8 carr]).
  { unfold h2. rewrite <- (assoc_L (++)). simpl.
    rewrite insert_app_r_alt by lia.
    by replace (S (length h) - length h) with 1 by lia. }
  simpl. destruct r1 as [[]|e|]; simpl; rewrite Hins; try reflexivity.
  unfold bind at 1.
  rewrite (copy_loop_pure lst (length h) (S (length h)) a uint8 carr (row a) (column a))
    with (dst := z); try lia.
  - destruct (copy_pure (length codes) (bands a) carr 0 z) as [dst r2]. simpl.
    rewrite insert_app_r_alt by lia. rewrite Nat.sub_diag. simpl.
    by destruct r2 as [[]|e|].
  - rewrite lookup_app_l by lia. done.
  - rewrite lookup_app_r by lia. by replace (S (length h) - length h) with 1 by lia.
  - rewrite lookup_app_r by lia. by rewrite Nat.sub_diag.
Qed.

Local Transparent scan_fuel.

(** ** The scan never runs out of fuel *)

Lemma scan_measure_next len cs count fuel :
  cs ≤ len → cs ≠ len → count < len →
  (len - cs) * S len + (len - count) < S fuel →
  (len - (cs + 1)) * S len + (len - 0) < fuel.
Proof.
  intros Hle Hne Hcount Hfuel.
  destruct (len - cs) as [|m] eqn:E; [lia|].
  replace (len - (cs + 1)) with m by lia.
  rewrite Nat.mul_succ_l in Hfuel. lia.
Qed.

(** ** The scan on a code list that holds every target once *)

Lemma linear_scan_Some target code_list p :
  linear_scan target code_list = Some p ↔
    code_list !! p = Some target ∧ ∀ j, j < p → code_list !! j ≠ Some target.
Proof.
  unfold linear_scan. split.
  - intros ([p' x] & Hfind & Hp)%fmap_Some. simpl in Hp. subst p'.
    apply list_find_Some in Hfind as (Hx & -> & Hbefore). split; [done|].
    intros j Hj Hjx. by eapply Hbefore.
  - intros [Hp Hbefore]. apply fmap_Some. exists (p, target). split; [|done].
    apply list_find_Some. split_and!; [done..|].
    intros j y Hj Hlt ->. by eapply Hbefore.
Qed.

Lemma linear_scan_elem_of target code_list :
  target ∈ code_list → ∃ p, linear_scan target code_list = Some p.
Proof.
  intros Hin. unfold linear_scan.
  destruct (list_find_elem_of (λ code, code = target) code_list target Hin eq_refl)
    as [[p x] Hfind].
  exists p. by rewrite Hfind.
Qed.

Section scan_ok.
Context (ov : overflow_policy) (codes sorted : list string).
Let n := length codes.

(** One target: the scan walks from [count] to the target's position [p],
    records [p] and restarts at the next target. *)
Lemma scan_pure_find cs t p :
  cs < n → sorted !! cs = Some t → codes !! p = Some t → p < 256 →
  ∀ d count fuel carr,
    count + d = p → cs < length carr →
    (∀ j, count ≤ j < p → codes !! j ≠ Some t) →
    scan_pure ov (S d + fuel) codes sorted n count cs carr =
      scan_pure ov fuel codes sorted n 0 (cs + 1) (<[cs := Z.of_nat p]> carr).
Proof.
  intros Hcs Ht Hp H256. induction d as [|d IH]; intros count fuel carr Hd Hlen Hskip.
  - replace count with p by lia. simpl. case_decide; [|lia].
    rewrite Hp, Ht. case_decide; [|done].
    unfold setitem_pure. case_decide; [|lia]. simpl.
    rewrite Z.mod_small by lia. case_decide; [reflexivity|congruence].
  - change (S (S d) + fuel) with (S (S d + fuel)).
    remember (S d + fuel) as fuel' eqn:Efuel. simpl. subst fuel'.
    case_decide; [|lia].
    destruct (codes !! count) as [code|] eqn:Ecode.
    2:{ apply lookup_ge_None in Ecode. apply lookup_lt_Some in Hp. lia. }
    rewrite Ht. case_decide as Heq.
    + subst code. exfalso. apply (Hskip count); [lia|done].
    + apply IH; [lia|done|].
      intros j Hj. apply Hskip. lia.
Qed.

Hypothesis Hperm : codes ≡ₚ sorted.
Hypothesis Hn : n ≤ 256.

Lemma scan_pure_ok :
  ∀ k cs fuel carr,
    cs + k = n → length carr = n → k * n + 1 ≤ fuel →
    ∃ carr',
      scan_pure ov fuel codes sorted n 0 cs carr = (carr', Ok tt) ∧
      length carr' = n ∧
      (∀ i, i < cs → carr' !! i = carr !! i) ∧
      (∀ i t, cs ≤ i → sorted !! i = Some t →
         ∃ p, linear_scan t codes = Some p ∧ carr' !! i = Some (Z.of_nat p)).
Proof.
  assert (Hlen : length sorted = n) by (by rewrite <- Hperm).
  induction k as [|k IH]; intros cs fuel carr Hk Hcarr Hfuel.
  - exists carr. destruct fuel as [|fuel]; [lia|]. simpl.
    case_decide; [lia|]. split_and!; [done..|].
    intros i t Hi Hit. apply lookup_lt_Some in Hit. lia.
  - destruct (lookup_lt_is_Some_2 sorted cs) as [t Ht]; [lia|].
    assert (t ∈ codes) as [p Hp]%linear_scan_elem_of.
    { rewrite Hperm. by eapply list_elem_of_lookup_2. }
    pose proof Hp as [Hpt Hfirst]%linear_scan_Some.
    pose proof (lookup_lt_Some _ _ _ Hpt) as Hplt. fold n in Hplt.
    replace fuel with (S p + (fuel - S p)) by nia.
    rewrite (scan_pure_find cs t p) with (d := p);
      [|lia|done|done|lia|lia|lia|intros j Hj; apply Hfirst; lia].
    destruct (IH (cs + 1) (fuel - S p) (<[cs := Z.of_nat p]> carr))
      as (carr' & Hrun & Hlen' & Hold & Hnew); [lia|by rewrite length_insert|nia|].
    exists carr'. split_and!; [done|done|..].
    + intros i Hi. rewrite Hold by lia. by rewrite list_lookup_insert_ne by lia.
    + intros i t' Hi Hit'. destruct (decide (i = cs)) as [->|Hne].
      * assert (t' = t) as -> by congruence. exists p. split; [done|].
        rewrite Hold by lia. apply list_lookup_insert_eq. lia.
      * apply Hnew; [lia|done].
Qed.
End scan_ok.

(** ** The copy on an index array whose entries are in range *)

Lemma copy_pure_ok src carr :
  ∀ todo sb dst,
    sb + todo ≤ length dst →
    (∀ i, sb ≤ i < sb + todo → ∃ j p, carr !! i = Some j ∧ src !! Z.to_nat j = Some p) →
    ∃ dst',
      copy_pure todo src carr sb dst = (dst', Ok tt) ∧
      length dst' = length dst ∧
      (∀ i, i < sb → dst' !! i = dst !! i) ∧
      (∀ i j p, sb ≤ i < sb + todo → carr !! i = Some j → src !! Z.to_nat j = Some p →
         dst' !! i = Some (cast_plane uint16 p)).
Proof.
  induction todo as [|todo IH]; intros sb dst Hlen Hidx.
  - exists dst. simpl. split_and!; [done..|]. intros; lia.
  - destruct (Hidx sb) as (j & p & Hj & Hp); [lia|].
    simpl. rewrite Hj, Hp. case_decide; [|lia].
    destruct (IH (sb + 1) (<[sb := cast_plane uint16 p]> dst))
      as (dst' & Hrun & Hlen' & Hold & Hnew).
    { rewrite length_insert. lia. }
    { intros i Hi. apply Hidx. lia. }
    exists dst'. rewrite length_insert in Hlen'. split_and!; [done|done|..].
    + intros i Hi. rewrite Hold by lia. by rewrite list_lookup_insert_ne by lia.
    + intros i j' p' Hi Hj' Hp'. destruct (decide (i = sb)) as [->|Hne].
      * assert (j' = j) as -> by congruence. assert (p' = p) as -> by congruence.
        rewrite Hold by lia. apply list_lookup_insert_eq. lia.
      * eapply Hnew; [lia|done..].
Qed.

(** Elements that fit the element type are not changed by the conversion. *)
Lemma cast_id dt v : in_range dt v → cast dt v = v.
Proof.
  destruct dt; simpl; intros Hv.
  - by apply Z.mod_small.
  - by apply Z.mod_small.
  - rewrite Z.mod_small by lia. lia.
Qed.

Lemma cast_plane_id dt r c p : plane_wf dt r c p → cast_plane dt p = p.
Proof.
  intros [_ Hp]. unfold cast_plane.
  rewrite <- (map_id p) at 2. apply map_ext_Forall.
  eapply Forall_impl; [exact Hp|]. intros line [_ Hline]. simpl.
  rewrite <- (map_id line) at 2. apply map_ext_Forall.
  eapply Forall_impl; [exact Hline|]. intros v Hv. by apply cast_id.
Qed.

(** What a call gives when the code list holds every canonical code. *)
Lemma stack_sort_sorted ov (h : heap) lst lc ls a codes sorted :
  h !! lst = Some (Nd3 a) →
  h !! lc = Some (PyList codes) →
  h !! ls = Some (PyList sorted) →
  length (bands a) = length codes →
  codes ≡ₚ sorted →
  length codes ≤ 256 →
  ∃ dst carr,
    stack_sort ov lst lc ls h =
      (h ++ [Nd3 (NdArray uint16 (row a) (column a) dst); Nd1 uint8 carr],
       Ok (length h)) ∧
    length dst = length codes ∧
    ∀ i t, sorted !! i = Some t →
      ∃ p, linear_scan t codes = Some p ∧
           dst !! i = cast_plane uint16 <$> bands a !! p.
Proof.
  intros Hst Hc Hs Hbands Hperm Hn.
  rewrite (stack_sort_run ov h lst lc ls a codes sorted) by done.
  unfold sort_outcome.
  destruct (scan_pure_ok ov codes sorted Hperm Hn (length codes) 0
              (scan_fuel (length codes)) (replicate (length codes) 0%Z))
    as (carr & Hscan & Hcarr & _ & Hpos);
    [lia|by rewrite length_replicate|unfold scan_fuel; lia|].
  rewrite Hscan.
  assert (Hlen : length sorted = length codes) by (by rewrite <- Hperm).
  destruct (copy_pure_ok (bands a) carr (length codes) 0
              (zeros3 (length (bands a)) (row a) (column a)))
    as (dst & Hcopy & Hdst & _ & Hnew).
  { unfold zeros3. rewrite length_replicate. lia. }
  { intros i Hi. destruct (lookup_lt_is_Some_2 sorted i) as [t Ht]; [lia|].
    destruct (Hpos i t) as (p & Hp & Hcp); [lia|done|].
    apply linear_scan_Some in Hp as [Hp _].
    destruct (lookup_lt_is_Some_2 (bands a) p) as [pl Hpl].
    { apply lookup_lt_Some in Hp. lia. }
    exists (Z.of_nat p), pl. by rewrite Nat2Z.id. }
  rewrite Hcopy. simpl. exists dst, carr. split_and!; [done|..].
  { rewrite Hdst. unfold zeros3. by rewrite length_replicate. }
  intros i t Ht. destruct (Hpos i t) as (p & Hp & Hcp); [lia|done|].
  exists p. split; [done|].
  pose proof Hp as [Hp' _]%linear_scan_Some.
  destruct (lookup_lt_is_Some_2 (bands a) p) as [pl Hpl].
  { apply lookup_lt_Some in Hp'. lia. }
  rewrite Hpl. simpl. apply (Hnew i (Z.of_nat p) pl); [|done|by rewrite Nat2Z.id].
  apply lookup_lt_Some in Ht. lia.
Qed.

(** ** Theorems about [stack_sort] *)

Lemma copy_pure_length src carr :
  ∀ todo sb dst, length (copy_pure todo src carr sb dst).1 = length dst.
Proof.
  induction todo as [|todo IH]; intros sb dst; simpl; [done|].
  destruct (carr !! sb); [|done]. destruct (src !! Z.to_nat z); [|done].
  case_decide; [|done]. rewrite IH. apply length_insert.
Qed.

Lemma sort_outcome_shape ov a codes sorted :
  ∃ dst carr,
    (sort_outcome ov a codes sorted).1 =
      [Nd3 (NdArray uint16 (row a) (column a) dst); Nd1 uint8 carr] ∧
    length dst = length (bands a).
Proof.
  unfold sort_outcome.
  destruct (scan_pure _ _ _ _ _ _ _ _) as [carr [[]|e|]].
  - pose proof (copy_pure_length (bands a) carr (length codes) 0
                  (zeros3 (length (bands a)) (row a) (column a))) as Hlen.
    destruct (copy_pure _ _ _ _ _) as [dst r]. simpl in *.
    exists dst, carr. split; [done|].
    rewrite Hlen. unfold zeros3. by rewrite length_replicate.
  - eexists _, carr. split; [done|]. unfold zeros3. by rewrite length_replicate.
  - eexists _, carr. split; [done|]. unfold zeros3. by rewrite length_replicate.
Qed.

(** A call that returns has a 3-D array and a list as its first two
    arguments, and a list as its third unless the code list is empty (the
    scan then reads nothing). *)
Lemma stack_sort_typed ov (h : heap) lst lc ls h' l :
  stack_sort ov lst lc ls h = (h', Ok l) →
  ∃ a codes,
    h !! lst = Some (Nd3 a) ∧ h !! lc = Some (PyList codes) ∧
    (codes = [] ∨ ∃ sorted, h !! ls = Some (PyList sorted)).
Proof.
  unfold stack_sort. unfold bind at 1. unfold shape3, bind at 1, deref.
  destruct (h !! lst) as [[xs|dt xs|a]|] eqn:Hst; try discriminate.
  simpl. unfold bind at 1. unfold np_zeros3, alloc.
  unfold bind at 1. unfold list_len, bind at 1, deref.
  set (so := Nd3 (NdArray uint16 (row a) (column a) _)).
  destruct ((h ++ [so]) !! lc) as [[codes|dt xs|a']|] eqn:Hc; try discriminate.
  apply lookup_app_Some in Hc as [Hc|[_ Hc]].
  2:{ destruct (lc - length h) as [|[|k]]; simpl in Hc; discriminate. }
  simpl. unfold bind at 1. unfold np_zeros1, alloc.
  set (ca := Nd1 uint8 _). intros Hrun. exists a, codes. split_and!; [done..|].
  destruct codes as [|c codes]; [by left|right].
  revert Hrun. unfold bind at 1. unfold scan_fuel. simpl.
  unfold bind at 1. unfold list_getitem at 1, bind at 1, deref.
  pose proof (lookup_lt_Some _ _ _ Hc) as Hlc.
  rewrite !lookup_app_l, Hc by (rewrite ?length_app; simpl; lia). simpl.
  unfold bind at 1. unfold list_getitem at 1, bind at 1, deref.
  destruct (((h ++ [so]) ++ [ca]) !! ls) as [[sorted|dt xs|a']|] eqn:Hs;
    try discriminate.
  intros _. exists sorted.
  apply lookup_app_Some in Hs as [Hs|[_ Hs]].
  2:{ destruct (ls - length (h ++ [so])) as [|[|k]]; simpl in Hs; discriminate. }
  apply lookup_app_Some in Hs as [Hs|[_ Hs]]; [done|].
  destruct (ls - length h) as [|[|k]]; simpl in Hs; discriminate.
Qed.

(** With an empty code list the loops do nothing. *)
Lemma stack_sort_empty ov (h : heap) lst lc ls a :
  h !! lst = Some (Nd3 a) → h !! lc = Some (PyList []) →
  stack_sort ov lst lc ls h =
    (h ++ [Nd3 (NdArray uint16 (row a) (column a)
                  (zeros3 (length (bands a)) (row a) (column a)));
           Nd1 uint8 []],
     Ok (length h)).
Proof.
  intros Hst Hc. pose proof (lookup_lt_Some _ _ _ Hc).
  unfold stack_sort. unfold bind at 1. unfold shape3, bind at 1, deref.
  rewrite Hst. simpl. unfold bind at 1. unfold np_zeros3, alloc.
  unfold bind at 1. unfold list_len, bind at 1, deref.
  rewrite lookup_app_l, Hc by done. simpl.
  unfold bind, np_zeros1, alloc, scan_fuel, ret. simpl.
  by rewrite <- (assoc_L (++)).
Qed.

Lemma scan_fuel_enough len : (len - 0) * S len + (len - 0) < scan_fuel len.
Proof. unfold scan_fuel. lia. Qed.

Local Opaque scan_fuel.

(** The scan loop always ends: for every store and every argument,
    [stack_sort] returns or raises. *)
Lemma stack_sort_total ov (h : heap) lst lc ls :
  (stack_sort ov lst lc ls h).2 ≠ OutOfFuel.
Proof.
  destruct (stack_sort ov lst lc ls h) as [h' [l|e|]] eqn:Hrun; simpl; try done.
  exfalso. revert Hrun.
  unfold stack_sort. unfold bind at 1. unfold shape3, bind at 1, deref.
  destruct (h !! lst) as [[xs|dt xs|a]|] eqn:Hst; try discriminate.
  simpl. unfold bind at 1. unfold np_zeros3, alloc.
  unfold bind at 1. unfold list_len, bind at 1, deref.
  set (so := Nd3 (NdArray uint16 (row a) (column a) _)).
  destruct ((h ++ [so]) !! lc) as [[codes|dt xs|a']|] eqn:Hc; try discriminate.
  simpl. unfold bind at 1. unfold np_zeros1, alloc.
  set (ca := Nd1 uint8 _). set (h2 := (h ++ [so]) ++ [ca]).
  assert (Hh2 : length h2 = S (S (length h))).
  { unfold h2. rewrite !length_app. simpl. lia. }
  assert (Hca : h2 !! S (length h) = Some ca).
  { unfold h2. rewrite lookup_app_r; rewrite length_app; simpl; [|lia].
    by replace (S (length h) - (length h + 1)) with 0 by lia. }
  assert (Hlen1 : length (h ++ [so]) = S (length h)) by (rewrite length_app; simpl; lia).
  rewrite Hlen1.
  assert (Hscan : ∀ fuel count cs carr (g : heap),
            g !! S (length h) = Some (Nd1 uint8 carr) →
            g !! lc = Some (PyList codes) →
            count ≤ length codes → cs ≤ length codes →
            (length codes - cs) * S (length codes) + (length codes - count) < fuel →
            (scan_loop ov fuel lc ls (S (length h)) (length codes) count cs g).2
              ≠ OutOfFuel).
  { assert (Hlc : lc ≠ S (length h)).
    { intros ->. apply lookup_lt_Some in Hc. lia. }
    induction fuel as [|fuel IH]; intros count cs carr g Hgca Hgc Hcount Hcs Hfuel;
      [by apply Nat.nlt_0_r in Hfuel|].
    simpl. case_decide; [|done].
    unfold bind at 1. rewrite (list_getitem_run g lc codes count Hgc).
    destruct (codes !! count) as [code|] eqn:Ecode; [|done].
    apply lookup_lt_Some in Ecode.
    unfold bind at 1. unfold list_getitem, bind at 1, deref.
    destruct (g !! ls) as [[sorted|dt xs|a']|] eqn:Hs; try done.
    simpl. destruct (sorted !! cs) as [target|]; [|done]. simpl.
    case_decide.
    - unfold bind at 1. rewrite (arr1_setitem_run ov g (S (length h)) uint8 carr cs _ Hgca).
      destruct (setitem_pure ov uint8 carr cs (Z.of_nat count)) as [carr' [[]|e|]] eqn:E;
        simpl; try done.
      + apply (IH 0 (cs + 1) carr').
        * apply list_lookup_insert_eq. by eapply lookup_lt_Some.
        * by rewrite list_lookup_insert_ne.
        * lia.
        * lia.
        * by eapply scan_measure_next.
      + unfold setitem_pure in E. repeat case_decide; destruct ov; simplify_eq.
    - apply (IH (count + 1) cs carr); [done|done|lia|lia|lia]. }
  apply lookup_app_Some in Hc as [Hc|[_ Hc]].
  2:{ destruct (lc - length h) as [|[|k]]; simpl in Hc; discriminate. }
  specialize (Hscan (scan_fuel (length codes)) 0 0 _ h2 Hca).
  unfold bind at 1.
  destruct (scan_loop ov _ lc ls _ _ 0 0 h2) as [h3 [[]|e|]]; try discriminate.
  - clear Hscan. unfold bind at 1.
    assert (Hcopy : ∀ todo sb (g : heap),
              (copy_loop todo lst (length h) (S (length h)) sb g).2 ≠ OutOfFuel).
    { induction todo as [|todo IH]; intros sb g; simpl; [done|].
      unfold bind at 1. unfold arr1_getitem, bind at 1, deref.
      destruct (g !! S (length h)) as [[?|? xs|?]|]; try done. simpl.
      destruct (xs !! sb) as [j|]; try done. simpl.
      unfold bind at 1. unfold band_getitem, bind at 1, deref.
      destruct (g !! lst) as [[?|? ?|a1]|]; try done. simpl.
      destruct (bands a1 !! Z.to_nat j) as [p|]; try done. simpl.
      unfold bind at 1. unfold band_setitem, bind at 1, deref.
      destruct (g !! length h) as [[?|? ?|a2]|]; try done. simpl.
      case_decide; try done. unfold store. apply IH. }
    specialize (Hcopy (length codes) 0 h3).
    destruct (copy_loop _ lst _ _ 0 h3) as [h4 [[]|e|]]; try discriminate. done.
  - intros _. apply Hscan; [|lia|lia|apply scan_fuel_enough|done].
    unfold h2. pose proof (lookup_lt_Some _ _ _ Hc).
    rewrite lookup_app_l by (rewrite length_app; simpl; lia).
    by rewrite lookup_app_l by lia.
Qed.

Local Transparent scan_fuel.

(** Slots filled by the linear scan hold a rearrangement of the tagged
    samples. *)
Lemma linear_scan_rearranges (codes sorted : list string) (a out : list plane) :
  NoDup sorted → codes ≡ₚ sorted →
  length a = length codes →
  (∀ i t, sorted !! i = Some t →
     ∃ j, linear_scan t codes = Some j ∧ out !! i = a !! j) →
  length out = length sorted →
  zip sorted out ≡ₚ zip codes a.
Proof.
  intros Hnodup Hperm Ha Hslots Hout.
  set (f := λ t : string,
         (t, default [] (linear_scan t codes ≫= λ j, a !! j))).
  assert (Hsorted : zip sorted out = f <$> sorted).
  { apply list_eq. intros i. rewrite lookup_zip_with, list_lookup_fmap.
    destruct (sorted !! i) as [t|] eqn:Ht; [|done]. simpl.
    destruct (Hslots i t Ht) as (j & Hj & Hi). rewrite Hi. unfold f. rewrite Hj. simpl.
    apply linear_scan_Some in Hj as [Hj _].
    destruct (lookup_lt_is_Some_2 a j) as [p Hp].
    { apply lookup_lt_Some in Hj. lia. }
    rewrite Hp. reflexivity. }
  assert (Hcodes : zip codes a = f <$> codes).
  { apply list_eq. intros j. rewrite lookup_zip_with, list_lookup_fmap.
    destruct (codes !! j) as [t|] eqn:Ht; [|done]. simpl.
    destruct (lookup_lt_is_Some_2 a j) as [p Hp].
    { apply lookup_lt_Some in Ht. lia. }
    rewrite Hp. simpl. unfold f.
    assert (linear_scan t codes = Some j) as ->.
    { apply linear_scan_Some. split; [done|]. intros j' Hlt Hj'.
      assert (j' = j); [|lia].
      eapply NoDup_lookup; [|exact Hj'|exact Ht]. by rewrite Hperm. }
    simpl. rewrite Hp. reflexivity. }
  rewrite Hsorted, Hcodes. by apply fmap_Permutation.
Qed.

(** C1 (as amended: at most 256 bands).  For a stack of uint16 samples
    whose code list is a permutation of the canonical list, all codes
    distinct, [stack_sort] returns a new stack in canonical order: slot [i]
    holds the input sample at the position [j] that a linear scan of the
    code list from its beginning finds for the [i]-th canonical code, [j]
    is the only position with that code, and the samples under the
    canonical codes are the input's samples under their codes,
    rearranged. *)
Theorem stack_sort_canonical_order ov (h : heap) lst lc ls a codes sorted :
  h !! lst = Some (Nd3 a) →
  h !! lc = Some (PyList codes) →
  h !! ls = Some (PyList sorted) →
  nd_dtype a = uint16 → ndarray_wf a →
  length (bands a) = length codes →
  codes ≡ₚ sorted → NoDup sorted →
  length codes ≤ 256 →
  ∃ h' l out,
    stack_sort ov lst lc ls h = (h', Ok l) ∧
    h' !! l = Some (Nd3 out) ∧
    in_canonical_order a codes sorted out ∧
    (∀ i t j, sorted !! i = Some t → codes !! j = Some t →
       linear_scan t codes = Some j ∧ bands out !! i = bands a !! j) ∧
    zip sorted (bands out) ≡ₚ zip codes (bands a).
Proof.
  intros Hst Hc Hs Hdt Hwf Hbands Hperm Hnodup Hn.
  destruct (stack_sort_sorted ov h lst lc ls a codes sorted)
    as (dst & carr & Hrun & Hlen & Hslots); [done..|].
  assert (Hslot : ∀ i t, sorted !! i = Some t →
            ∃ j, linear_scan t codes = Some j ∧ dst !! i = bands a !! j).
  { intros i t Ht. destruct (Hslots i t Ht) as (p & Hp & Hi).
    exists p. split; [done|]. rewrite Hi.
    destruct (bands a !! p) as [pl|] eqn:Hpl; [|done]. simpl. f_equal.
    rewrite <- Hdt. eapply cast_plane_id.
    eapply Forall_lookup_1; [exact Hwf|exact Hpl]. }
  eexists _, _, _. split; [exact Hrun|]. split.
  { rewrite lookup_app_r by lia. by rewrite Nat.sub_diag. }
  split_and!.
  - split; [|exact Hslot]. unfold shape. simpl. by rewrite Hlen, Hbands.
  - intros i t j Ht Hj. destruct (Hslot i t Ht) as (p & Hp & Hi).
    assert (j = p) as ->; [|done].
    apply linear_scan_Some in Hp as [Hp _].
    eapply NoDup_lookup; [|exact Hj|exact Hp]. by rewrite Hperm.
  - simpl. apply linear_scan_rearranges; [done..|]. by rewrite Hlen, Hperm.
Qed.

(** C4 (as amended: at most 256 bands).  Sorting a uint16 stack whose code
    list already is the canonical list, all codes distinct, returns an
    array equal to the input. *)
Theorem stack_sort_sorted_is_noop ov (h : heap) lst lc ls a sorted :
  h !! lst = Some (Nd3 a) →
  h !! lc = Some (PyList sorted) →
  h !! ls = Some (PyList sorted) →
  nd_dtype a = uint16 → ndarray_wf a →
  length (bands a) = length sorted →
  NoDup sorted →
  length sorted ≤ 256 →
  ∃ h' l, stack_sort ov lst lc ls h = (h', Ok l) ∧ h' !! l = Some (Nd3 a).
Proof.
  intros Hst Hc Hs Hdt Hwf Hbands Hnodup Hn.
  destruct (stack_sort_sorted ov h lst lc ls a sorted sorted)
    as (dst & carr & Hrun & Hlen & Hslots); [done..|].
  eexists _, _. split; [exact Hrun|].
  rewrite lookup_app_r by lia. rewrite Nat.sub_diag. simpl. do 2 f_equal.
  assert (dst = bands a) as ->.
  { apply list_eq. intros i. destruct (sorted !! i) as [t|] eqn:Ht.
    - destruct (Hslots i t Ht) as (p & Hp & Hi).
      apply linear_scan_Some in Hp as [Hp _].
      assert (p = i) as -> by (eapply NoDup_lookup; eauto).
      rewrite Hi. destruct (bands a !! i) as [pl|] eqn:Hpl; [|done]. simpl. f_equal.
      rewrite <- Hdt. eapply cast_plane_id.
      eapply Forall_lookup_1; [exact Hwf|exact Hpl].
    - apply lookup_ge_None in Ht.
      rewrite !lookup_ge_None_2; [done|lia|lia]. }
  destruct a as [dt r c bs]. simpl in *. by subst dt.
Qed.

(** C10.  A call that returns leaves every object of the store as it was,
    the three arguments among them, and returns a location that was not in
    the store before the call: a new array of the input's shape and of
    element type uint16. *)
Theorem stack_sort_frame ov (h : heap) lst lc ls h' l :
  stack_sort ov lst lc ls h = (h', Ok l) →
  (∀ l' o, h !! l' = Some o → h' !! l' = Some o) ∧
  h' !! lst = h !! lst ∧ h' !! lc = h !! lc ∧
  (is_Some (h !! ls) → h' !! ls = h !! ls) ∧
  h !! l = None ∧ l ≠ lst ∧
  ∃ a out,
    h !! lst = Some (Nd3 a) ∧ h' !! l = Some (Nd3 out) ∧
    shape out = shape a ∧ nd_dtype out = uint16.
Proof.
  intros Hrun.
  destruct (stack_sort_typed ov h lst lc ls h' l Hrun) as (a & codes & Hst & Hc & Hs).
  assert (∃ dst carr,
            h' = h ++ [Nd3 (NdArray uint16 (row a) (column a) dst); Nd1 uint8 carr] ∧
            l = length h ∧ length dst = length (bands a)) as (dst & carr & -> & -> & Hlen).
  { destruct Hs as [->|[sorted Hs]].
    - rewrite (stack_sort_empty ov h lst lc ls a) in Hrun by done.
      injection Hrun as <- <-. eexists _, _. split_and!; [done..|].
      unfold zeros3. by rewrite length_replicate.
    - rewrite (stack_sort_run ov h lst lc ls a codes sorted) in Hrun by done.
      destruct (sort_outcome_shape ov a codes sorted) as (dst & carr & Hout & Hlen).
      rewrite Hout in Hrun.
      destruct ((sort_outcome ov a codes sorted).2) as [[]|e|]; try discriminate.
      injection Hrun as <- <-. by exists dst, carr. }
  assert (Hkeep : ∀ l' o, h !! l' = Some o →
            (h ++ [Nd3 (NdArray uint16 (row a) (column a) dst); Nd1 uint8 carr]) !! l'
              = Some o).
  { intros l' o Hl'. rewrite lookup_app_l; [done|]. by eapply lookup_lt_Some. }
  split_and!.
  - exact Hkeep.
  - rewrite Hst. by apply Hkeep.
  - rewrite Hc. by apply Hkeep.
  - intros [o Ho]. rewrite Ho. by apply Hkeep.
  - by apply lookup_ge_None_2.
  - intros Heq. apply lookup_lt_Some in Hst. lia.
  - exists a, (NdArray uint16 (row a) (column a) dst). split_and!; [done|..|done].
    + rewrite lookup_app_r by lia. by rewrite Nat.sub_diag.
    + unfold shape. simpl. by rewrite Hlen.
Qed.

(** ** [stack_sort] on concrete stacks *)

Lemma stack257_wf : ndarray_wf stack257.
Proof.
  unfold ndarray_wf.
  change (Forall (plane_wf uint16 1 1) (map (λ i, pixel (Z.of_nat i)) (seq 0 257))).
  apply List.Forall_map, Forall_forall. intros i Hi%elem_of_seq.
  split; [done|]. repeat constructor; simpl; lia.
Qed.

Lemma codes257_NoDup : NoDup codes257.
Proof. apply (bool_decide_unpack _). by vm_compute. Qed.

(** C1, witness: the 10m example. *)
Lemma stack_sort_canonical_order_witness :
  ∃ h' l out,
    stack_sort Wraps 0 1 2 heap_10m_example = (h', Ok l) ∧
    h' !! l = Some (Nd3 out) ∧
    in_canonical_order stack_10m_example code_10m_example sorted_list_10m_example out ∧
    (∀ i t j, sorted_list_10m_example !! i = Some t → code_10m_example !! j = Some t →
       linear_scan t code_10m_example = Some j ∧
       bands out !! i = bands stack_10m_example !! j) ∧
    zip sorted_list_10m_example (bands out)
      ≡ₚ zip code_10m_example (bands stack_10m_example).
Proof.
  apply (stack_sort_canonical_order Wraps heap_10m_example 0 1 2
           stack_10m_example code_10m_example sorted_list_10m_example).
  - reflexivity.
  - reflexivity.
  - reflexivity.
  - reflexivity.
  - repeat constructor; simpl; lia.
  - reflexivity.
  - apply (bool_decide_unpack _). vm_compute. exact I.
  - apply (bool_decide_unpack _). vm_compute. exact I.
  - simpl. lia.
Defined.

(** C1, counterexample: 257 bands whose code list is the canonical list
    reversed.  The first canonical code sits at position 256, which the
    uint8 index array cannot hold: with wrap-around slot 0 receives band 0
    instead, and with numpy 2 the call raises [OverflowError]. *)
Lemma stack_sort_canonical_order_fails_at_257_bands :
  (reverse codes257 ≡ₚ codes257 ∧ NoDup codes257 ∧
   nd_dtype stack257 = uint16 ∧ ndarray_wf stack257 ∧
   length (bands stack257) = length (reverse codes257)) ∧
  (¬ ∃ h' l out,
      stack_sort Wraps 0 1 2 heap257_reversed = (h', Ok l) ∧
      h' !! l = Some (Nd3 out) ∧
      in_canonical_order stack257 (reverse codes257) codes257 out) ∧
  (¬ ∃ h' l out,
      stack_sort Raises 0 1 2 heap257_reversed = (h', Ok l) ∧
      h' !! l = Some (Nd3 out) ∧
      in_canonical_order stack257 (reverse codes257) codes257 out).
Proof.
  split; [|split].
  - split_and!.
    + apply reverse_Permutation.
    + apply codes257_NoDup.
    + reflexivity.
    + apply stack257_wf.
    + by vm_compute.
  - intros (h' & l & out & Hrun & Hl & _ & Hslots).
    assert (Hband : returned_band (stack_sort Wraps 0 1 2 heap257_reversed) 0
                    = Some (pixel 0)) by (by vm_compute).
    rewrite Hrun in Hband. simpl in Hband. rewrite Hl in Hband.
    destruct (Hslots 0 "AA" eq_refl) as (j & Hj & Hout).
    assert (Hscan : linear_scan "AA" (reverse codes257) = Some 256) by (by vm_compute).
    rewrite Hscan in Hj. injection Hj as <-.
    rewrite Hband in Hout. vm_compute in Hout. discriminate.
  - intros (h' & l & out & Hrun & _).
    assert (Hraise : (stack_sort Raises 0 1 2 heap257_reversed).2 = Raise OverflowError)
      by (by vm_compute).
    rewrite Hrun in Hraise. discriminate.
Qed.

(** C4, witness: the 60m example. *)
Lemma stack_sort_sorted_is_noop_witness :
  ∃ h' l,
    stack_sort Wraps 0 1 2 heap_60m_example = (h', Ok l) ∧
    h' !! l = Some (Nd3 stack_60m_example).
Proof.
  apply (stack_sort_sorted_is_noop Wraps heap_60m_example 0 1 2
           stack_60m_example ["01"; "09"]).
  - reflexivity.
  - reflexivity.
  - reflexivity.
  - reflexivity.
  - repeat constructor; simpl; lia.
  - reflexivity.
  - apply (bool_decide_unpack _). vm_compute. exact I.
  - simpl. lia.
Defined.

(** C4, counterexample: 257 bands already in canonical order.  Position
    256 does not fit the uint8 index array: with wrap-around the last slot
    of the result holds band 0, and with numpy 2 the call raises
    [OverflowError]. *)
Lemma stack_sort_sorted_is_noop_fails_at_257_bands :
  (NoDup codes257 ∧ nd_dtype stack257 = uint16 ∧ ndarray_wf stack257 ∧
   length (bands stack257) = length codes257) ∧
  (¬ ∃ h' l,
      stack_sort Wraps 0 1 2 heap257 = (h', Ok l) ∧ h' !! l = Some (Nd3 stack257)) ∧
  (¬ ∃ h' l,
      stack_sort Raises 0 1 2 heap257 = (h', Ok l) ∧ h' !! l = Some (Nd3 stack257)).
Proof.
  split; [|split].
  - split_and!; [apply codes257_NoDup|reflexivity|apply stack257_wf|by vm_compute].
  - intros (h' & l & Hrun & Hl).
    assert (Hband : returned_band (stack_sort Wraps 0 1 2 heap257) 256
                    = Some (pixel 0)) by (by vm_compute).
    rewrite Hrun in Hband. simpl in Hband. rewrite Hl in Hband.
    vm_compute in Hband. discriminate.
  - intros (h' & l & Hrun & _).
    assert (Hraise : (stack_sort Raises 0 1 2 heap257).2 = Raise OverflowError)
      by (by vm_compute).
    rewrite Hrun in Hraise. discriminate.
Qed.

(** C10, witness: the 10m example. *)
Lemma stack_sort_frame_witness :
  ∃ h',
    stack_sort Wraps 0 1 2 heap_10m_example = (h', Ok 3) ∧
    h' !! 0 = heap_10m_example !! 0 ∧ h' !! 1 = heap_10m_example !! 1 ∧
    heap_10m_example !! 3 = None.
Proof.
  eexists. split; [reflexivity|].
  destruct (stack_sort_frame Wraps heap_10m_example 0 1 2 _ 3 eq_refl)
    as (_ & H0 & H1 & _ & H3 & _).
  exact (conj H0 (conj H1 H3)).
Defined.

(** * The merge step *)

Lemma np_concatenate_Ok arrays out :
  np_concatenate arrays = Ok out →
  bands out = concat (map bands arrays) ∧
  ∃ a rest, arrays = a :: rest ∧ row out = row a ∧ column out = column a.
Proof.
  destruct arrays as [|a rest]; simpl; [done|].
  destruct (forallb _ rest); [|done].
  intros [= <-]. simpl. split; [done|]. by exists a, rest.
Qed.

Lemma merge_stack_bands d10 d20 d60 out :
  merge_stack d10 d20 d60 = Ok out →
  bands out =
    take 1 (bands d60) ++
    take 1 (bands d10) ++ take 1 (drop 1 (bands d10)) ++ take 1 (drop 2 (bands d10)) ++
    take 1 (bands d20) ++ take 1 (drop 1 (bands d20)) ++ take 1 (drop 2 (bands d20)) ++
    take 1 (drop 3 (bands d10)) ++
    take 1 (drop 5 (bands d20)) ++
    take 1 (drop 1 (bands d60)) ++
    take 1 (drop 3 (bands d20)) ++ take 1 (drop 4 (bands d20)).
Proof.
  unfold merge_stack. intros [Hb _]%np_concatenate_Ok. rewrite Hb. simpl.
  by rewrite app_nil_r.
Qed.

Lemma merge_stack_same_shape d10 d20 d60 :
  row d10 = row d60 → column d10 = column d60 →
  row d20 = row d60 → column d20 = column d60 →
  ∃ out, merge_stack d10 d20 d60 = Ok out ∧
         row out = row d60 ∧ column out = column d60.
Proof.
  intros Hr1 Hc1 Hr2 Hc2. unfold merge_stack, np_concatenate.
  destruct (forallb _ _) eqn:Hall.
  - eexists. split; [done|]. done.
  - exfalso. apply not_true_iff_false in Hall. apply Hall.
    unfold same_plane_shape. simpl.
    rewrite !andb_true_iff. repeat split; apply bool_decide_eq_true; simpl; lia.
Qed.

(** C2 (as amended).  The merged array is the 60m stack's band 1, then the
    first three 10m bands, the first three 20m bands, the remaining 10m
    band, the sixth 20m band (8A), the remaining 60m band, and last the
    fourth and fifth 20m bands (11 and 12). *)
Theorem merge_stack_sequence dt10 dt20 dt60 r c
    t0 t1 t2 t3 w0 w1 w2 w3 w4 w5 s0 s1 :
  ∃ dt,
    merge_stack (NdArray dt10 r c [t0; t1; t2; t3])
                (NdArray dt20 r c [w0; w1; w2; w3; w4; w5])
                (NdArray dt60 r c [s0; s1])
    = Ok (NdArray dt r c [s0; t0; t1; t2; w0; w1; w2; t3; w5; s1; w3; w4]).
Proof.
  unfold merge_stack, np_concatenate. simpl.
  unfold same_plane_shape. simpl.
  rewrite !bool_decide_eq_true_2 by done. simpl. eauto.
Qed.

(** C2, counterexample: in the merged example the remaining 20m bands do
    not precede the remaining 60m band: band 9 of the 60m stack is in
    slot 10 of 12, and the last slot holds band 12 of the 20m stack. *)
Lemma merge_stack_not_in_spec_sequence :
  ∃ out,
    merge_stack merge_10m_example merge_20m_example merge_60m_example = Ok out ∧
    bands out ≠
      spec_merge_sequence merge_10m_example merge_20m_example merge_60m_example ∧
    last (bands out) ≠ bands merge_60m_example !! 1 ∧
    last (bands out) = bands merge_20m_example !! 4 ∧
    bands out !! 9 = bands merge_60m_example !! 1.
Proof.
  eexists. split; [reflexivity|]. by vm_compute.
Qed.

(** C3.  Whatever the three arrays hold, the merged array starts with the
    slice [data_60m[0:1]]: its first band is the first band of the 60m
    stack. *)
Theorem merge_band_1_from_60m d10 d20 d60 out :
  merge_stack d10 d20 d60 = Ok out →
  (∃ rest, bands out = bands (slice d60 0 1) ++ rest) ∧
  ∀ b bs, bands d60 = b :: bs → bands out !! 0 = Some b.
Proof.
  intros Hout%merge_stack_bands. split.
  - eexists. rewrite Hout. simpl. reflexivity.
  - intros b bs Hd60. rewrite Hout, Hd60. reflexivity.
Qed.

(** C3, witness *)
Lemma merge_band_1_from_60m_witness :
  ∃ out,
    merge_stack merge_10m_example merge_20m_example merge_60m_example = Ok out ∧
    bands out !! 0 = Some (pixel 1).
Proof.
  eexists. split; [reflexivity|].
  exact (proj2 (merge_band_1_from_60m merge_10m_example merge_20m_example
                  merge_60m_example _ eq_refl) (pixel 1) [pixel 9] eq_refl).
Defined.

(** C6.  When the three stacks hold 4, 6 and 2 bands, a merged stack has
    exactly 12 bands, the count of the profile it is written with; and
    the merge gives one when the stacks agree in rows and columns. *)
Theorem merge_stack_12_bands d10 d20 d60 kwargs :
  length (bands d10) = 4 → length (bands d20) = 6 → length (bands d60) = 2 →
  (∀ out, merge_stack d10 d20 d60 = Ok out →
     length (bands out) = 12 ∧ length (bands out) = count (update_kwargs kwargs 12)) ∧
  (row d10 = row d60 → column d10 = column d60 →
   row d20 = row d60 → column d20 = column d60 →
   ∃ out, merge_stack d10 d20 d60 = Ok out ∧ length (bands out) = 12).
Proof.
  intros H10 H20 H60.
  assert (Hlen : ∀ out, merge_stack d10 d20 d60 = Ok out → length (bands out) = 12).
  { intros out Hout%merge_stack_bands. rewrite Hout.
    destruct (bands d10) as [|? [|? [|? [|? [|]]]]]; try discriminate.
    destruct (bands d20) as [|? [|? [|? [|? [|? [|? [|]]]]]]]; try discriminate.
    destruct (bands d60) as [|? [|? [|]]]; try discriminate.
    reflexivity. }
  split.
  - intros out Hout. split; [by apply Hlen|]. simpl. by apply Hlen.
  - intros Hr1 Hc1 Hr2 Hc2.
    destruct (merge_stack_same_shape d10 d20 d60) as (out & Hout & _); [done..|].
    exists out. split; [done|]. by apply Hlen.
Qed.

(** C6, witness *)
Lemma merge_stack_12_bands_witness :
  ∃ out,
    merge_stack merge_10m_example merge_20m_example merge_60m_example = Ok out ∧
    length (bands out) = 12.
Proof.
  apply (merge_stack_12_bands merge_10m_example merge_20m_example merge_60m_example
           (Profile "GTiff" uint16 4 1 1 (Affine 0 0 0 0 0 0) None None));
    reflexivity.
Defined.

(** * The processors *)

(** ** Inversion of [bind] *)

Lemma bind_Ok {S A B} (m : M S A) (k : A → M S B) s s' b :
  bind m k s = (s', Ok b) →
  ∃ a s1, m s = (s1, Ok a) ∧ k a s1 = (s', Ok b).
Proof.
  unfold bind. destruct (m s) as [s1 [a|e|]]; [eauto|done|done].
Qed.

Lemma bind_Raise {S A B} (m : M S A) (k : A → M S B) s s' e :
  bind m k s = (s', Raise e) →
  m s = (s', Raise e) ∨ ∃ a s1, m s = (s1, Ok a) ∧ k a s1 = (s', Raise e).
Proof.
  unfold bind. destruct (m s) as [s1 [a|e'|]]; intros H; simplify_eq; eauto.
Qed.

Lemma bind_run_Ok {S A B} (m : M S A) (k : A → M S B) s s1 a :
  m s = (s1, Ok a) → bind m k s = k a s1.
Proof. unfold bind. by intros ->. Qed.

Lemma bind_run_Raise {S A B} (m : M S A) (k : A → M S B) s s1 e :
  m s = (s1, Raise e) → bind m k s = (s1, Raise e).
Proof. unfold bind. by intros ->. Qed.

(** ** Computations that never raise [SystemExit] *)

Lemma no_exit_ret {S A} (a : A) : no_exit (@ret S A a).
Proof. by intros s s' msg. Qed.

Lemma no_exit_raise {S A} e : not_exit e → no_exit (@raise S A e).
Proof. intros He s s' msg [= _ ?]. by eapply He. Qed.

Lemma no_exit_bind {S A B} (m : M S A) (k : A → M S B) :
  no_exit m → (∀ a, no_exit (k a)) → no_exit (bind m k).
Proof.
  intros Hm Hk s s' msg [Hexit|(a & s1 & _ & Hexit)]%bind_Raise.
  - by eapply Hm.
  - by eapply Hk.
Qed.

Lemma no_exit_lift {S A} (r : result A) :
  (∀ msg, r ≠ Raise (SystemExit msg)) → no_exit (@lift S A r).
Proof. intros Hr s s' msg [= _ ?]. by eapply Hr. Qed.

(** A computation that raises [SystemExit] after a step that never does
    has passed that step. *)
Lemma bind_exit {S A B} (m : M S A) (k : A → M S B) s s' msg :
  no_exit m →
  bind m k s = (s', Raise (SystemExit msg)) →
  ∃ a s1, m s = (s1, Ok a) ∧ k a s1 = (s', Raise (SystemExit msg)).
Proof.
  intros Hm [Hexit|Hk]%bind_Raise; [|done]. by apply Hm in Hexit.
Qed.

(** The errors of a path that leads nowhere *)
Lemma missing_error_cases fl root p :
  missing_error fl root p = FileNotFoundError ∨
  missing_error fl root p = NotADirectoryError.
Proof.
  revert root. induction p as [|name p IH]; intros root; simpl; [by left|].
  destruct root; auto. destruct (entry_lookup fl name entries); auto.
Qed.

Lemma no_directory_cases fl root p :
  no_directory fl root p = FileNotFoundError ∨
  no_directory fl root p = NotADirectoryError.
Proof.
  unfold no_directory. destruct (fs_lookup fl root p); [by right|].
  apply missing_error_cases.
Qed.

Ltac not_exit :=
  try discriminate;
  try (let Hme := fresh "Hme" in let He := fresh "He" in
       intros [= _ Hme];
       by match type of Hme with
          | missing_error ?fl ?r ?p = _ =>
              destruct (missing_error_cases fl r p) as [He|He]; rewrite He in Hme
          end).

Ltac no_exit_prim :=
  unfold no_exit, no_directory; intros ? ? ?;
  repeat case_match; not_exit.

Section no_exit.
Variable fl : flavour.

Lemma no_exit_fs_put p x : no_exit (fs_put fl p x).
Proof. unfold fs_put. no_exit_prim. Qed.

Lemma no_exit_path_exists p : no_exit (path_exists fl p).
Proof. unfold path_exists. no_exit_prim. Qed.

Lemma no_exit_mkdir p : no_exit (mkdir fl p).
Proof.
  unfold mkdir. intros s s' msg. repeat case_match; try discriminate.
  apply no_exit_fs_put.
Qed.

Lemma no_exit_rmtree p : no_exit (rmtree fl p).
Proof. unfold rmtree. no_exit_prim. Qed.

Lemma no_exit_iterdir p : no_exit (iterdir fl p).
Proof. unfold iterdir. no_exit_prim. Qed.

Lemma no_exit_rglob p pat : no_exit (rglob fl p pat).
Proof. unfold rglob. no_exit_prim. Qed.

Lemma no_exit_raster_open p : no_exit (raster_open fl p).
Proof. unfold raster_open. no_exit_prim. Qed.

Lemma no_exit_raster_create p prof : no_exit (raster_create fl p prof).
Proof.
  unfold raster_create. intros s s' msg. repeat case_match; try discriminate.
  all: apply no_exit_fs_put.
Qed.

Lemma no_exit_raster_write p prof a : no_exit (raster_write fl p prof a).
Proof.
  unfold raster_write. case_decide; [apply no_exit_fs_put|by apply no_exit_raise].
Qed.

Lemma no_exit_build_overviews p prof factors :
  no_exit (build_overviews fl p prof factors).
Proof.
  unfold build_overviews. case_decide; [by apply no_exit_raise|].
  intros s s' msg. repeat case_match; try discriminate; apply no_exit_fs_put.
Qed.

Lemma no_exit_xml_write p n : no_exit (xml_write fl p n).
Proof.
  unfold xml_write. intros s s' msg. repeat case_match; try discriminate.
  all: apply no_exit_fs_put.
Qed.
End no_exit.

(** ** The exceptions of the numpy steps *)

Lemma scan_pure_exn ov codes sorted len :
  ∀ fuel count cs carr e,
    (scan_pure ov fuel codes sorted len count cs carr).2 = Raise e →
    e = IndexError ∨ e = OverflowError.
Proof.
  induction fuel as [|fuel IH]; intros count cs carr e; simpl; [done|].
  case_decide; [|done].
  destruct (codes !! count); [|intros [= <-]; by left].
  destruct (sorted !! cs); [|intros [= <-]; by left].
  case_decide; [|apply IH].
  destruct (setitem_pure ov uint8 carr cs (Z.of_nat count)) as [carr' [[]|e'|]] eqn:E;
    simpl; [apply IH| |done].
  intros [= <-]. unfold setitem_pure in E.
  repeat case_decide; try destruct ov; simplify_eq; auto.
Qed.

Lemma copy_pure_exn src carr :
  ∀ todo sb dst e, (copy_pure todo src carr sb dst).2 = Raise e → e = IndexError.
Proof.
  induction todo as [|todo IH]; intros sb dst e; simpl; [done|].
  destruct (carr !! sb); [|by intros [= <-]].
  destruct (src !! Z.to_nat z); [|by intros [= <-]].
  case_decide; [apply IH|by intros [= <-]].
Qed.

Lemma sort_outcome_exn ov a codes sorted e :
  (sort_outcome ov a codes sorted).2 = Raise e → e = IndexError ∨ e = OverflowError.
Proof.
  unfold sort_outcome.
  pose proof (scan_pure_exn ov codes sorted (length codes) (scan_fuel (length codes)) 0 0
                (replicate (length codes) 0%Z)) as Hscan.
  destruct (scan_pure _ _ _ _ _ _ _ _) as [carr [[]|e'|]]; simpl in *.
  - pose proof (copy_pure_exn (bands a) carr (length codes) 0
                  (zeros3 (length (bands a)) (row a) (column a))) as Hcopy.
    destruct (copy_pure _ _ _ _ _) as [dst r]. simpl in *.
    intros ->. left. by apply Hcopy.
  - intros [= <-]. by apply Hscan.
  - done.
Qed.

(** What [stack_sort], called on fresh arguments, can raise. *)
Lemma stack_sort_call_exn ov o codes sorted e :
  stack_sort_call ov o codes sorted = Raise e →
  e = IndexError ∨ e = OverflowError ∨ e = ValueError ∨ e = AttributeError.
Proof.
  unfold stack_sort_call. destruct o as [xs|dt xs|a].
  - intros [= <-]. auto.
  - intros [= <-]. auto.
  - rewrite (stack_sort_run ov _ 0 1 2 a codes sorted) by done.
    destruct (sort_outcome_shape ov a codes sorted) as (dst & carr & Hout & _).
    rewrite Hout.
    pose proof (sort_outcome_exn ov a codes sorted) as Hexn.
    destruct ((sort_outcome ov a codes sorted).2) as [[]|e'|]; simpl; [done| |done].
    intros [= <-]. destruct (Hexn e' eq_refl); auto.
Qed.

Lemma np_asarray_exn images e : np_asarray images = Raise e → e = ValueError.
Proof.
  unfold np_asarray. destruct images as [|im rest]; [done|].
  case_match; [done|]. by intros [= <-].
Qed.

Lemma read_band1_exn prof data e : read_band1 prof data = Raise e → e = IndexError.
Proof.
  unfold read_band1. repeat case_match; try done; by intros [= <-].
Qed.

(** ** The archive *)

Lemma extract_into_exn :
  ∀ fl m existing x e,
    extract_into fl m existing = (x, Some e) →
    e = FileExistsError ∨ e = IsADirectoryError.
Proof.
  intros fl. fix IH 1. intros m existing x e.
  destruct m as [members|prof data|members|n|fs|]; simpl.
  2-6: destruct existing as [[]|]; try done; intros [= _ <-]; auto.
  assert (Hgo : ∀ es es' e',
    (fix go (ms : list (string * node)) (es : list (string * node)) {struct ms}
       : list (string * node) * option exn :=
       match ms with
       | [] => (es, None)
       | (name, x) :: ms' =>
           match extract_into fl x (entry_lookup fl name es) with
           | (x', None) => go ms' (entry_put fl name x' es)
           | (x', Some e) => (entry_put fl name x' es, Some e)
           end
       end) members es = (es', Some e') →
    e' = FileExistsError ∨ e' = IsADirectoryError).
  { induction members as [|[name y] ms IHms]; intros es es' e'; [done|].
    destruct (extract_into fl y (entry_lookup fl name es)) as [y' [e0|]] eqn:Ex.
    - intros [= _ <-]. by eapply IH.
    - apply IHms. }
  destruct existing as [[es| | | | |]|].
  2-6: intros [= _ <-]; auto.
  all: match goal with
       | |- (let '(_, _) := ?g in _) = _ → _ =>
           destruct g as [es' err] eqn:Eg; intros [= _ ->]; by eapply Hgo
       end.
Qed.

(** ** The steps of the processors never raise [SystemExit], but for three *)

Section steps.
Variable fl : flavour.
Variable ov : overflow_policy.
Variable engine : raster_engine.

Lemma no_exit_zip_extractall p target : no_exit (zip_extractall fl p target).
Proof.
  unfold zip_extractall, no_exit, no_directory. intros s s' msg.
  destruct (fs_lookup fl s p) as [[]|] eqn:Hp; try discriminate.
  - destruct (extract_into _ _ _) as [x [e|]] eqn:Hex.
    + apply extract_into_exn in Hex as [-> | ->]; repeat case_match; not_exit.
    + repeat case_match; not_exit.
  - not_exit.
Qed.

Lemma no_exit_output_folder safe_path output_path :
  no_exit (output_folder fl safe_path output_path).
Proof.
  unfold output_folder. destruct output_path; [apply no_exit_ret|].
  apply no_exit_bind; [apply no_exit_path_exists|]. intros found.
  apply no_exit_bind; [destruct found; [apply no_exit_rmtree|apply no_exit_ret]|].
  intros _. apply no_exit_bind; [apply no_exit_mkdir|]. intros _. apply no_exit_ret.
Qed.

Lemma no_exit_find_granule safe_path : no_exit (find_granule fl safe_path).
Proof.
  unfold find_granule. apply no_exit_bind; [apply no_exit_rglob|].
  intros [|g found]; [by apply no_exit_raise|apply no_exit_ret].
Qed.

Lemma no_exit_band_names p : no_exit (band_names fl p).
Proof.
  unfold band_names. apply no_exit_bind; [apply no_exit_iterdir|].
  intros names. apply no_exit_ret.
Qed.

Lemma no_exit_read_tier dir wanted names :
  ∀ acc, no_exit (read_tier fl dir wanted names acc).
Proof.
  induction names as [|name names IH]; intros acc; simpl; [apply no_exit_ret|].
  destruct (is_wanted wanted name); [|apply IH].
  apply no_exit_bind; [apply no_exit_raster_open|]. intros [prof data].
  apply no_exit_bind; [|intros band; apply IH].
  apply no_exit_lift. intros msg Hr. by apply read_band1_exn in Hr.
Qed.

Lemma no_exit_sort_tier t sorted_list : no_exit (sort_tier ov t sorted_list).
Proof.
  unfold sort_tier. apply no_exit_bind.
  - apply no_exit_lift. intros msg Hr. by apply np_asarray_exn in Hr.
  - intros stack. apply no_exit_lift. intros msg Hr.
    apply stack_sort_call_exn in Hr as [?|[?|[?|?]]]; discriminate.
Qed.

Lemma no_exit_bound {A} (x : option A) : no_exit (bound x).
Proof. destruct x; [apply no_exit_ret|by apply no_exit_raise]. Qed.

Lemma no_exit_save_stack p kwargs stack : no_exit (save_stack fl p kwargs stack).
Proof.
  unfold save_stack. apply no_exit_bind; [apply no_exit_raster_create|].
  intros _. apply no_exit_raster_write.
Qed.

Lemma no_exit_read_resampled p scale res :
  no_exit (read_resampled fl engine p scale res).
Proof.
  unfold read_resampled. apply no_exit_bind; [apply no_exit_raster_open|].
  intros [prof data]. case_decide; [by apply no_exit_raise|apply no_exit_ret].
Qed.

Lemma no_exit_processor_all_sort rd : no_exit (processor_all_sort ov rd).
Proof.
  unfold processor_all_sort.
  repeat (apply no_exit_bind; [apply no_exit_sort_tier|intros ?]).
  apply no_exit_ret.
Qed.

Lemma no_exit_processor_all_save rd ss : no_exit (processor_all_save fl rd ss).
Proof.
  unfold processor_all_save.
  repeat (apply no_exit_bind; [apply no_exit_bound|intros ?]).
  repeat (apply no_exit_bind; [apply no_exit_save_stack|intros ?]).
  apply no_exit_ret.
Qed.

Lemma no_exit_merge st : no_exit (merge engine st).
Proof.
  unfold merge. case_match; [|apply no_exit_ret].
  apply no_exit_bind; [|intros; apply no_exit_ret].
  apply no_exit_lift. intros msg Hr. unfold merge_stack, np_concatenate in Hr.
  repeat case_match; discriminate.
Qed.

Lemma no_exit_create_pam_xml stack out_name :
  no_exit (create_pam_xml fl stack out_name).
Proof.
  unfold create_pam_xml. apply no_exit_bind; [|intros; apply no_exit_xml_write].
  apply no_exit_lift. intros msg Hr. unfold calculate_statistics in Hr.
  case_decide; discriminate.
Qed.

Lemma no_exit_export stack name_output new_kwargs xml pyramids :
  no_exit (export fl stack name_output new_kwargs xml pyramids).
Proof.
  unfold export. apply no_exit_bind.
  { destruct xml; [|apply no_exit_ret].
    apply no_exit_bind; [apply no_exit_bound|intros; apply no_exit_create_pam_xml]. }
  intros _. apply no_exit_bind; [apply no_exit_raster_create|]. intros _.
  apply no_exit_bind; [apply no_exit_bound|]. intros a.
  apply no_exit_bind; [apply no_exit_raster_write|]. intros _.
  destruct pyramids; [apply no_exit_build_overviews|apply no_exit_ret].
Qed.

Lemma no_exit_processor_all_back args st :
  no_exit (processor_all_back fl engine args st).
Proof.
  unfold processor_all_back. apply no_exit_bind; [apply no_exit_merge|].
  intros stack. apply no_exit_bind; [apply no_exit_export|].
  intros _. apply no_exit_rmtree.
Qed.

(** *** [check_path_validity] *)


Lemma check_path_validity_exit p w w' msg :
  check_path_validity fl p w = (w', Raise (SystemExit msg)) →
  invalid_path fl w p ∧ w' = w.
Proof.
  unfold check_path_validity, bind at 1, path_exists.
  destruct (bool_decide (is_Some (fs_lookup fl w p))) eqn:Hfound; simpl.
  2:{ intros [= <- _]. split; [|done]. left.
      apply bool_decide_eq_false in Hfound. by apply eq_None_not_Some. }
  destruct (bool_decide (path_suffix p ∈ [".zip"; ".SAFE"])) eqn:Hsuffix; simpl.
  2:{ intros [= <- _]. split; [|done]. right. by apply bool_decide_eq_false in Hsuffix. }
  case_match; [|done].
  intros (? & ? & _ & Hret)%bind_exit; [done|apply no_exit_zip_extractall].
Qed.

(** *** [parse_resample] *)

Lemma parse_resample_exit r w w' msg :
  parse_resample r w = (w', Raise (SystemExit msg)) →
  invalid_resample r ∧ w' = w ∧ msg = r +:+ " not a valid option".
Proof.
  unfold parse_resample, invalid_resample.
  repeat case_bool_decide; try done.
  intros [= <- <-]. split; [|done].
  rewrite !not_elem_of_cons. split_and!; [done..|]. apply not_elem_of_nil.
Qed.

Lemma parse_resample_Ok r w w' res :
  parse_resample r w = (w', Ok res) → ¬ invalid_resample r.
Proof.
  unfold parse_resample, invalid_resample.
  repeat case_bool_decide; try done; intros _ Hr; apply Hr; subst r;
    rewrite !elem_of_cons; auto.
Qed.

(** *** The test on the granule's name *)

Lemma l2a_guard_exit granule w w' msg :
  l2a_guard fl granule w = (w', Raise (SystemExit msg)) →
  contains "L2A" (path_name granule) = false ∧ w' = w ∧
  msg = "L2A product not found:" +:+ String "010" (path_str fl granule).
Proof.
  unfold l2a_guard. destruct (contains "L2A" (path_name granule)); [done|].
  by intros [= <- <-].
Qed.
End steps.

(** ** The granule *)

Lemma fnmatch_star fold pat name :
  fnmatch fold (String "*" pat) name =
    fnmatch fold pat name ||
    match name with
    | EmptyString => false
    | String _ name' => fnmatch fold (String "*" pat) name'
    end.
Proof. by destruct name. Qed.

Lemma fnmatch_literal fold c pat name :
  c ≠ "*"%char → c ≠ "?"%char →
  fnmatch fold (String c pat) name =
    match name with
    | EmptyString => false
    | String d name' => Ascii.eqb (fold c) (fold d) && fnmatch fold pat name'
    end.
Proof.
  intros Hstar Hany.
  destruct c as [[] [] [] [] [] [] [] []]; try reflexivity; congruence.
Qed.

Lemma contains_cons needle c hay :
  contains needle (String c hay) =
    String.prefix needle (String c hay) || contains needle hay.
Proof. reflexivity. Qed.

(** With case-sensitive matching, a name that matches [*L2A*] contains
    [L2A]. *)
Lemma fnmatch_L2A_prefix s :
  fnmatch (fold_case PosixFlavour) "L2A*" s = true → String.prefix "L2A" s = true.
Proof.
  rewrite fnmatch_literal by done. destruct s as [|a s]; [done|].
  rewrite fnmatch_literal by done. destruct s as [|b s]; [by rewrite andb_false_r|].
  rewrite fnmatch_literal by done. destruct s as [|c s]; [by rewrite !andb_false_r|].
  rewrite !andb_true_iff.
  intros (Ha%Ascii.eqb_eq & Hb%Ascii.eqb_eq & Hc%Ascii.eqb_eq & _).
  simpl in Ha, Hb, Hc. subst. by destruct s.
Qed.

Lemma fnmatch_L2A_contains name :
  fnmatch (fold_case PosixFlavour) "*L2A*" name = true → contains "L2A" name = true.
Proof.
  induction name as [|c name IH]; rewrite fnmatch_star.
  - rewrite orb_false_r. by intros H%fnmatch_L2A_prefix.
  - rewrite contains_cons.
    intros [H%fnmatch_L2A_prefix|H%IH]%orb_true_iff; rewrite H; [done|].
    apply orb_true_r.
Qed.

Lemma path_name_app p name : path_name (p ++ [name]) = name.
Proof. unfold path_name. apply last_last. Qed.

Lemma path_parent_app p name : path_parent (p ++ [name]) = p.
Proof. unfold path_parent. apply removelast_last. Qed.

(** What [rglob] yields matches the pattern under the flavour's folding. *)
Lemma rglob_matches fl p pattern w w' found granule :
  rglob fl p pattern w = (w', Ok found) → granule ∈ found →
  w' = w ∧ fnmatch (fold_case fl) pattern (path_name granule) = true.
Proof.
  unfold rglob. destruct (fs_lookup fl w p) as [n|].
  2:{ intros [= <- <-]. by intros ?%elem_of_nil. }
  intros [= <- <-]. split; [done|].
  apply list_elem_of_In, in_flat_map in H as ([dir es] & _ & Hin).
  apply in_map_iff in Hin as (e & <- & He).
  apply list_elem_of_In, list_elem_of_filter in He as [He _].
  by rewrite path_name_app.
Qed.

Lemma find_granule_matches fl safe_path w w' granule :
  find_granule fl safe_path w = (w', Ok granule) →
  w' = w ∧ fnmatch (fold_case fl) "*L2A*" (path_name granule) = true.
Proof.
  unfold find_granule. intros (found & w1 & Hglob & Hhead)%bind_Ok.
  destruct found as [|g found]; [done|]. injection Hhead as <- <-.
  eapply rglob_matches; [exact Hglob|]. by left.
Qed.

(** ** Files written and files left alone *)

Section fs_frame.
Variable fl : flavour.

Lemma same_name_true a b :
  same_name fl a b = true ↔
    string_map (fold_case fl) a = string_map (fold_case fl) b.
Proof. unfold same_name. apply String.eqb_eq. Qed.

Lemma same_name_refl a : same_name fl a a = true.
Proof. by apply same_name_true. Qed.

Lemma same_name_trans_false a b c :
  same_name fl a b = false → same_name fl a c = true → same_name fl b c = false.
Proof.
  intros Hab Hac%same_name_true. apply not_true_iff_false.
  intros Hbc%same_name_true. apply not_true_iff_false in Hab. apply Hab.
  apply same_name_true. congruence.
Qed.

Lemma same_name_sym_false a b : same_name fl a b = false → same_name fl b a = false.
Proof.
  intros Hab. apply not_true_iff_false. intros Hba%same_name_true.
  apply not_true_iff_false in Hab. apply Hab. by apply same_name_true.
Qed.

Lemma same_name_sym a b : same_name fl a b = same_name fl b a.
Proof.
  destruct (same_name fl a b) eqn:Hab.
  - symmetry. apply same_name_true. symmetry. by apply same_name_true.
  - symmetry. by apply same_name_sym_false.
Qed.

Lemma string_map_length f s : String.length (string_map f s) = String.length s.
Proof. induction s as [|c s IH]; simpl; [done|]. by rewrite IH. Qed.

(** Names of different lengths are different names, with and without case
    folding. *)
Lemma same_name_length a b :
  String.length a ≠ String.length b → same_name fl a b = false.
Proof.
  intros Hlen. apply not_true_is_false. intros Hsame%same_name_true.
  apply Hlen. by rewrite <- (string_map_length (fold_case fl) a), Hsame,
    string_map_length.
Qed.

Lemma entry_lookup_put_eq n x es :
  entry_lookup fl n (entry_put fl n x es) = Some x.
Proof.
  induction es as [|[m y] es IH]; simpl.
  - by rewrite same_name_refl.
  - destruct (same_name fl n m) eqn:Hnm; simpl; by rewrite Hnm.
Qed.

Lemma entry_lookup_put_ne n n' x es :
  same_name fl n n' = false →
  entry_lookup fl n' (entry_put fl n x es) = entry_lookup fl n' es.
Proof.
  intros Hne. induction es as [|[m y] es IH]; simpl.
  - by rewrite (same_name_sym_false _ _ Hne).
  - destruct (same_name fl n m) eqn:Hnm; simpl.
    + pose proof (same_name_trans_false _ _ _ Hne Hnm) as Hn'm.
      by rewrite Hn'm.
    + destruct (same_name fl n' m); [done|apply IH].
Qed.

Lemma fs_modify_put_lookup d n x :
  ∀ root root',
    fs_modify fl root d (entry_put fl n x) = Some root' →
    fs_lookup fl root' (d ++ [n]) = Some x ∧
    ∀ n', same_name fl n n' = false →
      fs_lookup fl root' (d ++ [n']) = fs_lookup fl root (d ++ [n']).
Proof.
  induction d as [|c d IH]; intros root root'; destruct root as [es| | | | |];
    simpl; try done.
  - intros [= <-]. simpl. rewrite entry_lookup_put_eq. split; [done|].
    intros n' Hne. by rewrite entry_lookup_put_ne.
  - destruct (entry_lookup fl c es) as [y|] eqn:Hc; [|done].
    destruct (fs_modify fl y d (entry_put fl n x)) as [y'|] eqn:Hmod; [|done].
    intros [= <-]. simpl. rewrite entry_lookup_put_eq.
    destruct (IH y y' Hmod) as [Hsame Hother]. split; [done|].
    intros n' Hne. by apply Hother.
Qed.

Lemma fs_put_lookup d n x w w' :
  fs_put fl (d ++ [n]) x w = (w', Ok tt) →
  fs_lookup fl w' (d ++ [n]) = Some x ∧
  ∀ n', same_name fl n n' = false →
    fs_lookup fl w' (d ++ [n']) = fs_lookup fl w (d ++ [n']).
Proof.
  unfold fs_put. rewrite path_parent_app, path_name_app.
  destruct (fs_modify fl w d (entry_put fl n x)) as [root'|] eqn:Hmod; [|done].
  intros [= <-]. by apply fs_modify_put_lookup.
Qed.

Lemma entry_lookup_remove_ne n n' es :
  same_name fl n n' = false →
  entry_lookup fl n' (entry_remove fl n es) = entry_lookup fl n' es.
Proof.
  intros Hne. induction es as [|[m y] es IH]; simpl; [done|].
  destruct (same_name fl n m) eqn:Hnm.
  - assert (same_name fl n' m = false) as ->; [|done].
    by eapply same_name_trans_false.
  - simpl. by rewrite IH.
Qed.

Lemma entry_lookup_remove_if_ne test n n' es :
  same_name fl n n' = false →
  entry_lookup fl n' (entry_remove_if fl test n es) = entry_lookup fl n' es.
Proof.
  intros Hne. induction es as [|[m y] es IH]; simpl; [done|].
  destruct (same_name fl n m) eqn:Hnm.
  - assert (same_name fl n' m = false) as Hn'm by (by eapply same_name_trans_false).
    destruct (test y); simpl; by rewrite Hn'm.
  - simpl. by rewrite IH.
Qed.

(** A change of the entries of the folder [d] that keeps the entry [n']
    keeps everything under it. *)
Lemma fs_modify_lookup_below d f n' rest :
  (∀ es, entry_lookup fl n' (f es) = entry_lookup fl n' es) →
  ∀ root root',
    fs_modify fl root d f = Some root' →
    fs_lookup fl root' (d ++ n' :: rest) = fs_lookup fl root (d ++ n' :: rest).
Proof.
  intros Hf. induction d as [|c d IH]; intros root root';
    destruct root as [es| | | | |]; simpl; try done.
  - intros [= <-]. simpl. by rewrite Hf.
  - destruct (entry_lookup fl c es) as [y|] eqn:Hc; [|done].
    destruct (fs_modify fl y d f) as [y'|] eqn:Hmod; [|done].
    intros [= <-]. simpl. rewrite entry_lookup_put_eq. by apply IH.
Qed.

Lemma fs_lookup_app d n :
  ∀ root,
    fs_lookup fl root (d ++ [n]) =
      match fs_lookup fl root d with
      | Some (Dir es) => entry_lookup fl n es
      | _ => None
      end.
Proof.
  induction d as [|c d IH]; intros root; simpl.
  - destruct root as [es| | | | |]; try done. by destruct (entry_lookup fl n es).
  - destruct root as [es| | | | |]; try done.
    destruct (entry_lookup fl c es) as [y|]; [|done]. apply IH.
Qed.

Lemma fs_modify_lookup_self d f :
  ∀ root root' es,
    fs_modify fl root d f = Some root' →
    fs_lookup fl root d = Some (Dir es) →
    fs_lookup fl root' d = Some (Dir (f es)).
Proof.
  induction d as [|c d IH]; intros root root' es;
    destruct root as [es0| | | | |]; simpl; try done.
  - by intros [= <-] [= ->].
  - destruct (entry_lookup fl c es0) as [y|] eqn:Hc; [|done].
    destruct (fs_modify fl y d f) as [y'|] eqn:Hmod; [|done].
    intros [= <-] Hlook. simpl. rewrite entry_lookup_put_eq. by eapply IH.
Qed.

Lemma fs_modify_Dir d f :
  ∀ root es, fs_lookup fl root d = Some (Dir es) → is_Some (fs_modify fl root d f).
Proof.
  induction d as [|c d IH]; intros root es; simpl.
  - intros [= ->]. by eexists.
  - destruct root as [es0| | | | |]; try done.
    destruct (entry_lookup fl c es0) as [y|]; [|done].
    intros [y' Hy']%IH. rewrite Hy'. by eexists.
Qed.

Lemma fs_modify_None d f :
  ∀ root, fs_lookup fl root d = None → fs_modify fl root d f = None.
Proof.
  induction d as [|c d IH]; intros root; destruct root as [es| | | | |];
    simpl; try done.
  destruct (entry_lookup fl c es) as [y|]; [|done].
  intros Hnone. by rewrite (IH y Hnone).
Qed.

(** Deleting the files that belong to the dataset [d/n] touches nothing
    else in [d], and leaves [d] a folder. *)
Lemma delete_sidecars_lookup d n n' rest w :
  same_name fl (n +:+ ".aux.xml") n' = false →
  same_name fl (n +:+ ".ovr") n' = false →
  fs_lookup fl (delete_sidecars fl (d ++ [n]) w) (d ++ n' :: rest)
  = fs_lookup fl w (d ++ n' :: rest).
Proof.
  intros Hxml Hovr. unfold delete_sidecars. rewrite path_parent_app, path_name_app.
  destruct (fs_modify _ _ _ _) as [root'|] eqn:Hmod; [|done].
  eapply fs_modify_lookup_below; [|exact Hmod].
  intros es0. cbv beta. by rewrite !entry_lookup_remove_if_ne.
Qed.

Lemma delete_sidecars_parent p w es :
  fs_lookup fl w (path_parent p) = Some (Dir es) →
  ∃ es', fs_lookup fl (delete_sidecars fl p w) (path_parent p) = Some (Dir es').
Proof.
  intros Hparent. unfold delete_sidecars.
  destruct (fs_modify _ _ _ _) as [root'|] eqn:Hmod; [|by eexists].
  eexists. by eapply fs_modify_lookup_self.
Qed.

(** Opening [d/n] for writing leaves a dataset without data there.  It
    keeps the other entries of [d], but for the sidecar files of a dataset
    that was at [d/n] before. *)
Lemma raster_create_lookup d n prof w w' :
  raster_create fl (d ++ [n]) prof w = (w', Ok tt) →
  fs_lookup fl w' (d ++ [n]) = Some (Raster prof None) ∧
  ∀ n', same_name fl n n' = false →
    (same_name fl (n +:+ ".aux.xml") n' = false ∧
     same_name fl (n +:+ ".ovr") n' = false) ∨
    (∀ x, fs_lookup fl w (d ++ [n]) = Some x → is_dataset x = false) →
    fs_lookup fl w' (d ++ [n']) = fs_lookup fl w (d ++ [n']).
Proof.
  unfold raster_create. rewrite path_parent_app.
  destruct (fs_lookup fl w d) as [[es| | | | |]|]; try done.
  destruct (fs_lookup fl w (d ++ [n])) as [x|] eqn:Hx.
  - destruct x as [es0|pr da|ms|k|fs|]; try done; simpl.
    1, 4: intros [Hnew Hkeep]%fs_put_lookup; split; [done|];
      intros n' Hne [[Hxml Hovr]|Hnot];
      [rewrite Hkeep by done; by apply (delete_sidecars_lookup d n n' [])
      |by specialize (Hnot _ eq_refl)].
    all: intros [Hnew Hkeep]%fs_put_lookup; split; [done|];
      intros n' Hne _; by apply Hkeep.
  - intros [Hnew Hkeep]%fs_put_lookup. split; [done|].
    intros n' Hne _. by apply Hkeep.
Qed.

Lemma raster_write_lookup d n prof a w w' :
  raster_write fl (d ++ [n]) prof a w = (w', Ok tt) →
  fs_lookup fl w' (d ++ [n]) = Some (Raster prof (Some a)) ∧
  ∀ n', same_name fl n n' = false →
    fs_lookup fl w' (d ++ [n']) = fs_lookup fl w (d ++ [n']).
Proof.
  unfold raster_write. case_decide; [apply fs_put_lookup|done].
Qed.

Lemma save_stack_lookup d n kwargs a w w' :
  save_stack fl (d ++ [n]) kwargs a w = (w', Ok tt) →
  holds_stack fl w' (d ++ [n]) a ∧
  ∀ n', same_name fl n n' = false →
    same_name fl (n +:+ ".aux.xml") n' = false →
    same_name fl (n +:+ ".ovr") n' = false →
    fs_lookup fl w' (d ++ [n']) = fs_lookup fl w (d ++ [n']).
Proof.
  unfold save_stack. intros ([] & w1 & Hcreate & Hwrite)%bind_Ok.
  apply raster_create_lookup in Hcreate as [_ Hc].
  apply raster_write_lookup in Hwrite as [Hsame Hw]. split; [by eexists|].
  intros n' Hne Hxml Hovr. rewrite Hw by done. apply Hc; auto.
Qed.

(** After the save step, the three temporary files hold the sorted
    stacks. *)
Lemma processor_all_save_holds rd ss w w' kwargs :
  processor_all_save fl rd ss w = (w', Ok kwargs) →
  holds_stack fl w' (stack_temp_10m rd) (ss_stack_10m_sorted ss) ∧
  holds_stack fl w' (stack_temp_20m rd) (ss_stack_20m_sorted ss) ∧
  holds_stack fl w' (stack_temp_60m rd) (ss_stack_60m_sorted ss).
Proof.
  unfold processor_all_save.
  intros (k10 & w1 & H10 & Hrun)%bind_Ok.
  apply bind_Ok in Hrun as (k20 & w2 & H20 & Hrun).
  apply bind_Ok in Hrun as (k60 & w3 & H60 & Hrun).
  apply bind_Ok in Hrun as ([] & w4 & Hs10 & Hrun).
  apply bind_Ok in Hrun as ([] & w5 & Hs20 & Hrun).
  apply bind_Ok in Hrun as ([] & w6 & Hs60 & Hrun).
  injection Hrun as <- _.
  apply save_stack_lookup in Hs10 as [[p10 Hh10] _].
  apply save_stack_lookup in Hs20 as [[p20 Hh20] Hk20].
  apply save_stack_lookup in Hs60 as [[p60 Hh60] Hk60].
  split_and!.
  - exists p10. unfold stack_temp_10m.
    rewrite Hk60, Hk20; [done|by destruct fl..].
  - exists p20. unfold stack_temp_20m. rewrite Hk60; [done|by destruct fl..].
  - by exists p60.
Qed.
End fs_frame.

(** Opening a dataset for writing fails with [RasterioIOError] only, and
    then nothing is created. *)
Lemma raster_create_Raise_exn fl p prof w w' e :
  raster_create fl p prof w = (w', Raise e) → e = RasterioIOError ∧ w' = w.
Proof.
  unfold raster_create.
  destruct (fs_lookup fl w (path_parent p)) as [[es| | | | |]|] eqn:Hparent;
    try (by intros [= <- <-]).
  assert (Hput : ∀ w0 es0, fs_lookup fl w0 (path_parent p) = Some (Dir es0) →
            fs_put fl p (Raster prof None) w0 ≠ (w', Raise e)).
  { intros w0 es0 Hw0. unfold fs_put.
    destruct (fs_modify_Dir fl (path_parent p)
                (entry_put fl (path_name p) (Raster prof None)) w0 es0 Hw0)
      as [root' Hroot'].
    rewrite Hroot'. discriminate. }
  destruct (fs_lookup fl w p) as [x|].
  - destruct x; try (by intros [= <- <-]); simpl; intros Hrun.
    1, 4: by destruct (delete_sidecars_parent fl p w es Hparent) as [es' Hes'];
      apply (Hput _ _ Hes') in Hrun.
    all: by apply (Hput _ _ Hparent) in Hrun.
  - intros Hrun. by apply (Hput _ _ Hparent) in Hrun.
Qed.

(** ** A tier whose codes are the canonical ones *)

Lemma foldr_promote_uint16 dts :
  Forall (λ dt, dt = uint16) dts → foldr promote uint16 dts = uint16.
Proof. induction 1 as [|dt dts -> _ IH]; simpl; [done|by rewrite IH]. Qed.

Lemma np_asarray_uniform images r c :
  images ≠ [] →
  Forall (λ im, im_dtype im = uint16 ∧ im_row im = r ∧ im_column im = c ∧
                plane_wf uint16 r c (im_data im)) images →
  np_asarray images = Ok (Nd3 (NdArray uint16 r c (map im_data images))).
Proof.
  destruct images as [|im rest]; [done|]. intros _ Hall.
  apply Forall_cons in Hall as [(Hdt & Hr & Hc & _) Hrest].
  unfold np_asarray.
  assert (forallb (λ x, bool_decide (im_row x = im_row im ∧ im_column x = im_column im))
            rest = true) as ->.
  { apply forallb_forall. intros x Hx%list_elem_of_In.
    apply bool_decide_eq_true.
    eapply Forall_forall in Hrest as (_ & -> & -> & _); [|done]. by rewrite Hr, Hc. }
  rewrite Hdt, Hr, Hc. do 3 f_equal.
  apply foldr_promote_uint16, List.Forall_map.
  eapply Forall_impl; [exact Hrest|]. by intros x (Hx & _).
Qed.

Lemma sort_tier_canonical ov t sorted_list r c (w : node) :
  tier_wf t r c →
  code_list t ≡ₚ sorted_list →
  length sorted_list ≤ 256 → sorted_list ≠ [] →
  ∃ out,
    sort_tier ov t sorted_list w = (w, Ok out) ∧
    shape out = (length sorted_list, r, c) ∧ nd_dtype out = uint16 ∧
    ∀ i code, sorted_list !! i = Some code →
      ∃ j im, linear_scan code (code_list t) = Some j ∧
              stack_list t !! j = Some im ∧
              bands out !! i = Some (im_data im).
Proof.
  intros [Hlen Hall] Hperm Hmax Hnonempty.
  assert (Hcodes : length (code_list t) = length sorted_list) by (by rewrite Hperm).
  assert (Himages : stack_list t ≠ []).
  { intros Hnil. rewrite Hnil in Hlen. simpl in Hlen.
    destruct sorted_list; [done|]. simpl in Hcodes. lia. }
  unfold sort_tier, bind, lift.
  rewrite (np_asarray_uniform _ r c Himages Hall).
  set (a := NdArray uint16 r c (map im_data (stack_list t))).
  destruct (stack_sort_sorted ov [Nd3 a; PyList (code_list t); PyList sorted_list]
              0 1 2 a (code_list t) sorted_list)
    as (dst & carr & Hrun & Hdst & Hslots); [done..| |done|lia|].
  { simpl. by rewrite length_map. }
  unfold stack_sort_call. rewrite Hrun. simpl.
  eexists. split; [done|]. split_and!.
  - unfold shape. simpl. by rewrite Hdst, Hcodes.
  - done.
  - intros i code Hi. destruct (Hslots i code Hi) as (p & Hp & Hband).
    pose proof Hp as [Hp' _]%linear_scan_Some.
    destruct (lookup_lt_is_Some_2 (stack_list t) p) as [im Him].
    { apply lookup_lt_Some in Hp'. lia. }
    exists p, im. split_and!; [done..|].
    simpl. rewrite Hband. simpl.
    change (map im_data (stack_list t)) with (im_data <$> stack_list t).
    rewrite list_lookup_fmap, Him. simpl. f_equal.
    eapply Forall_lookup_1 in Hall as (_ & _ & _ & Hwf); [|exact Him].
    by eapply cast_plane_id.
Qed.

(** ** Where the processors raise [SystemExit] *)

Section exits.
Variable fl : flavour.
Variable ov : overflow_policy.
Variable engine : raster_engine.

(** The read step raises [SystemExit] for an invalid path, before it has
    changed anything, or for a granule whose name lacks [L2A]. *)
Lemma processor_all_read_exit args w w' msg :
  processor_all_read fl args w = (w', Raise (SystemExit msg)) →
  (invalid_path fl w (product_path args) ∧ w' = w) ∨
  (∃ granule,
     fnmatch (fold_case fl) "*L2A*" (path_name granule) = true ∧
     contains "L2A" (path_name granule) = false ∧
     msg = l2a_message fl granule).
Proof.
  unfold processor_all_read.
  intros [Hcheck|(safe_path & w1 & _ & Hrun)]%bind_Raise.
  { left. by eapply check_path_validity_exit. }
  right.
  apply bind_exit in Hrun as (out & w2 & _ & Hrun); [|apply no_exit_output_folder].
  apply bind_exit in Hrun as ([] & w3 & _ & Hrun); [|apply no_exit_mkdir].
  apply bind_exit in Hrun as (granule & w4 & Hgranule & Hrun);
    [|apply no_exit_find_granule].
  apply find_granule_matches in Hgranule as [_ Hmatch].
  apply bind_Raise in Hrun as [Hguard|([] & w5 & _ & Hrun)].
  { apply l2a_guard_exit in Hguard as (Hname & _ & ->). by exists granule. }
  exfalso.
  do 3 (apply bind_exit in Hrun as (? & ? & _ & Hrun); [|apply no_exit_band_names]).
  do 3 (apply bind_exit in Hrun as (? & ? & _ & Hrun); [|apply no_exit_read_tier]).
  done.
Qed.

Lemma processor_rgbn_read_exit args w w' msg :
  processor_rgbn_read fl args w = (w', Raise (SystemExit msg)) →
  (invalid_path fl w (product_path args) ∧ w' = w) ∨
  (∃ granule,
     fnmatch (fold_case fl) "*L2A*" (path_name granule) = true ∧
     contains "L2A" (path_name granule) = false ∧
     msg = l2a_message fl granule).
Proof.
  unfold processor_rgbn_read.
  intros [Hcheck|(safe_path & w1 & _ & Hrun)]%bind_Raise.
  { left. by eapply check_path_validity_exit. }
  right.
  apply bind_exit in Hrun as (out & w2 & _ & Hrun); [|apply no_exit_output_folder].
  apply bind_exit in Hrun as (granule & w4 & Hgranule & Hrun);
    [|apply no_exit_find_granule].
  apply find_granule_matches in Hgranule as [_ Hmatch].
  apply bind_Raise in Hrun as [Hguard|([] & w5 & _ & Hrun)].
  { apply l2a_guard_exit in Hguard as (Hname & _ & ->). by exists granule. }
  exfalso.
  apply bind_exit in Hrun as (? & ? & _ & Hrun); [|apply no_exit_band_names].
  apply bind_exit in Hrun as (? & ? & _ & Hrun); [|apply no_exit_read_tier].
  done.
Qed.

(** Every [SystemExit] of [processor_all]. *)
Lemma processor_all_exit args w w' msg :
  processor_all fl ov engine args w = (w', Raise (SystemExit msg)) →
  (invalid_path fl w (product_path args) ∧ w' = w) ∨
  (∃ granule,
     fnmatch (fold_case fl) "*L2A*" (path_name granule) = true ∧
     contains "L2A" (path_name granule) = false ∧
     msg = l2a_message fl granule) ∨
  (invalid_resample (resample args) ∧
   msg = resample args +:+ " not a valid option" ∧
   ∃ w0 rd w1 ss w2 kw,
     processor_all_read fl args w = (w0, Ok rd) ∧
     processor_all_sort ov rd w0 = (w1, Ok ss) ∧
     processor_all_save fl rd ss w1 = (w2, Ok kw) ∧
     holds_stack fl w' (stack_temp_10m rd) (ss_stack_10m_sorted ss) ∧
     holds_stack fl w' (stack_temp_20m rd) (ss_stack_20m_sorted ss) ∧
     holds_stack fl w' (stack_temp_60m rd) (ss_stack_60m_sorted ss)).
Proof.
  unfold processor_all.
  intros [Hfront|(st & w1 & _ & Hback)]%bind_Raise.
  2:{ by apply no_exit_processor_all_back in Hback. }
  unfold processor_all_front in Hfront.
  apply bind_Raise in Hfront as [Hread|(rd & w1 & Hread & Hrun)].
  { apply processor_all_read_exit in Hread as [?|?]; auto. }
  apply bind_exit in Hrun as (ss & w2 & Hsort & Hrun);
    [|apply no_exit_processor_all_sort].
  apply bind_exit in Hrun as (kwargs & w3 & Hsave & Hrun);
    [|apply no_exit_processor_all_save].
  pose proof (processor_all_save_holds _ _ _ _ _ _ Hsave) as Hholds.
  unfold processor_all_resample in Hrun.
  apply bind_Raise in Hrun as [Hparse|(res & w4 & _ & Hrun)].
  { apply parse_resample_exit in Hparse as (Hinvalid & -> & ->).
    right. right. split_and!; [done..|]. by exists w1, rd, w2, ss, w3, kwargs. }
  exfalso.
  apply bind_exit in Hrun as ([? ?] & ? & _ & Hrun); [|apply no_exit_read_resampled].
  apply bind_exit in Hrun as ([? ?] & ? & _ & Hrun); [|apply no_exit_read_resampled].
  done.
Qed.

(** Every [SystemExit] of [processor_rgbn]. *)
Lemma processor_rgbn_exit args w w' msg :
  processor_rgbn fl ov args w = (w', Raise (SystemExit msg)) →
  (invalid_path fl w (product_path args) ∧ w' = w) ∨
  (∃ granule,
     fnmatch (fold_case fl) "*L2A*" (path_name granule) = true ∧
     contains "L2A" (path_name granule) = false ∧
     msg = l2a_message fl granule).
Proof.
  unfold processor_rgbn.
  intros [Hread|([[out safe_path] t] & w1 & _ & Hrun)]%bind_Raise.
  { by apply processor_rgbn_read_exit in Hread. }
  exfalso.
  apply bind_exit in Hrun as (stack & w2 & _ & Hrun);
    [|unfold processor_rgbn_sort; apply no_exit_sort_tier].
  unfold processor_rgbn_export in Hrun.
  apply bind_exit in Hrun as (kwargs & w3 & _ & Hrun); [|apply no_exit_bound].
  by apply no_exit_export in Hrun.
Qed.



End exits.

(** ** Theorems about the processors *)

(** C8 (as amended: case-sensitive matching).  With the POSIX flavour, a
    granule that the lookup selects has [L2A] in its name, so the test
    passes, and neither processor raises [SystemExit] for it. *)
Theorem l2a_branch_unreachable_posix ov engine args w :
  (∀ safe_path w' granule,
     find_granule PosixFlavour safe_path w = (w', Ok granule) →
     contains "L2A" (path_name granule) = true ∧
     l2a_guard PosixFlavour granule w' = (w', Ok tt)) ∧
  (∀ w' msg,
     processor_all PosixFlavour ov engine args w = (w', Raise (SystemExit msg)) →
     invalid_path PosixFlavour w (product_path args) ∨
     invalid_resample (resample args)) ∧
  (∀ w' msg,
     processor_rgbn PosixFlavour ov args w = (w', Raise (SystemExit msg)) →
     invalid_path PosixFlavour w (product_path args)).
Proof.
  split_and!.
  - intros safe_path w' granule [_ Hmatch%fnmatch_L2A_contains]%find_granule_matches.
    split; [done|]. unfold l2a_guard. by rewrite Hmatch.
  - intros w' msg [[? _]|[(granule & Hmatch & Hname & _)|[? _]]]%processor_all_exit;
      [by left| |by right].
    apply fnmatch_L2A_contains in Hmatch. congruence.
  - intros w' msg [[? _]|(granule & Hmatch & Hname & _)]%processor_rgbn_exit; [done|].
    apply fnmatch_L2A_contains in Hmatch. congruence.
Qed.

(** The export of an unbound stack. *)
Lemma export_unbound fl d n new_kwargs xml pyramids w :
  ∃ w' e,
    export fl None (d ++ [n]) new_kwargs xml pyramids w = (w', Raise e) ∧
    (e = UnboundLocalError ∨ (xml = false ∧ e = RasterioIOError)) ∧
    (fs_lookup fl w' (d ++ [n]) = fs_lookup fl w (d ++ [n]) ∨
     fs_lookup fl w' (d ++ [n]) = Some (Raster new_kwargs None)).
Proof.
  unfold export. destruct xml.
  - exists w, UnboundLocalError. split_and!; [done|by left|by left].
  - unfold bind at 1. unfold ret at 1. unfold bind at 1.
    destruct (raster_create fl _ _ w) as [w2 [[]|e|]] eqn:Hcreate.
    + exists w2, UnboundLocalError. split_and!; [done|by left|].
      right. by apply raster_create_lookup in Hcreate as [? _].
    + apply raster_create_Raise_exn in Hcreate as [-> ->].
      exists w, RasterioIOError. split_and!; [done|by right|by left].
    + exfalso. revert Hcreate. unfold raster_create, fs_put.
      repeat case_match; discriminate.
Qed.

(** C9.  When the transforms of the resampled 20m and 60m stacks are not
    equal, [stack] stays unbound and the run raises: [UnboundLocalError]
    where [stack] is first read, or [RasterioIOError] when, without the
    statistics, the output dataset cannot be opened.  No band is written to
    the output file: it is as it was, or a dataset just created and
    empty. *)
Theorem unequal_transforms_write_no_product fl ov engine args w w1 st :
  processor_all_front fl ov engine args w = (w1, Ok st) →
  transform_eq engine (mi_transform_20m st) (mi_transform_60m st) = false →
  merge engine st w1 = (w1, Ok None) ∧
  ∃ w' e,
    processor_all fl ov engine args w = (w', Raise e) ∧
    (e = UnboundLocalError ∨ (xml args = false ∧ e = RasterioIOError)) ∧
    (fs_lookup fl w' (name_output_all args st) = fs_lookup fl w1 (name_output_all args st) ∨
     fs_lookup fl w' (name_output_all args st) =
       Some (Raster (update_kwargs (mi_src_10m_kwargs st) 12) None)).
Proof.
  intros Hfront Hneq.
  assert (Hmerge : merge engine st w1 = (w1, Ok None)).
  { unfold merge. by rewrite Hneq. }
  split; [done|].
  unfold processor_all. rewrite (bind_run_Ok _ _ _ _ _ Hfront).
  unfold processor_all_back. rewrite (bind_run_Ok _ _ _ _ _ Hmerge).
  unfold name_output_all.
  destruct (export_unbound fl (mi_output_folder_path st)
              (str_drop_last (path_name (mi_safe_path st)) 5 +:+ "_" +:+
               upper (resample args) +:+ "_STACK_ALL.tif")
              (update_kwargs (mi_src_10m_kwargs st) 12) (xml args) (pyramids args) w1)
    as (w' & e & Hexport & He & Hfile).
  exists w', e. split_and!; [|done..].
  by rewrite (bind_run_Raise _ _ _ _ _ Hexport).
Qed.

(** ** The processors on the concrete product *)


Lemma misaligned_front_Ok :
  processor_all_front PosixFlavour Wraps example_engine (example_args "nearest" false)
    misaligned_world
  = (misaligned_front.1, Ok misaligned_state).
Proof. by vm_compute. Qed.

(** C8, witness: the granule of the concrete product. *)
Lemma l2a_branch_unreachable_posix_witness :
  contains "L2A" "L2A_T34SGH_A039000_20230101T092401" = true ∧
  l2a_guard PosixFlavour
    (safe_example ++ ["GRANULE"; "L2A_T34SGH_A039000_20230101T092401"]) example_world
  = (example_world, Ok tt).
Proof.
  apply (proj1 (l2a_branch_unreachable_posix Wraps example_engine
                  (example_args "nearest" true) example_world)
           safe_example example_world
           (safe_example ++ ["GRANULE"; "L2A_T34SGH_A039000_20230101T092401"])).
  by vm_compute.
Defined.

(** C8, counterexample: on the Windows flavour the pattern [*L2A*] selects
    a granule directory written in lower case; [L2A] is not in its name,
    and both processors raise the [SystemExit] of the test. *)
Lemma l2a_branch_reached_on_windows :
  find_granule WindowsFlavour safe_example lowercase_world
    = (lowercase_world,
       Ok (safe_example ++ ["GRANULE"; "l2a_t34sgh_a039000_20230101t092401"])) ∧
  contains "L2A" "l2a_t34sgh_a039000_20230101t092401" = false ∧
  (processor_all WindowsFlavour Wraps example_engine (example_args "nearest" true)
     lowercase_world).2
    = Raise (SystemExit
               (l2a_message WindowsFlavour
                  (safe_example ++ ["GRANULE"; "l2a_t34sgh_a039000_20230101t092401"]))) ∧
  (processor_rgbn WindowsFlavour Wraps (example_args "nearest" true) lowercase_world).2
    = Raise (SystemExit
               (l2a_message WindowsFlavour
                  (safe_example ++ ["GRANULE"; "l2a_t34sgh_a039000_20230101t092401"]))).
Proof. split_and!; by vm_compute. Qed.

(** C9, witness: the product whose 60m bands are georeferenced elsewhere,
    run without the statistics. *)
Lemma unequal_transforms_write_no_product_witness :
  merge example_engine misaligned_state misaligned_front.1
    = (misaligned_front.1, Ok None) ∧
  ∃ w' e,
    processor_all PosixFlavour Wraps example_engine (example_args "nearest" false)
      misaligned_world = (w', Raise e) ∧
    (e = UnboundLocalError ∨
     (xml (example_args "nearest" false) = false ∧ e = RasterioIOError)) ∧
    (fs_lookup PosixFlavour w'
       (name_output_all (example_args "nearest" false) misaligned_state)
     = fs_lookup PosixFlavour misaligned_front.1
         (name_output_all (example_args "nearest" false) misaligned_state) ∨
     fs_lookup PosixFlavour w'
       (name_output_all (example_args "nearest" false) misaligned_state)
     = Some (Raster (update_kwargs (mi_src_10m_kwargs misaligned_state) 12) None)).
Proof.
  apply (unequal_transforms_write_no_product PosixFlavour Wraps example_engine
           (example_args "nearest" false) misaligned_world
           misaligned_front.1 misaligned_state).
  - exact misaligned_front_Ok.
  - by vm_compute.
Defined.

(** * More about [stack_sort] (utils.py, lines 82-106) *)

(** ** The scan on any code list of at most 256 codes *)

(** Positions below 256 fit the index array: the scan never overflows. *)
Lemma scan_pure_no_overflow ov codes sorted :
  length codes ≤ 256 →
  ∀ fuel count cs carr,
    (scan_pure ov fuel codes sorted (length codes) count cs carr).2
      ≠ Raise OverflowError.
Proof.
  intros Hn. induction fuel as [|fuel IH]; intros count cs carr; simpl; [done|].
  case_decide; [|done].
  destruct (codes !! count) as [code|] eqn:Ecode; [|done].
  destruct (sorted !! cs) as [target|]; [|done].
  case_decide; [|apply IH].
  apply lookup_lt_Some in Ecode.
  unfold setitem_pure. case_decide; [|done].
  case_decide as Hcast; [apply IH|].
  exfalso. apply Hcast. simpl. apply Z.mod_small. lia.
Qed.

(** A scan that ends has found every target it was asked for. *)
Lemma scan_pure_Ok_inv ov codes sorted len :
  ∀ fuel count cs carr carr',
    scan_pure ov fuel codes sorted len count cs carr = (carr', Ok tt) →
    ∀ i, cs ≤ i < len → ∃ t, sorted !! i = Some t ∧ t ∈ codes.
Proof.
  induction fuel as [|fuel IH]; intros count cs carr carr'; simpl; [done|].
  case_decide as Hcs; [|intros _ i Hi; lia].
  destruct (codes !! count) as [code|] eqn:Ecode; [|done].
  destruct (sorted !! cs) as [target|] eqn:Etarget; [|done].
  case_decide as Heq.
  - destruct (setitem_pure ov uint8 carr cs (Z.of_nat count)) as [carr1 [[]| |]];
      [|done..].
    intros Hrun i Hi. destruct (decide (i = cs)) as [->|Hne].
    + exists target. split; [done|]. subst code. by eapply list_elem_of_lookup_2.
    + eapply IH; [exact Hrun|lia].
  - intros Hrun i Hi. eapply IH; [exact Hrun|done].
Qed.

(** The scan writes the slot of the target it is at, and the slots after. *)
Lemma scan_pure_keeps ov codes sorted len i :
  ∀ fuel count cs c1 c2 r,
    i < cs →
    scan_pure ov fuel codes sorted len count cs c1 = (c2, r) →
    c1 !! i = c2 !! i.
Proof.
  induction fuel as [|fuel IH]; intros count cs c1 c2 r Hlt; simpl;
    [by intros [= -> _]|].
  case_decide; [|by intros [= -> _]].
  destruct (codes !! count); [|by intros [= -> _]].
  destruct (sorted !! cs); [|by intros [= -> _]].
  case_decide; [|by apply IH].
  unfold setitem_pure. case_decide; [|by intros [= -> _]].
  case_decide.
  - intros Hrun. apply IH in Hrun; [|lia]. rewrite <- Hrun.
    by rewrite list_lookup_insert_ne by lia.
  - destruct ov; [|by intros [= -> _]].
    intros Hrun. apply IH in Hrun; [|lia]. rewrite <- Hrun.
    by rewrite list_lookup_insert_ne by lia.
Qed.

(** The scan finds the first position of every target that the code list
    holds. *)
Lemma scan_pure_first ov codes sorted :
  length codes ≤ 256 →
  ∀ k cs fuel carr,
    cs + k = length codes → length carr = length codes →
    k * length codes + 1 ≤ fuel →
    (∀ i, cs ≤ i < length codes → ∃ t, sorted !! i = Some t ∧ t ∈ codes) →
    ∃ carr',
      scan_pure ov fuel codes sorted (length codes) 0 cs carr = (carr', Ok tt) ∧
      length carr' = length codes ∧
      (∀ i t, cs ≤ i < length codes → sorted !! i = Some t →
         ∃ p, linear_scan t codes = Some p ∧ carr' !! i = Some (Z.of_nat p)).
Proof.
  intros Hn. induction k as [|k IH]; intros cs fuel carr Hk Hcarr Hfuel Hall.
  - exists carr. destruct fuel as [|fuel]; [lia|]. simpl.
    case_decide; [lia|]. split_and!; [done..|]. intros i t Hi. lia.
  - destruct (Hall cs) as (t & Ht & [p Hp]%linear_scan_elem_of); [lia|].
    pose proof Hp as [Hpt Hfirst]%linear_scan_Some.
    pose proof (lookup_lt_Some _ _ _ Hpt) as Hplt.
    replace fuel with (S p + (fuel - S p)) by nia.
    rewrite (scan_pure_find ov codes sorted cs t p) with (d := p);
      [|lia|done|done|lia|lia|lia|intros j Hj; apply Hfirst; lia].
    destruct (IH (cs + 1) (fuel - S p) (<[cs := Z.of_nat p]> carr))
      as (carr' & Hrun & Hlen' & Hnew);
      [lia|by rewrite length_insert|nia|intros i Hi; apply Hall; lia|].
    exists carr'. split_and!; [done|done|].
    intros i t' Hi Hit'. destruct (decide (i = cs)) as [->|Hne].
    + assert (t' = t) as -> by congruence. exists p. split; [done|].
      apply (scan_pure_keeps _ _ _ _ cs) in Hrun; [|lia]. rewrite <- Hrun.
      apply list_lookup_insert_eq. lia.
    + apply Hnew; [lia|done].
Qed.

(** ** The copy *)

(** The copy leaves the slots past the last one it writes as they were. *)
Lemma copy_pure_rest src carr :
  ∀ todo sb dst i,
    sb + todo ≤ i → (copy_pure todo src carr sb dst).1 !! i = dst !! i.
Proof.
  induction todo as [|todo IH]; intros sb dst i Hi; simpl; [done|].
  destruct (carr !! sb); [|done]. destruct (src !! _); [|done].
  case_decide; [|done].
  rewrite IH by lia. by rewrite list_lookup_insert_ne by lia.
Qed.

(** A copy that ends has written slots that the output has. *)
Lemma copy_pure_Ok_length src carr :
  ∀ todo sb dst dst',
    copy_pure todo src carr sb dst = (dst', Ok tt) →
    todo = 0 ∨ sb + todo ≤ length dst.
Proof.
  induction todo as [|todo IH]; intros sb dst dst'; simpl; [by left|].
  destruct (carr !! sb); [|done]. destruct (src !! _); [|done].
  case_decide; [|done].
  intros [->|Hle]%IH; right; [lia|]. rewrite length_insert in Hle. lia.
Qed.

(** ** Theorems *)

(** A call that returns had [sortable] arguments. *)
Lemma sort_outcome_Ok_sortable ov a codes sorted :
  (sort_outcome ov a codes sorted).2 = Ok tt → sortable a codes sorted.
Proof.
  unfold sort_outcome.
  destruct (scan_pure _ _ _ _ _ _ _ _) as [carr [[]|e|]] eqn:Hscan; [|done..].
  destruct (copy_pure _ _ _ _ _) as [dst r] eqn:Hcopy. simpl. intros ->.
  split.
  - apply copy_pure_Ok_length in Hcopy as [Hz|Hle]; [lia|].
    unfold zeros3 in Hle. rewrite length_replicate in Hle. lia.
  - intros i Hi. eapply scan_pure_Ok_inv; [exact Hscan|lia].
Qed.

(** The outcome of a call in terms of [sortable]. *)
Lemma sort_outcome_sortable ov a codes sorted :
  length codes ≤ 256 →
  (sortable a codes sorted →
   ∃ dst carr,
     sort_outcome ov a codes sorted =
       ([Nd3 (NdArray uint16 (row a) (column a) dst); Nd1 uint8 carr], Ok tt) ∧
     length dst = length (bands a) ∧
     (∀ i t p, i < length codes → sorted !! i = Some t →
        linear_scan t codes = Some p →
        dst !! i = cast_plane uint16 <$> bands a !! p) ∧
     (∀ i, length codes ≤ i < length (bands a) →
        dst !! i = Some (replicate (row a) (replicate (column a) 0%Z)))) ∧
  (¬ sortable a codes sorted →
   (sort_outcome ov a codes sorted).2 = Raise IndexError).
Proof.
  intros Hn. split.
  - intros [Hslots Hall]. unfold sort_outcome.
    destruct (scan_pure_first ov codes sorted Hn (length codes) 0
                (scan_fuel (length codes)) (replicate (length codes) 0%Z))
      as (carr & Hscan & Hcarr & Hpos);
      [lia|by rewrite length_replicate|unfold scan_fuel; lia|
       intros i Hi; apply Hall; lia|].
    rewrite Hscan.
    assert (Hidx : ∀ i, i < length codes →
              ∃ t p pl, sorted !! i = Some t ∧ linear_scan t codes = Some p ∧
                        carr !! i = Some (Z.of_nat p) ∧ bands a !! p = Some pl).
    { intros i Hi. destruct (Hall i Hi) as (t & Ht & _).
      destruct (Hpos i t) as (p & Hp & Hcp); [lia|done|].
      pose proof Hp as [Hp' _]%linear_scan_Some. apply lookup_lt_Some in Hp'.
      destruct (lookup_lt_is_Some_2 (bands a) p) as [pl Hpl]; [lia|].
      by exists t, p, pl. }
    destruct (copy_pure_ok (bands a) carr (length codes) 0
                (zeros3 (length (bands a)) (row a) (column a)))
      as (dst & Hcopy & Hdst & _ & Hnew).
    { unfold zeros3. rewrite length_replicate. lia. }
    { intros i Hi. destruct (Hidx i) as (t & p & pl & _ & _ & Hcp & Hpl); [lia|].
      exists (Z.of_nat p), pl. by rewrite Nat2Z.id. }
    rewrite Hcopy. exists dst, carr. split_and!; [done|..].
    + rewrite Hdst. unfold zeros3. by rewrite length_replicate.
    + intros i t p Hi Ht Hp.
      destruct (Hidx i Hi) as (t' & p' & pl & Ht' & Hp' & Hcp & Hpl).
      assert (t' = t) as -> by congruence. assert (p' = p) as -> by congruence.
      rewrite Hpl. simpl. apply (Hnew i (Z.of_nat p) pl); [lia|done|].
      by rewrite Nat2Z.id.
    + intros i Hi.
      pose proof (copy_pure_rest (bands a) carr (length codes) 0
                    (zeros3 (length (bands a)) (row a) (column a)) i) as Hrest.
      rewrite Hcopy in Hrest. simpl in Hrest. rewrite Hrest by lia.
      unfold zeros3. apply lookup_replicate_2. lia.
  - intros Hnot.
    destruct ((sort_outcome ov a codes sorted).2) as [[]|e|] eqn:Hout.
    + exfalso. apply Hnot. eapply sort_outcome_Ok_sortable. exact Hout.
    + f_equal. revert Hout. unfold sort_outcome.
      destruct (scan_pure _ _ _ _ _ _ _ _) as [carr [[]|e'|]] eqn:Hscan.
      * destruct (copy_pure _ _ _ _ _) as [dst r] eqn:Hcopy. simpl. intros ->.
        eapply copy_pure_exn. by rewrite Hcopy.
      * simpl. intros [= ->].
        pose proof (scan_pure_exn ov codes sorted (length codes) _ _ _ _ e
                      ltac:(by rewrite Hscan)) as [->| ->]; [done|].
        exfalso. eapply (scan_pure_no_overflow ov codes sorted Hn). by rewrite Hscan.
      * done.
    + exfalso.
      pose proof (stack_sort_total ov
                    [Nd3 a; PyList codes; PyList sorted] 0 1 2) as Htotal.
      rewrite (stack_sort_run ov _ 0 1 2 a codes sorted) in Htotal by done.
      simpl in Htotal. by rewrite Hout in Htotal.
Qed.

(** X1.  For a code list of at most 256 codes, not more than the stack has
    bands, whose first canonical codes all occur in it, [stack_sort]
    returns a new uint16 array of the input's shape: slot [i] holds the
    band at the FIRST position of the [i]-th canonical code in the code
    list, converted to uint16 (so a code that occurs twice gives its first
    band and the second is dropped), and the slots from [len(code_list)]
    on, for which no code was given, stay zero.  Canonical codes past
    [len(code_list)] are not looked at. *)
Theorem stack_sort_first_occurrence ov (h : heap) lst lc ls a codes sorted :
  h !! lst = Some (Nd3 a) →
  h !! lc = Some (PyList codes) →
  h !! ls = Some (PyList sorted) →
  length codes ≤ 256 →
  sortable a codes sorted →
  ∃ h' l out,
    stack_sort ov lst lc ls h = (h', Ok l) ∧
    h' !! l = Some (Nd3 out) ∧
    nd_dtype out = uint16 ∧ shape out = shape a ∧
    (∀ i t p, i < length codes → sorted !! i = Some t →
       linear_scan t codes = Some p →
       bands out !! i = cast_plane uint16 <$> bands a !! p) ∧
    (∀ i, length codes ≤ i < length (bands a) →
       bands out !! i = Some (replicate (row a) (replicate (column a) 0%Z))).
Proof.
  intros Hst Hc Hs Hn Hsortable.
  rewrite (stack_sort_run ov h lst lc ls a codes sorted) by done.
  destruct (proj1 (sort_outcome_sortable ov a codes sorted Hn) Hsortable)
    as (dst & carr & -> & Hlen & Hfirst & Hzero).
  simpl. eexists _, _, _. split; [reflexivity|]. split.
  { rewrite lookup_app_r by lia. by rewrite Nat.sub_diag. }
  split_and!; [done| |done..].
  unfold shape. simpl. by rewrite Hlen.
Qed.

(** X2.  For a code list of at most 256 codes, [stack_sort] returns exactly
    when the arguments are [sortable]; otherwise it raises [IndexError],
    whatever numpy does on overflow: when the code list is longer than the
    stack has bands, when the canonical list is shorter than the code
    list, and when one of the first [len(code_list)] canonical codes is
    not in the code list.  The objects of the store are as they were. *)
Theorem stack_sort_IndexError ov (h : heap) lst lc ls a codes sorted :
  h !! lst = Some (Nd3 a) →
  h !! lc = Some (PyList codes) →
  h !! ls = Some (PyList sorted) →
  length codes ≤ 256 →
  ((∃ h' l, stack_sort ov lst lc ls h = (h', Ok l)) ↔ sortable a codes sorted) ∧
  (¬ sortable a codes sorted →
   ∃ h', stack_sort ov lst lc ls h = (h', Raise IndexError) ∧
         ∀ l o, h !! l = Some o → h' !! l = Some o) ∧
  (length (bands a) < length codes ∨
   length sorted < length codes ∨
   (∃ i t, i < length codes ∧ sorted !! i = Some t ∧ t ∉ codes) →
   ¬ sortable a codes sorted).
Proof.
  intros Hst Hc Hs Hn.
  rewrite (stack_sort_run ov h lst lc ls a codes sorted) by done.
  destruct (sort_outcome_sortable ov a codes sorted Hn) as [Hyes Hno].
  split_and!.
  - split.
    + intros (h' & l & Hrun). apply (sort_outcome_Ok_sortable ov).
      destruct ((sort_outcome ov a codes sorted).2) as [[]|e|]; [done|done..].
    + intros (dst & carr & -> & _)%Hyes. simpl. eauto.
  - intros Hnot%Hno. rewrite Hnot. eexists. split; [reflexivity|].
    intros l o Hl. rewrite lookup_app_l; [done|]. by eapply lookup_lt_Some.
  - intros [Hlt|[Hlt|(i & t & Hi & Ht & Hnotin)]] [Hle Hall].
    + lia.
    + destruct (Hall (length sorted) Hlt) as (t & Ht & _).
      apply lookup_lt_Some in Ht. lia.
    + destruct (Hall i Hi) as (t' & Ht' & Hin). congruence.
Qed.

(** With wrap-around the scan never raises [OverflowError]. *)
Lemma scan_pure_Wraps codes sorted len :
  ∀ fuel count cs carr,
    (scan_pure Wraps fuel codes sorted len count cs carr).2 ≠ Raise OverflowError.
Proof.
  induction fuel as [|fuel IH]; intros count cs carr; simpl; [done|].
  case_decide; [|done].
  destruct (codes !! count); [|done]. destruct (sorted !! cs); [|done].
  case_decide; [|apply IH].
  unfold setitem_pure. case_decide; [|done]. case_decide; apply IH.
Qed.

(** X3.  [stack_sort] ends on every store and for all arguments: the
    [while] loop has no bound of its own, but a scan that does not find its
    target runs into [code_list[len]] and raises, so the loop does at most
    [len * (len + 2) + 1] rounds.  Called on a 3-D array and two lists it
    raises nothing but [IndexError] and [OverflowError], the latter only
    where numpy raises on overflow and the code list has more than 256
    codes. *)
Theorem stack_sort_terminates ov (h : heap) lst lc ls :
  (∃ h', (∃ l, stack_sort ov lst lc ls h = (h', Ok l)) ∨
         (∃ e, stack_sort ov lst lc ls h = (h', Raise e))) ∧
  (∀ a codes sorted h' e,
     h !! lst = Some (Nd3 a) →
     h !! lc = Some (PyList codes) →
     h !! ls = Some (PyList sorted) →
     stack_sort ov lst lc ls h = (h', Raise e) →
     e = IndexError ∨
     (e = OverflowError ∧ ov = Raises ∧ 256 < length codes)).
Proof.
  split.
  - pose proof (stack_sort_total ov h lst lc ls) as Htotal.
    destruct (stack_sort ov lst lc ls h) as [h' [l|e|]]; [eauto..|done].
  - intros a codes sorted h' e Hst Hc Hs.
    rewrite (stack_sort_run ov h lst lc ls a codes sorted) by done.
    destruct ((sort_outcome ov a codes sorted).2) as [[]|e'|] eqn:Hout; [done| |done].
    intros [= _ ->].
    destruct (sort_outcome_exn ov a codes sorted e Hout) as [->| ->]; [by left|].
    right. split; [done|].
    revert Hout. unfold sort_outcome.
    destruct (scan_pure _ _ _ _ _ _ _ _) as [carr [[]|e'|]] eqn:Hscan.
    + destruct (copy_pure _ _ _ _ _) as [dst r] eqn:Hcopy. simpl. intros ->.
      pose proof (copy_pure_exn (bands a) carr (length codes) 0 _ OverflowError
                    ltac:(by rewrite Hcopy)).
      discriminate.
    + simpl. intros [= ->]. split.
      * destruct ov; [|done]. exfalso.
        eapply (scan_pure_Wraps codes sorted). by rewrite Hscan.
      * destruct (decide (length codes ≤ 256)) as [Hn|]; [|lia]. exfalso.
        eapply (scan_pure_no_overflow ov codes sorted Hn). by rewrite Hscan.
    + done.
Qed.

(** ** Concrete calls *)

(** X1, witness: slots 0 and 2 both hold the band at the first [02],
    slot 1 holds 70000 reduced to uint16, slot 3 stays zero. *)
Lemma stack_sort_first_occurrence_witness :
  ∃ h' l out,
    stack_sort Wraps 0 1 2 heap_dup_example = (h', Ok l) ∧
    h' !! l = Some (Nd3 out) ∧
    nd_dtype out = uint16 ∧ shape out = shape stack_dup_example ∧
    (∀ i t p, i < length code_dup_example → sorted_dup_example !! i = Some t →
       linear_scan t code_dup_example = Some p →
       bands out !! i = cast_plane uint16 <$> bands stack_dup_example !! p) ∧
    (∀ i, length code_dup_example ≤ i < length (bands stack_dup_example) →
       bands out !! i = Some (replicate (row stack_dup_example)
                                (replicate (column stack_dup_example) 0%Z))).
Proof.
  apply (stack_sort_first_occurrence Wraps heap_dup_example 0 1 2
           stack_dup_example code_dup_example sorted_dup_example).
  - reflexivity.
  - reflexivity.
  - reflexivity.
  - simpl. lia.
  - split; [simpl; lia|].
    intros [|[|[|i]]] Hi; simpl in Hi; [| | |lia];
      eexists; (split; [reflexivity|]); apply (bool_decide_unpack _); by vm_compute.
Defined.

(** X2, witness: three codes against the two of the 60m list. *)
Lemma stack_sort_IndexError_witness :
  ∃ h', stack_sort Wraps 0 1 2 heap_b10_example = (h', Raise IndexError) ∧
        ∀ l o, heap_b10_example !! l = Some o → h' !! l = Some o.
Proof.
  destruct (stack_sort_IndexError Wraps heap_b10_example 0 1 2 stack_b10_example
              ["01"; "09"; "10"] sorted_list_60m eq_refl eq_refl eq_refl)
    as (_ & Hraise & Hnot).
  - simpl. lia.
  - apply Hraise, Hnot. right; left. simpl. lia.
Defined.

(** X3, witness: the call on the 60m tier with band 10. *)
Lemma stack_sort_terminates_witness :
  ∃ h', stack_sort Raises 0 1 2 heap_b10_example = (h', Raise IndexError) ∧
        (IndexError = IndexError ∨
         (IndexError = OverflowError ∧ Raises = Raises ∧ 256 < 3)).
Proof.
  eexists. split; [reflexivity|].
  exact (proj2 (stack_sort_terminates Raises heap_b10_example 0 1 2)
           stack_b10_example ["01"; "09"; "10"] sorted_list_60m _ IndexError
           eq_refl eq_refl eq_refl eq_refl).
Defined.

(** * More about the merge step (processors.py, lines 239-271) *)

Lemma length_take_1_drop {A} k (l : list A) :
  length (take 1 (drop k l)) = Nat.min 1 (length l - k).
Proof. by rewrite length_take, length_drop. Qed.

(** X4.  The merge succeeds exactly when the three stacks agree in rows
    and columns, whatever their band counts; [np.concatenate] raises
    [ValueError] otherwise.  The merged array has those rows and columns,
    and uint16 elements when the three stacks have. *)
Theorem merge_stack_same_pixel_grid d10 d20 d60 :
  ((row d10 = row d60 ∧ column d10 = column d60 ∧
    row d20 = row d60 ∧ column d20 = column d60) ↔
   ∃ out, merge_stack d10 d20 d60 = Ok out) ∧
  (¬ (row d10 = row d60 ∧ column d10 = column d60 ∧
      row d20 = row d60 ∧ column d20 = column d60) →
   merge_stack d10 d20 d60 = Raise ValueError) ∧
  (∀ out, merge_stack d10 d20 d60 = Ok out →
     row out = row d60 ∧ column out = column d60 ∧
     (nd_dtype d10 = uint16 → nd_dtype d20 = uint16 → nd_dtype d60 = uint16 →
      nd_dtype out = uint16)).
Proof.
  assert (Hinv : ∀ out, merge_stack d10 d20 d60 = Ok out →
            (row d10 = row d60 ∧ column d10 = column d60 ∧
             row d20 = row d60 ∧ column d20 = column d60) ∧
            row out = row d60 ∧ column out = column d60 ∧
            (nd_dtype d10 = uint16 → nd_dtype d20 = uint16 → nd_dtype d60 = uint16 →
             nd_dtype out = uint16)).
  { intros out. unfold merge_stack, np_concatenate.
    destruct (forallb _ _) eqn:Hall; [|done]. intros [= <-].
    simpl in Hall. unfold same_plane_shape in Hall. simpl in Hall.
    rewrite !andb_true_iff in Hall.
    destruct Hall as (H1 & _ & _ & H2 & _).
    apply bool_decide_eq_true in H1 as [? ?]. apply bool_decide_eq_true in H2 as [? ?].
    split_and!; [congruence..|done|done|].
    simpl. by intros -> -> ->. }
  split_and!.
  - split.
    + intros (? & ? & ? & ?).
      destruct (merge_stack_same_shape d10 d20 d60) as (out & Hout & _); [done..|].
      by exists out.
    + intros [out Hout]. by apply Hinv in Hout as [? _].
  - intros Hnot. unfold merge_stack, np_concatenate.
    destruct (forallb _ _) eqn:Hall; [|done].
    exfalso. apply Hnot. eapply Hinv. unfold merge_stack, np_concatenate.
    by rewrite Hall.
  - intros out Hout. by apply Hinv in Hout as [_ ?].
Qed.

(** X5.  The merge takes at most 4, 6 and 2 bands of the three stacks: a
    slice past the end of a stack is empty, not an error.  A merged stack
    has therefore at most 12 bands, 12 exactly when every stack has at
    least its expected count (further bands are dropped); with fewer the
    write to the 12-band output dataset raises [ValueError]. *)
Theorem merge_stack_band_count fl d10 d20 d60 out :
  merge_stack d10 d20 d60 = Ok out →
  length (bands out) =
    Nat.min 4 (length (bands d10)) + Nat.min 6 (length (bands d20)) +
    Nat.min 2 (length (bands d60)) ∧
  (length (bands out) = 12 ↔
   4 ≤ length (bands d10) ∧ 6 ≤ length (bands d20) ∧ 2 ≤ length (bands d60)) ∧
  (length (bands out) ≠ 12 →
   ∀ p kwargs w,
     raster_write fl p (update_kwargs kwargs 12) out w = (w, Raise ValueError)).
Proof.
  intros Hout%merge_stack_bands.
  assert (Hlen : length (bands out) =
            Nat.min 4 (length (bands d10)) + Nat.min 6 (length (bands d20)) +
            Nat.min 2 (length (bands d60))).
  { rewrite Hout. rewrite !length_app.
    rewrite !length_take_1_drop. rewrite !length_take.
    destruct (length (bands d10)) as [|[|[|[|n10]]]],
             (length (bands d20)) as [|[|[|[|[|[|n20]]]]]],
             (length (bands d60)) as [|[|n60]]; reflexivity. }
  split_and!; [done|lia|].
  intros Hne p kwargs w. unfold raster_write.
  change (count (update_kwargs kwargs 12)) with 12.
  destruct (decide (length (bands out) = 12)) as [Heq|_]; [by destruct Hne|].
  reflexivity.
Qed.

(** X5, witness: a 20m stack without its sixth band. *)
Lemma merge_stack_band_count_witness :
  ∃ out,
    merge_stack merge_10m_example
      (NdArray uint16 1 1 [pixel 5; pixel 6; pixel 7; pixel 11; pixel 12])
      merge_60m_example = Ok out ∧
    length (bands out) = 11.
Proof.
  eexists. split; [reflexivity|].
  exact (proj1 (merge_stack_band_count PosixFlavour merge_10m_example
                  (NdArray uint16 1 1 [pixel 5; pixel 6; pixel 7; pixel 11; pixel 12])
                  merge_60m_example _ eq_refl)).
Defined.

(** X4, witness: the three example stacks. *)
Lemma merge_stack_same_pixel_grid_witness :
  ∃ out, merge_stack merge_10m_example merge_20m_example merge_60m_example = Ok out.
Proof.
  apply (proj1 (proj1 (merge_stack_same_pixel_grid merge_10m_example merge_20m_example
                         merge_60m_example))).
  by vm_compute.
Defined.

(** * Names and suffixes *)

(** ** Substrings *)

Lemma string_length_app a b :
  String.length (a +:+ b) = String.length a + String.length b.
Proof. induction a as [|c a IH]; simpl; [done|]. by rewrite IH. Qed.

Lemma substring_0_length s : substring 0 (String.length s) s = s.
Proof. induction s as [|c s IH]; simpl; [done|]. by rewrite IH. Qed.

Lemma substring_0_app pre s : substring 0 (String.length pre) (pre +:+ s) = pre.
Proof.
  induction pre as [|c pre IH]; simpl; [by destruct s|]. by rewrite IH.
Qed.

Lemma substring_app_l pre s n :
  substring (String.length pre) n (pre +:+ s) = substring 0 n s.
Proof. induction pre as [|c pre IH]; simpl; [done|]. exact IH. Qed.

Lemma substring_split s :
  ∀ i, i ≤ String.length s →
    s = substring 0 i s +:+ substring i (String.length s - i) s.
Proof.
  induction s as [|c s IH]; intros [|i] Hi; simpl in *; try done; try lia.
  - by rewrite substring_0_length.
  - change (String c s = String c
              (substring 0 i s +:+ substring i (String.length s - i) s)).
    f_equal. apply IH. lia.
Qed.

Lemma length_substring s :
  ∀ i n, i + n ≤ String.length s → String.length (substring i n s) = n.
Proof.
  induction s as [|c s IH]; intros [|i] [|n] Hi; simpl in *; try done; try lia.
  - f_equal. apply (IH 0 n). lia.
  - apply (IH i 0). lia.
  - apply (IH i (S n)). lia.
Qed.

Lemma str_drop_last_app stem sfx :
  str_drop_last (stem +:+ sfx) (String.length sfx) = stem.
Proof.
  unfold str_drop_last. rewrite string_length_app.
  replace (String.length stem + String.length sfx - String.length sfx)
    with (String.length stem) by lia.
  apply substring_0_app.
Qed.

Lemma str_drop_last_0 s : str_drop_last s 0 = s.
Proof. unfold str_drop_last. rewrite Nat.sub_0_r. apply substring_0_length. Qed.

(** ** The last dot *)

Lemma rfind_dot_bound s :
  ∀ i j, rfind_dot s i = Some j → i ≤ j < i + String.length s.
Proof.
  induction s as [|c s IH]; intros i j; simpl; [done|].
  destruct (rfind_dot s (S i)) as [j'|] eqn:E.
  - intros [= <-]. apply IH in E. lia.
  - destruct (Ascii.eqb c "."); [|done]. intros [= <-]. lia.
Qed.

Lemma rfind_dot_shift s :
  ∀ i, rfind_dot s i = (λ j, j + i) <$> rfind_dot s 0.
Proof.
  induction s as [|c s IH]; intros i; simpl; [done|].
  rewrite (IH (S i)), (IH 1).
  destruct (rfind_dot s 0) as [j|]; simpl.
  - f_equal. lia.
  - by destruct (Ascii.eqb c ".").
Qed.

Lemma rfind_dot_app pre s :
  ∀ i, rfind_dot (pre +:+ s) i =
         match rfind_dot s (i + String.length pre) with
         | Some j => Some j
         | None => rfind_dot pre i
         end.
Proof.
  induction pre as [|c pre IH]; intros i.
  - change ("" +:+ s) with s. simpl. rewrite Nat.add_0_r.
    by destruct (rfind_dot s i).
  - change (String c pre +:+ s) with (String c (pre +:+ s)). simpl.
    rewrite IH. replace (S i + String.length pre) with (i + S (String.length pre)) by lia.
    by destruct (rfind_dot s _).
Qed.

(** ** [suffix] *)

Lemma suffix_app stem sfx :
  stem ≠ "" → is_suffix sfx → suffix (stem +:+ sfx) = sfx.
Proof.
  intros Hstem [Hdot Hlen]. unfold suffix.
  rewrite rfind_dot_app, rfind_dot_shift, Hdot. simpl.
  rewrite string_length_app.
  assert (0 < String.length stem) by (destruct stem; [done|simpl; lia]).
  destruct (0 <? String.length stem) eqn:E1; [|apply Nat.ltb_ge in E1; lia].
  destruct (String.length stem <? String.length stem + String.length sfx - 1) eqn:E2;
    [|apply Nat.ltb_ge in E2; lia].
  simpl. rewrite substring_app_l.
  replace (String.length stem + String.length sfx - String.length stem)
    with (String.length sfx) by lia.
  apply substring_0_length.
Qed.

Lemma suffix_inv name :
  suffix name ≠ "" →
  ∃ stem, name = stem +:+ suffix name ∧ stem ≠ "" ∧ is_suffix (suffix name).
Proof.
  unfold suffix. destruct (rfind_dot name 0) as [i|] eqn:Hdot; [|done].
  destruct (0 <? i) eqn:E1; [|done]. apply Nat.ltb_lt in E1.
  destruct (i <? String.length name - 1) eqn:E2; [|done]. apply Nat.ltb_lt in E2.
  simpl. intros _.
  pose proof (substring_split name i ltac:(lia)) as Hsplit.
  set (stem := substring 0 i name) in *.
  set (sfx := substring i (String.length name - i) name) in *.
  assert (Hstem : String.length stem = i) by (apply length_substring; lia).
  assert (Hsfx : String.length sfx = String.length name - i)
    by (apply length_substring; lia).
  exists stem. split_and!; [done|..].
  - intros Hempty. rewrite Hempty in Hstem. simpl in Hstem. lia.
  - split; [|lia].
    rewrite Hsplit, rfind_dot_app in Hdot. simpl in Hdot. rewrite Hstem in Hdot.
    rewrite rfind_dot_shift in Hdot.
    destruct (rfind_dot sfx 0) as [j|]; simpl in Hdot.
    + f_equal. injection Hdot. lia.
    + apply rfind_dot_bound in Hdot. lia.
Qed.

Lemma is_suffix_zip : is_suffix ".zip".
Proof. split; [reflexivity|simpl; lia]. Qed.

Lemma is_suffix_SAFE : is_suffix ".SAFE".
Proof. split; [reflexivity|simpl; lia]. Qed.

Lemma is_suffix_tif : is_suffix ".tif".
Proof. split; [reflexivity|simpl; lia]. Qed.

Lemma with_suffix_app d stem old new :
  stem ≠ "" → is_suffix old →
  with_suffix (d ++ [stem +:+ old]) new = d ++ [stem +:+ new].
Proof.
  intros Hstem Hold. unfold with_suffix.
  rewrite path_name_app, path_parent_app, suffix_app by done.
  by rewrite str_drop_last_app.
Qed.

Lemma with_suffix_none d name new :
  suffix name = "" → with_suffix (d ++ [name]) new = d ++ [name +:+ new].
Proof.
  intros Hnone. unfold with_suffix.
  rewrite path_name_app, path_parent_app, Hnone. simpl.
  by rewrite str_drop_last_0.
Qed.

Lemma append_empty_r s : s +:+ "" = s.
Proof.
  induction s as [|c s IH]; [done|].
  change (String c s +:+ "") with (String c (s +:+ "")). by rewrite IH.
Qed.

Lemma path_split (p : list string) :
  path_name p ≠ "" → p = path_parent p ++ [path_name p].
Proof.
  intros Hname. unfold path_name, path_parent in *.
  destruct p as [|x p] using rev_ind; [done|].
  by rewrite List.last_last, removelast_last.
Qed.

Lemma append_assoc a b c : (a +:+ b) +:+ c = a +:+ (b +:+ c).
Proof.
  induction a as [|x a IH]; [done|].
  change (String x ((a +:+ b) +:+ c) = String x (a +:+ (b +:+ c))). by rewrite IH.
Qed.

Lemma append_nonempty a b : a ≠ "" → a +:+ b ≠ "".
Proof. by destruct a. Qed.

(** * More about [check_path_validity] (utils.py, lines 46-64) *)

Section path_validity.
Variable fl : flavour.

Lemma check_path_validity_Ok p w w' safe :
  check_path_validity fl p w = (w', Ok safe) →
  (path_suffix p = ".SAFE" ∧ safe = p ∧ w' = w) ∨
  (path_suffix p = ".zip" ∧
   safe = with_suffix (with_suffix p "") ".SAFE" ∧
   zip_extractall fl p (path_parent p) w = (w', Ok tt)).
Proof.
  unfold check_path_validity, bind, path_exists.
  destruct (negb _); [done|].
  case_bool_decide as Hsfx; simpl; [|done].
  case_bool_decide as Hzip.
  - destruct (zip_extractall fl p (path_parent p) w) as [w1 [[]|e|]] eqn:Hextract;
      [|done..].
    intros [= <- <-]. by right.
  - intros [= <- <-]. left. split_and!; [|done..].
    rewrite !elem_of_cons, elem_of_nil in Hsfx. by destruct Hsfx as [?|[?|[]]].
Qed.

(** The path returned ends in [.SAFE] after a stem that is not empty. *)
Lemma check_path_validity_stem p w w' safe :
  check_path_validity fl p w = (w', Ok safe) →
  ∃ stem, stem ≠ "" ∧ path_name safe = stem +:+ ".SAFE" ∧
          str_drop_last (path_name safe) 5 = stem ∧
          path_parent safe = path_parent p.
Proof.
  intros [(Hsfx & -> & ->)|(Hsfx & -> & Hextract)]%check_path_validity_Ok.
  - unfold path_suffix in Hsfx.
    destruct (suffix_inv (path_name p)) as (stem & Hname & Hstem & _);
      [by rewrite Hsfx|].
    rewrite Hsfx in Hname. exists stem. split_and!; [done..| |done].
    rewrite Hname. apply (str_drop_last_app stem ".SAFE").
  - unfold path_suffix in Hsfx.
    destruct (suffix_inv (path_name p)) as (stem & Hname & Hstem & _);
      [by rewrite Hsfx|].
    rewrite Hsfx in Hname.
    assert (Hp : p = path_parent p ++ [stem +:+ ".zip"]).
    { rewrite <- Hname. apply path_split. rewrite Hname. by apply append_nonempty. }
    assert (Hfirst : with_suffix p "" = path_parent p ++ [stem]).
    { rewrite Hp at 1. rewrite with_suffix_app by (done || apply is_suffix_zip).
      by rewrite append_empty_r. }
    assert (∃ stem', stem' ≠ "" ∧
              with_suffix (path_parent p ++ [stem]) ".SAFE"
                = path_parent p ++ [stem' +:+ ".SAFE"]) as (stem' & Hstem' & Hsecond).
    { destruct (decide (suffix stem = "")) as [Hnone|Hsome].
      - exists stem. split; [done|]. by apply with_suffix_none.
      - destruct (suffix_inv stem Hsome) as (stem' & Hname' & Hstem' & Hold).
        exists stem'. split; [done|].
        rewrite Hname' at 1. by apply with_suffix_app. }
    rewrite Hfirst, Hsecond. rewrite path_name_app, path_parent_app.
    exists stem'. split_and!; [done..| |done].
    apply (str_drop_last_app stem' ".SAFE").
Qed.

(** X6.  The path that [check_path_validity] returns has the suffix
    [.SAFE] and lies in the folder of the path it was given, so that the
    [name[:-5]] of the processors strips exactly the suffix and leaves a
    stem that is not empty.  A [.SAFE] path is returned as it is; a [.zip]
    path is returned under its new name only when it is an archive that
    could be extracted. *)
Theorem check_path_validity_returns_SAFE p w w' safe :
  check_path_validity fl p w = (w', Ok safe) →
  path_suffix safe = ".SAFE" ∧
  path_parent safe = path_parent p ∧
  (∃ stem, stem ≠ "" ∧ path_name safe = stem +:+ ".SAFE" ∧
           str_drop_last (path_name safe) 5 = stem) ∧
  (path_suffix p = ".SAFE" → safe = p) ∧
  (path_suffix p = ".zip" →
   ∃ members, fs_lookup fl w p = Some (ZipArchive members)).
Proof.
  intros Hcheck.
  destruct (check_path_validity_stem _ _ _ _ Hcheck)
    as (stem & Hstem & Hname & Hdrop & Hparent).
  split_and!; [|done|by exists stem|..].
  - unfold path_suffix. rewrite Hname.
    apply suffix_app; [done|apply is_suffix_SAFE].
  - intros Hsfx.
    apply check_path_validity_Ok in Hcheck as [(_ & -> & ->)|(Hzip & _)]; [done|].
    rewrite Hsfx in Hzip. discriminate.
  - intros Hsfx.
    apply check_path_validity_Ok in Hcheck as [(Hsafe & _)|(_ & _ & Hextract)].
    { rewrite Hsfx in Hsafe. discriminate. }
    unfold zip_extractall in Hextract.
    destruct (fs_lookup fl w p) as [[]|]; try done. by eexists.
Qed.

(** X7.  The name that a [.zip] path gives: [stem.zip] and [stem.SAFE.zip]
    both give [stem.SAFE], next to the archive.  The two [with_suffix]
    calls drop two suffixes, so [stem.x.zip] gives [stem.SAFE] as well.
    Whether the extraction has put a folder of that name there is not
    looked at. *)
Theorem check_path_validity_zip_name d stem w w' safe :
  stem ≠ "" →
  (suffix stem = "" →
   check_path_validity fl (d ++ [stem +:+ ".zip"]) w = (w', Ok safe) →
   safe = d ++ [stem +:+ ".SAFE"]) ∧
  (∀ x, is_suffix x →
     check_path_validity fl (d ++ [stem +:+ x +:+ ".zip"]) w = (w', Ok safe) →
     safe = d ++ [stem +:+ ".SAFE"]).
Proof.
  intros Hstem. split.
  - intros Hnone [(Hsfx & _)|(_ & -> & _)]%check_path_validity_Ok.
    + unfold path_suffix in Hsfx. rewrite path_name_app in Hsfx.
      rewrite suffix_app in Hsfx by (done || apply is_suffix_zip). discriminate.
    + rewrite with_suffix_app by (done || apply is_suffix_zip).
      rewrite append_empty_r. by apply with_suffix_none.
  - intros x Hx. rewrite <- append_assoc.
    intros [(Hsfx & _)|(_ & -> & _)]%check_path_validity_Ok.
    + unfold path_suffix in Hsfx. rewrite path_name_app in Hsfx.
      rewrite suffix_app in Hsfx
        by (by apply append_nonempty || apply is_suffix_zip).
      discriminate.
    + rewrite with_suffix_app by (by apply append_nonempty || apply is_suffix_zip).
      rewrite append_empty_r. by apply with_suffix_app.
Qed.
End path_validity.

(** ** Concrete paths *)

(** X6, witness: the zipped product. *)
Lemma check_path_validity_returns_SAFE_witness :
  ∃ w' safe,
    check_path_validity PosixFlavour ["data"; "S2A_MSIL2A_T34SGH.zip"] zipped_world
      = (w', Ok safe) ∧
    path_suffix safe = ".SAFE" ∧
    path_parent safe = ["data"] ∧
    fs_lookup PosixFlavour w' safe = Some (Dir [ ("MTD_MSIL2A.xml", OtherFile) ]).
Proof.
  eexists _, _. split; [reflexivity|].
  destruct (check_path_validity_returns_SAFE PosixFlavour
              ["data"; "S2A_MSIL2A_T34SGH.zip"] zipped_world _ _ eq_refl)
    as (Hsfx & Hparent & _).
  split; [exact Hsfx|]. split; [exact Hparent|]. reflexivity.
Defined.

(** X7, witness: the name of the zipped product. *)
Lemma check_path_validity_zip_name_witness :
  ∃ w',
    check_path_validity PosixFlavour (["data"] ++ ["S2A_MSIL2A_T34SGH" +:+ ".zip"])
      zipped_world
    = (w', Ok (["data"] ++ ["S2A_MSIL2A_T34SGH" +:+ ".SAFE"])).
Proof.
  eexists.
  assert (Hstem : "S2A_MSIL2A_T34SGH" ≠ "") by discriminate.
  pose proof (proj1 (check_path_validity_zip_name PosixFlavour ["data"]
                       "S2A_MSIL2A_T34SGH" zipped_world _ _ Hstem)
                eq_refl eq_refl) as Hname.
  rewrite <- Hname. reflexivity.
Defined.

(** * More about [create_pam_xml] (utils.py, lines 109-128) *)

Lemma create_pam_xml_Ok fl stack d stem w w' :
  stem ≠ "" →
  create_pam_xml fl stack (d ++ [stem +:+ ".tif"]) w = (w', Ok tt) →
  fs_lookup fl w' (d ++ [stem +:+ ".tif.aux.xml"])
    = Some (PamXml (length (bands stack))) ∧
  ∀ n', same_name fl (stem +:+ ".tif.aux.xml") n' = false →
    fs_lookup fl w' (d ++ [n']) = fs_lookup fl w (d ++ [n']).
Proof.
  intros Hstem. unfold create_pam_xml.
  rewrite with_suffix_app by (done || apply is_suffix_tif).
  unfold bind, lift, calculate_statistics. case_decide; [done|].
  unfold xml_write. destruct (fs_lookup fl w _) as [[]|] eqn:Hlook;
    try done; apply fs_put_lookup.
Qed.

(** X9.  For an output name [stem.tif] the statistics go to
    [stem.tif.aux.xml] in the same folder, one entry for each band of the
    stack, and no other file of the folder is touched.  A stack that
    has bands of no pixels raises [ValueError] and nothing is written. *)
Theorem create_pam_xml_sidecar fl stack d stem w :
  stem ≠ "" →
  (∀ w', create_pam_xml fl stack (d ++ [stem +:+ ".tif"]) w = (w', Ok tt) →
     fs_lookup fl w' (d ++ [stem +:+ ".tif.aux.xml"])
       = Some (PamXml (length (bands stack))) ∧
     ∀ n', same_name fl (stem +:+ ".tif.aux.xml") n' = false →
       fs_lookup fl w' (d ++ [n']) = fs_lookup fl w (d ++ [n'])) ∧
  (bands stack ≠ [] → row stack = 0 ∨ column stack = 0 →
   create_pam_xml fl stack (d ++ [stem +:+ ".tif"]) w = (w, Raise ValueError)).
Proof.
  intros Hstem. split.
  - intros w'. by apply create_pam_xml_Ok.
  - intros Hbands Hzero. unfold create_pam_xml.
    rewrite with_suffix_app by (done || apply is_suffix_tif).
    unfold bind, lift, calculate_statistics. case_decide as Hempty; [done|].
    exfalso. by apply Hempty.
Qed.

(** X9, witness: the statistics of the example stack. *)
Lemma create_pam_xml_sidecar_witness :
  ∃ w',
    create_pam_xml PosixFlavour merge_10m_example
      (["data"] ++ ["S2A_STACK_RGBN" +:+ ".tif"]) zipped_world = (w', Ok tt) ∧
    fs_lookup PosixFlavour w' (["data"] ++ ["S2A_STACK_RGBN" +:+ ".tif.aux.xml"])
      = Some (PamXml 4).
Proof.
  eexists. split; [reflexivity|].
  assert (Hstem : "S2A_STACK_RGBN" ≠ "") by discriminate.
  exact (proj1 (proj1 (create_pam_xml_sidecar PosixFlavour merge_10m_example
                         ["data"] "S2A_STACK_RGBN" zipped_world Hstem)
                  _ eq_refl)).
Defined.

(** * More about the processors (processors.py) *)

(** ** The loops that read a tier (lines 74-121 and 352-366) *)

Lemma raster_open_Ok fl p w w' prof data :
  raster_open fl p w = (w', Ok (prof, data)) →
  w' = w ∧ fs_lookup fl w p = Some (Raster prof data).
Proof.
  unfold raster_open. destruct (fs_lookup fl w p) as [[]|]; try done.
  by intros [= <- <- <-].
Qed.

Lemma read_tier_Ok fl dir wanted :
  ∀ names acc w w' t,
    read_tier fl dir wanted names acc w = (w', Ok t) →
    w' = w ∧
    code_list t =
      code_list acc ++ map (λ name, str_slice name 24 26) (selected wanted names) ∧
    ∃ read,
      stack_list t = stack_list acc ++ map snd read ∧
      Forall2 (λ name pi, band_file fl w dir name pi.1 pi.2)
        (selected wanted names) read ∧
      src_kwargs t = match last read with
                     | Some pi => Some pi.1
                     | None => src_kwargs acc
                     end.
Proof.
  induction names as [|name names IH]; intros acc w w' t; simpl.
  - intros [= <- <-]. split; [done|]. rewrite app_nil_r. split; [done|].
    exists []. by rewrite app_nil_r.
  - unfold selected. simpl. destruct (is_wanted wanted name) eqn:Hwanted.
    + intros ((prof & data) & w1 & [-> Hlook]%raster_open_Ok & Hrest)%bind_Ok.
      apply bind_Ok in Hrest as (im' & w2 & Him & Hrest).
      unfold lift in Him.
      destruct (read_band1 prof data) as [im| |] eqn:Hread; try done.
      injection Him as <- <-.
      apply IH in Hrest as (-> & Hcodes & read & Hstack & Hfiles & Hkw).
      simpl in *. split; [done|]. split.
      { rewrite Hcodes. by rewrite <- app_assoc. }
      exists ((prof, im) :: read). split_and!.
      * rewrite Hstack. by rewrite <- app_assoc.
      * constructor; [by exists data|done].
      * rewrite Hkw. rewrite last_cons. by destruct (last read).
    + apply IH.
Qed.

Lemma read_tier_tier_read fl dir wanted names w w' t :
  read_tier fl dir wanted names (Tier [] [] None) w = (w', Ok t) →
  w' = w ∧ tier_read fl w dir wanted names t ∧
  length (stack_list t) = length (code_list t).
Proof.
  intros (-> & Hcodes & read & Hstack & Hfiles & Hkw)%read_tier_Ok.
  simpl in *. split; [done|]. split.
  - split; [done|]. exists read. split_and!; [done..|].
    rewrite Hkw. by destruct (last read).
  - rewrite Hstack, Hcodes. rewrite !length_map.
    symmetry. by eapply Forall2_length.
Qed.

(** X10.  A loop that ends has gone through the names of the folder in
    their order: for every name that contains one of the wanted tags
    (anywhere in the name) it has recorded the code [name[24:26]] and the
    first band of the file, so that the code list and the band list have
    the same length, and the profile it leaves is that of the LAST selected
    file (none when no file was selected). *)
Theorem read_tier_selected fl dir wanted names w w' t :
  read_tier fl dir wanted names (Tier [] [] None) w = (w', Ok t) →
  code_list t = map (λ name, str_slice name 24 26) (selected wanted names) ∧
  length (stack_list t) = length (code_list t) ∧
  ∃ read,
    stack_list t = map snd read ∧
    Forall2 (λ name pi, band_file fl w dir name pi.1 pi.2)
      (selected wanted names) read ∧
    src_kwargs t = fst <$> last read.
Proof.
  intros (_ & Hcodes & read & Hstack & Hfiles & Hkw)%read_tier_Ok.
  simpl in *. split_and!; [done|..].
  - rewrite Hstack, Hcodes. rewrite !length_map.
    symmetry. by eapply Forall2_length.
  - exists read. split_and!; [done..|]. rewrite Hkw. by destruct (last read).
Qed.

(** ** The names of the band files (lines 83, 101, 116, 361) *)

Lemma str_slice_band_code tile time code rest :
  String.length tile = 6 → String.length time = 15 → String.length code = 2 →
  str_slice (tile +:+ "_" +:+ time +:+ "_B" +:+ code +:+ rest) 24 26 = code.
Proof.
  intros Htile Htime Hcode. unfold str_slice.
  rewrite <- !append_assoc.
  rewrite (append_assoc _ code rest).
  set (pre := (((tile +:+ "_") +:+ time) +:+ "_B")).
  assert (Hpre : String.length pre = 24).
  { unfold pre. rewrite !string_length_app, Htile, Htime. reflexivity. }
  rewrite <- Hpre at 1. rewrite substring_app_l.
  change (26 - 24) with 2. rewrite <- Hcode. apply substring_0_app.
Qed.

(** X8.  The code that a loop records for a file is cut from its name at
    a fixed place.  When the [i]-th file that the loop selects is named
    [TTTTTT_YYYYMMDDTHHMMSS_Bxx...], with a tile of 6 characters and a time
    of 15, the [i]-th code of the tier is the band code [xx]. *)
Theorem band_code_of_name fl dir wanted names w w' t i tile time code rest :
  read_tier fl dir wanted names (Tier [] [] None) w = (w', Ok t) →
  String.length tile = 6 → String.length time = 15 → String.length code = 2 →
  selected wanted names !! i
    = Some (tile +:+ "_" +:+ time +:+ "_B" +:+ code +:+ rest) →
  code_list t !! i = Some code.
Proof.
  intros (_ & Hcodes & _)%read_tier_Ok Htile Htime Hcode Hi.
  simpl in Hcodes. rewrite Hcodes, list_lookup_fmap, Hi. simpl.
  by rewrite str_slice_band_code.
Qed.

(** ** The granule lookup (lines 53-54 and 340-341) *)

Lemma rglob_no_match fl w p pattern :
  no_match_below fl w p pattern → rglob fl p pattern w = (w, Ok []).
Proof.
  unfold no_match_below, rglob. destruct (fs_lookup fl w p) as [n|]; [|done].
  intros Hall. do 2 f_equal.
  induction Hall as [|[dir es] ds Hes _ IH]; [done|].
  simpl. rewrite IH, app_nil_r. simpl in Hes.
  induction Hes as [|e es He _ IHes]; [done|].
  rewrite filter_cons. case_decide as Hmatch; [congruence|]. exact IHes.
Qed.

Lemma mkdir_lookup fl d n n' w w' :
  mkdir fl (d ++ [n]) w = (w', Ok tt) → same_name fl n n' = false →
  fs_lookup fl w' (d ++ [n']) = fs_lookup fl w (d ++ [n']).
Proof.
  unfold mkdir. destruct (fs_lookup fl w (d ++ [n])) as [[]|]; try done.
  - by intros [= <-].
  - intros Hput Hne. by apply (fs_put_lookup fl d n _ w w' Hput).
Qed.

Lemma find_granule_no_match fl w safe_path :
  no_match_below fl w (safe_path ++ ["GRANULE"]) "*L2A*" →
  find_granule fl safe_path w = (w, Raise IndexError).
Proof.
  intros Hnone. unfold find_granule.
  by rewrite (bind_run_Ok _ _ _ _ _ (rglob_no_match _ _ _ _ Hnone)).
Qed.

Lemma mkdir_Ok_Dir fl d n w w' :
  mkdir fl (d ++ [n]) w = (w', Ok tt) →
  ∃ es, fs_lookup fl w' (d ++ [n]) = Some (Dir es).
Proof.
  unfold mkdir. destruct (fs_lookup fl w (d ++ [n])) as [[]|] eqn:Hlook; try done.
  - intros [= <-]. by eexists.
  - intros [Hnew _]%fs_put_lookup. by eexists.
Qed.

(** X11.  A product folder that has no [GRANULE] folder, or no name with
    [L2A] under it (a Level-1C product), does not reach the test that
    reports "L2A product not found": [list(...)[0]] raises [IndexError]
    first, in both processors.  [processor_all] has made the temporary
    folder by then and leaves it. *)
Theorem missing_granule_IndexError fl ov engine args out w :
  fs_lookup fl w (product_path args) ≠ None →
  path_suffix (product_path args) = ".SAFE" →
  output_path args = Some out →
  no_match_below fl w (product_path args ++ ["GRANULE"]) "*L2A*" →
  find_granule fl (product_path args) w = (w, Raise IndexError) ∧
  (∃ w', processor_rgbn fl ov args w = (w', Raise IndexError)) ∧
  (∀ w1, mkdir fl (product_path args ++ ["TEMP"]) w = (w1, Ok tt) →
     ∃ w', processor_all fl ov engine args w = (w', Raise IndexError) ∧
           ∃ es, fs_lookup fl w' (product_path args ++ ["TEMP"]) = Some (Dir es)).
Proof.
  intros Hexists Hsfx Hout Hnone.
  assert (Hcheck : check_path_validity fl (product_path args) w
                   = (w, Ok (product_path args))).
  { unfold check_path_validity, bind, path_exists. rewrite Hsfx.
    by destruct (fs_lookup fl w (product_path args)) as [n|]. }
  assert (Hfolder : output_folder fl (product_path args) (output_path args) w
                    = (w, Ok out)) by (by rewrite Hout).
  pose proof (find_granule_no_match fl w _ Hnone) as Hfind.
  split_and!; [done|..].
  - exists w. unfold processor_rgbn. apply bind_run_Raise. unfold processor_rgbn_read.
    rewrite (bind_run_Ok _ _ _ _ _ Hcheck), (bind_run_Ok _ _ _ _ _ Hfolder).
    by rewrite (bind_run_Raise _ _ _ _ _ Hfind).
  - intros w1 Hmkdir. exists w1. split; [|by eapply mkdir_Ok_Dir].
    unfold processor_all. apply bind_run_Raise.
    unfold processor_all_front. apply bind_run_Raise. unfold processor_all_read.
    rewrite (bind_run_Ok _ _ _ _ _ Hcheck), (bind_run_Ok _ _ _ _ _ Hfolder).
    rewrite (bind_run_Ok _ _ _ _ _ Hmkdir).
    apply bind_run_Raise, find_granule_no_match.
    unfold no_match_below in *.
    rewrite (mkdir_lookup fl _ "TEMP" "GRANULE" w w1 Hmkdir); [done|].
    by apply same_name_length.
Qed.

(** X11, witness: the Level-1C product. *)
Lemma missing_granule_IndexError_witness :
  ∃ w', processor_rgbn PosixFlavour Wraps
          (Arguments_ safe_example (Some ["out"]) "nearest" true true) l1c_world
        = (w', Raise IndexError).
Proof.
  apply (missing_granule_IndexError PosixFlavour Wraps example_engine
           (Arguments_ safe_example (Some ["out"]) "nearest" true true)
           ["out"] l1c_world).
  - by vm_compute.
  - reflexivity.
  - reflexivity.
  - unfold no_match_below. simpl. repeat constructor.
Defined.

(** ** The export (lines 275-295 and 388-408) *)

Lemma div_eq_one a f : 0 < f → a / f = 1 ↔ f ≤ a < 2 * f.
Proof.
  intros Hf. split.
  - intros Hq. pose proof (Nat.div_mod_eq a f) as Hdiv.
    pose proof (Nat.mod_upper_bound a f) as Hmod. rewrite Hq in Hdiv. lia.
  - intros [Hlow Hhigh]. symmetry. apply (Nat.div_unique a f 1 (a - f)); lia.
Qed.

Lemma overview_one h w f :
  0 < f →
  overview_shape h w f = (1, 1) ↔ (1 ≤ h ≤ f ∧ 1 ≤ w ≤ f).
Proof.
  intros Hf. unfold overview_shape. split.
  - intros [= Hh%div_eq_one Hw%div_eq_one]; lia.
  - intros [Hh Hw]. f_equal; apply div_eq_one; lia.
Qed.

(** That is the case of a raster of at most 8 by 8 pixels. *)
Lemma too_small_iff prof :
  too_small prof ↔ (1 ≤ height prof ≤ 8 ∧ 1 ≤ width prof ≤ 8).
Proof.
  unfold too_small. rewrite !filter_cons, filter_nil.
  repeat case_decide;
    repeat match goal with
           | H : context [overview_shape _ _ _ = _] |- _ =>
               rewrite overview_one in H by lia
           end;
    simpl; lia.
Qed.

Lemma build_overviews_Ok fl d n prof factors w w' :
  build_overviews fl (d ++ [n]) prof factors w = (w', Ok tt) →
  ¬ (1 < length (filter (λ f, overview_shape (height prof) (width prof) f = (1, 1))
               factors)) ∧
  fs_lookup fl w' (d ++ [n +:+ ".ovr"]) = Some (Overviews factors) ∧
  ∀ n', same_name fl (n +:+ ".ovr") n' = false →
    fs_lookup fl w' (d ++ [n']) = fs_lookup fl w (d ++ [n']).
Proof.
  unfold build_overviews. rewrite path_parent_app, path_name_app.
  case_decide as Hsmall; [done|].
  destruct (fs_lookup fl w (d ++ [n +:+ ".ovr"])) as [[]|]; try done.
  all: intros [Hnew Hkeep]%fs_put_lookup; by split_and!.
Qed.

Lemma sidecar_length stem sfx :
  sfx ≠ "" → String.length (stem +:+ ".tif") ≠ String.length (stem +:+ ".tif" +:+ sfx).
Proof. intros Hsfx. rewrite !string_length_app. destruct sfx; [done|]. simpl. lia. Qed.

(** An export that returns. *)
Lemma export_Ok fl stack out stem new_kwargs xml pyramids w w' :
  stem ≠ "" →
  export fl (Some stack) (out ++ [stem +:+ ".tif"]) new_kwargs xml pyramids w
    = (w', Ok tt) →
  fs_lookup fl w' (out ++ [stem +:+ ".tif"])
    = Some (Raster new_kwargs (Some stack)) ∧
  length (bands stack) = count new_kwargs ∧
  (pyramids = true →
   ¬ too_small new_kwargs ∧
   fs_lookup fl w' (out ++ [stem +:+ ".tif.ovr"]) = Some (Overviews [2; 4; 8; 16])) ∧
  (xml = true →
   (∀ x, fs_lookup fl w (out ++ [stem +:+ ".tif"]) = Some x → is_dataset x = false) →
   fs_lookup fl w' (out ++ [stem +:+ ".tif.aux.xml"])
     = Some (PamXml (length (bands stack)))).
Proof.
  intros Hstem. unfold export.
  intros ([] & w1 & Hxml & Hrest)%bind_Ok.
  apply bind_Ok in Hrest as ([] & w2 & Hcreate & Hrest).
  apply bind_Ok in Hrest as (stack' & w2' & Hbound & Hrest).
  injection Hbound as <- <-.
  apply bind_Ok in Hrest as ([] & w3 & Hwrite & Hovr).
  assert (Hcount : length (bands stack) = count new_kwargs).
  { revert Hwrite. unfold raster_write. by case_decide. }
  apply raster_create_lookup in Hcreate as [_ Hcreate].
  apply raster_write_lookup in Hwrite as [Hfile Hwrite].
  assert (Hxml' : xml = true →
            (∀ x, fs_lookup fl w (out ++ [stem +:+ ".tif"]) = Some x →
                  is_dataset x = false) →
            fs_lookup fl w3 (out ++ [stem +:+ ".tif.aux.xml"])
              = Some (PamXml (length (bands stack)))).
  { intros -> Hfresh. apply bind_Ok in Hxml as (stack' & w0 & Hbound & Hxml).
    injection Hbound as <- <-.
    apply create_pam_xml_Ok in Hxml as [Hxml Hkeep]; [|done].
    rewrite Hwrite, Hcreate; [done|..].
    - apply same_name_length, (sidecar_length stem ".aux.xml"); done.
    - right. intros x. rewrite Hkeep; [apply Hfresh|].
      apply same_name_sym_false, same_name_length,
        (sidecar_length stem ".aux.xml"); done.
    - apply same_name_length, (sidecar_length stem ".aux.xml"); done. }
  destruct pyramids.
  - apply build_overviews_Ok in Hovr as (Hsmall & Hovr & Hkeep).
    rewrite (append_assoc stem ".tif" ".ovr") in Hovr, Hkeep.
    split_and!; [|done| |].
    + rewrite Hkeep; [done|]. apply same_name_sym_false, same_name_length.
      by apply (sidecar_length stem ".ovr").
    + intros _. by split.
    + intros Hx Hfresh. rewrite Hkeep; [by apply Hxml'|].
      apply same_name_length. rewrite !string_length_app. simpl. lia.
  - injection Hovr as <-. split_and!; [done..| |done]. discriminate.
Qed.

Lemma fs_put_Raise fl p x w w' e :
  fs_put fl p x w = (w', Raise e) → e = FileNotFoundError ∨ e = NotADirectoryError.
Proof.
  unfold fs_put. destruct (fs_modify _ _ _ _); [done|].
  intros [= _ <-]. apply no_directory_cases.
Qed.

(** An export that stops at the overviews: the dataset has been written. *)
Lemma export_overviews_refused fl stack out stem new_kwargs xml w w' :
  export fl (Some stack) (out ++ [stem +:+ ".tif"]) new_kwargs xml true w
    = (w', Raise OverviewCreationError) →
  fs_lookup fl w' (out ++ [stem +:+ ".tif"]) = Some (Raster new_kwargs (Some stack)).
Proof.
  unfold export.
  intros [Hxml|([] & w1 & _ & Hrest)]%bind_Raise.
  { exfalso. destruct xml; [|done]. unfold bound, create_pam_xml in Hxml.
    apply bind_Raise in Hxml as [Hb|(? & ? & _ & Hxml)]; [done|].
    apply bind_Raise in Hxml as [Hstat|(? & ? & _ & Hxml)].
    - unfold lift, calculate_statistics in Hstat. by case_decide.
    - revert Hxml. unfold xml_write. repeat case_match; try done.
      all: by intros [?|?]%fs_put_Raise. }
  apply bind_Raise in Hrest as [Hcreate|([] & w2 & _ & Hrest)].
  { by apply raster_create_Raise_exn in Hcreate as [? _]. }
  apply bind_Raise in Hrest as [Hb|(stack' & w2' & Hbound & Hrest)]; [done|].
  injection Hbound as <- <-.
  apply bind_Raise in Hrest as [Hwrite|([] & w3 & Hwrite & Hovr)].
  { exfalso. revert Hwrite. unfold raster_write. case_decide; [|done].
    by intros [?|?]%fs_put_Raise. }
  apply raster_write_lookup in Hwrite as [Hfile _].
  revert Hovr. unfold build_overviews. case_decide; [by intros [= <-]|].
  repeat case_match; try done; by intros [?|?]%fs_put_Raise.
Qed.

(** X12.  An export that returns has written [stem.tif] with the profile
    it was given and the whole stack, whose band count is the profile's.
    With [pyramids] set it returns only for a raster of more than 8 by 8
    pixels, with the overviews in [stem.tif.ovr]: for a smaller one the
    overviews are refused with [OverviewCreationError] after the stack has
    been written, and the dataset stays.  The statistics written before the dataset is opened
    are in [stem.tif.aux.xml] afterwards when no dataset was at [stem.tif]
    before.  A stack whose band count is not the profile's is refused with
    [ValueError] only when it is written: the dataset has been created by
    then and stays, without data. *)
Theorem export_writes fl stack out stem new_kwargs xml pyramids w :
  stem ≠ "" →
  (∀ w',
     export fl (Some stack) (out ++ [stem +:+ ".tif"]) new_kwargs xml pyramids w
       = (w', Ok tt) →
     fs_lookup fl w' (out ++ [stem +:+ ".tif"])
       = Some (Raster new_kwargs (Some stack)) ∧
     length (bands stack) = count new_kwargs ∧
     (pyramids = true → ¬ (1 ≤ height new_kwargs ≤ 8 ∧ 1 ≤ width new_kwargs ≤ 8)) ∧
     (pyramids = true →
      fs_lookup fl w' (out ++ [stem +:+ ".tif.ovr"]) = Some (Overviews [2; 4; 8; 16])) ∧
     (xml = true →
      (∀ x, fs_lookup fl w (out ++ [stem +:+ ".tif"]) = Some x → is_dataset x = false) →
      fs_lookup fl w' (out ++ [stem +:+ ".tif.aux.xml"])
        = Some (PamXml (length (bands stack))))) ∧
  (1 ≤ height new_kwargs ≤ 8 → 1 ≤ width new_kwargs ≤ 8 →
   ∀ w1,
     export fl (Some stack) (out ++ [stem +:+ ".tif"]) new_kwargs xml false w
       = (w1, Ok tt) →
     ∃ w',
       export fl (Some stack) (out ++ [stem +:+ ".tif"]) new_kwargs xml true w
         = (w', Raise OverviewCreationError) ∧
       fs_lookup fl w' (out ++ [stem +:+ ".tif"])
         = Some (Raster new_kwargs (Some stack))) ∧
  (length (bands stack) ≠ count new_kwargs →
   ∀ w1, raster_create fl (out ++ [stem +:+ ".tif"]) new_kwargs w = (w1, Ok tt) →
     ∃ w',
       export fl (Some stack) (out ++ [stem +:+ ".tif"]) new_kwargs false
         pyramids w = (w', Raise ValueError) ∧
       fs_lookup fl w' (out ++ [stem +:+ ".tif"]) = Some (Raster new_kwargs None)).
Proof.
  intros Hstem. split_and!.
  - intros w' Hrun.
    apply export_Ok in Hrun as (Hfile & Hcount & Hovr & Hxml); [|done].
    split_and!; [done..| | |done].
    + intros Hp. rewrite <- too_small_iff. by apply Hovr.
    + intros Hp. by apply Hovr.
  - intros Hh Hw w1 Hrun.
    assert (Hsmall : too_small new_kwargs) by (by apply too_small_iff).
    assert (Hexport :
      export fl (Some stack) (out ++ [stem +:+ ".tif"]) new_kwargs xml true w
        = (w1, Raise OverviewCreationError)).
    { revert Hrun. unfold export.
      intros ([] & w2 & Hxml & Hrest)%bind_Ok.
      apply bind_Ok in Hrest as ([] & w3 & Hcreate & Hrest).
      apply bind_Ok in Hrest as (stack' & w3' & Hbound & Hrest).
      injection Hbound as <- <-.
      apply bind_Ok in Hrest as ([] & w4 & Hwrite & Hret).
      injection Hret as <-.
      rewrite (bind_run_Ok _ _ _ _ _ Hxml), (bind_run_Ok _ _ _ _ _ Hcreate).
      rewrite (bind_run_Ok _ _ _ w3 stack) by done.
      rewrite (bind_run_Ok _ _ _ _ _ Hwrite).
      unfold build_overviews. by case_decide. }
    exists w1. split; [done|]. by eapply export_overviews_refused.
  - intros Hcount w1 Hcreate. exists w1. split.
    + unfold export. rewrite (bind_run_Ok _ _ _ w tt) by done.
      rewrite (bind_run_Ok _ _ _ _ _ Hcreate).
      rewrite (bind_run_Ok _ _ _ w1 stack) by done.
      apply bind_run_Raise. unfold raster_write. by case_decide.
    + by apply raster_create_lookup in Hcreate as [? _].
Qed.

Lemma export_17_run_Ok :
  export PosixFlavour (Some stack_17_example)
    (["data"] ++ ["S2A_STACK_RGBN" +:+ ".tif"]) profile_17_example true true zipped_world
  = (export_17_run.1, Ok tt).
Proof. by vm_compute. Qed.

Lemma export_1_run_Ok :
  export PosixFlavour (Some merge_10m_example)
    (["data"] ++ ["S2A_STACK_RGBN" +:+ ".tif"]) profile_1_example true false zipped_world
  = (export_1_run.1, Ok tt).
Proof. by vm_compute. Qed.

(** X12, witness: a stack of 17 by 17 pixels is written with its
    statistics and overviews; for the stack of one pixel the overviews are
    refused. *)
Lemma export_writes_witness :
  (fs_lookup PosixFlavour export_17_run.1 (["data"] ++ ["S2A_STACK_RGBN" +:+ ".tif"])
     = Some (Raster profile_17_example (Some stack_17_example)) ∧
   fs_lookup PosixFlavour export_17_run.1
     (["data"] ++ ["S2A_STACK_RGBN" +:+ ".tif.aux.xml"]) = Some (PamXml 4)) ∧
  ∃ w',
    export PosixFlavour (Some merge_10m_example)
      (["data"] ++ ["S2A_STACK_RGBN" +:+ ".tif"]) profile_1_example true true
      zipped_world = (w', Raise OverviewCreationError) ∧
    fs_lookup PosixFlavour w' (["data"] ++ ["S2A_STACK_RGBN" +:+ ".tif"])
      = Some (Raster profile_1_example (Some merge_10m_example)).
Proof.
  assert (Hstem : "S2A_STACK_RGBN" ≠ "") by discriminate.
  split.
  - destruct (proj1 (export_writes PosixFlavour stack_17_example
                       ["data"] "S2A_STACK_RGBN" profile_17_example true true
                       zipped_world Hstem) _ export_17_run_Ok)
      as (Hfile & _ & _ & _ & Hxml).
    split; [exact Hfile|]. apply Hxml; [reflexivity|]. by vm_compute.
  - apply (proj1 (proj2 (export_writes PosixFlavour merge_10m_example
                           ["data"] "S2A_STACK_RGBN" profile_1_example true true
                           zipped_world Hstem)) ltac:(simpl; lia) ltac:(simpl; lia)
             _ export_1_run_Ok).
Defined.

(** ** A tier sort that returns (lines 123-142 and 368-372) *)

Lemma np_asarray_Ok_Nd3 images a :
  np_asarray images = Ok (Nd3 a) →
  bands a = map im_data images ∧ images ≠ [] ∧
  Forall (λ im, im_row im = row a ∧ im_column im = column a) images.
Proof.
  unfold np_asarray. destruct images as [|im rest]; [done|].
  destruct (forallb _ rest) eqn:Hall; [|done]. intros [= <-]. simpl.
  split_and!; [done..|]. constructor; [done|].
  apply Forall_forall. intros x Hx%list_elem_of_In.
  rewrite forallb_forall in Hall. by apply Hall, bool_decide_eq_true in Hx.
Qed.

Lemma stack_sort_call_Ok_inv ov o codes sorted out :
  stack_sort_call ov o codes sorted = Ok out →
  ∃ a dst,
    o = Nd3 a ∧ out = NdArray uint16 (row a) (column a) dst ∧
    length dst = length (bands a) ∧
    sortable a codes sorted ∧
    (length codes ≤ 256 →
     ∀ i t p, i < length codes → sorted !! i = Some t →
       linear_scan t codes = Some p →
       dst !! i = cast_plane uint16 <$> bands a !! p).
Proof.
  unfold stack_sort_call. destruct o as [xs|dt xs|a]; [done..|].
  rewrite (stack_sort_run ov _ 0 1 2 a codes sorted) by done.
  destruct (sort_outcome_shape ov a codes sorted) as (dst & carr & Hout & Hlen).
  rewrite Hout.
  destruct ((sort_outcome ov a codes sorted).2) as [[]|e|] eqn:Hres; [|done..].
  simpl. intros [= <-]. exists a, dst.
  pose proof (sort_outcome_Ok_sortable ov a codes sorted Hres) as Hsortable.
  split_and!; [done..|].
  intros Hn.
  destruct (proj1 (sort_outcome_sortable ov a codes sorted Hn) Hsortable)
    as (dst' & carr' & Heq & _ & Hfirst & _).
  rewrite Heq in Hout. simpl in Hout. by injection Hout as -> ->.
Qed.

Lemma sort_tier_Ok ov t sorted_list (w w' : node) out :
  sort_tier ov t sorted_list w = (w', Ok out) →
  w' = w ∧ nd_dtype out = uint16 ∧
  length (bands out) = length (stack_list t) ∧
  length (code_list t) ≤ length (stack_list t) ∧
  Forall (λ im, im_row im = row out ∧ im_column im = column out) (stack_list t) ∧
  (length (code_list t) ≤ 256 →
   ∀ i, i < length (code_list t) →
     ∃ code j im,
       sorted_list !! i = Some code ∧
       linear_scan code (code_list t) = Some j ∧
       stack_list t !! j = Some im ∧
       bands out !! i = Some (cast_plane uint16 (im_data im))).
Proof.
  unfold sort_tier, lift.
  intros (o & w1 & Harr & Hsort)%bind_Ok.
  destruct (np_asarray (stack_list t)) as [o'| |] eqn:Hasarray; try done.
  injection Harr as <- <-.
  destruct (stack_sort_call ov o' (code_list t) sorted_list) as [out'| |] eqn:Hcall;
    try done.
  injection Hsort as <- <-.
  apply stack_sort_call_Ok_inv in Hcall
    as (a & dst & -> & -> & Hlen & [Hslots Hall] & Hfirst).
  apply np_asarray_Ok_Nd3 in Hasarray as (Hbands & _ & Hshape).
  rewrite Hbands, length_map in Hlen, Hslots.
  split_and!; [done..|].
  intros Hn i Hi. destruct (Hall i Hi) as (code & Hcode & [j Hj]%linear_scan_elem_of).
  pose proof Hj as [Hj' _]%linear_scan_Some. apply lookup_lt_Some in Hj'.
  destruct (lookup_lt_is_Some_2 (stack_list t) j) as [im Him]; [lia|].
  exists code, j, im. split_and!; [done..|].
  simpl. rewrite (Hfirst Hn i code j Hi Hcode Hj), Hbands.
  change (map im_data (stack_list t)) with (im_data <$> stack_list t).
  by rewrite list_lookup_fmap, Him.
Qed.

(** X13.  A tier sort that returns gives a uint16 array with one slot for
    each band read, all of one shape.  No more codes than bands were
    recorded, each of the first [len(code_list)] canonical codes was among
    them, and the slot of such a code holds the band read under its first
    occurrence.  Nothing checks that the tier has as many bands as the
    canonical list has codes: a tier that lacks the last canonical codes
    sorts without an error. *)
Theorem sort_tier_returns ov t sorted_list (w w' : node) out :
  sort_tier ov t sorted_list w = (w', Ok out) →
  length (code_list t) ≤ 256 →
  nd_dtype out = uint16 ∧
  length (bands out) = length (stack_list t) ∧
  length (code_list t) ≤ length (stack_list t) ∧
  Forall (λ im, im_row im = row out ∧ im_column im = column out) (stack_list t) ∧
  ∀ i, i < length (code_list t) →
    ∃ code j im,
      sorted_list !! i = Some code ∧
      linear_scan code (code_list t) = Some j ∧
      stack_list t !! j = Some im ∧
      bands out !! i = Some (cast_plane uint16 (im_data im)).
Proof.
  intros (_ & Hdt & Hlen & Hle & Hshape & Hfirst)%sort_tier_Ok Hn.
  split_and!; [done..|]. by apply Hfirst.
Qed.

Lemma sort_tier_short_example :
  sort_tier Wraps tier_20m_short sorted_list_20m example_world
  = (example_world, Ok (NdArray uint16 1 1 [pixel 5; pixel 6; pixel 7; pixel 11; pixel 12])).
Proof. by vm_compute. Qed.

(** X13, witness: the 20m tier without band 8A sorts to five bands. *)
Lemma sort_tier_returns_witness :
  ∃ w',
    sort_tier Wraps tier_20m_short sorted_list_20m example_world
      = (w', Ok (NdArray uint16 1 1 [pixel 5; pixel 6; pixel 7; pixel 11; pixel 12])) ∧
    length (bands (NdArray uint16 1 1 [pixel 5; pixel 6; pixel 7; pixel 11; pixel 12]))
      = length (stack_list tier_20m_short).
Proof.
  exists example_world. split; [exact sort_tier_short_example|].
  eapply proj1, proj2.
  apply (sort_tier_returns Wraps tier_20m_short sorted_list_20m
           example_world example_world _ sort_tier_short_example).
  simpl. lia.
Defined.

(** ** [processor_rgbn] from end to end (lines 324-412) *)

Lemma output_folder_Ok fl safe_path output_path w w' out :
  output_folder fl safe_path output_path w = (w', Ok out) →
  out = default (safe_path ++ ["GTIFF_PRODUCT"]) output_path ∧
  (is_Some output_path → w' = w).
Proof.
  unfold output_folder. destruct output_path as [p|]; simpl.
  - intros [= <- <-]. split; [done|]. done.
  - intros (found & w1 & _ & Hrest)%bind_Ok.
    apply bind_Ok in Hrest as ([] & w2 & _ & Hrest).
    apply bind_Ok in Hrest as ([] & w3 & _ & Hret).
    injection Hret as <- <-. split; [done|]. by intros [? [=]].
Qed.

Lemma l2a_guard_Ok fl granule w w' :
  l2a_guard fl granule w = (w', Ok tt) →
  w' = w ∧ contains "L2A" (path_name granule) = true.
Proof.
  unfold l2a_guard. destruct (contains _ _); [|done]. by intros [= <-].
Qed.

Lemma band_names_Ok fl p w w' names :
  band_names fl p w = (w', Ok names) → w' = w ∧ jp2_names fl w p names.
Proof.
  unfold band_names, bind, iterdir, jp2_names.
  destruct (fs_lookup fl w p) as [[]|]; try done.
  intros [= <- <-]. split; [done|]. eauto.
Qed.

(** What [processor_rgbn] has done when it has read its tier. *)
Lemma processor_rgbn_read_Ok fl args w w1 out safe t :
  processor_rgbn_read fl args w = (w1, Ok (out, safe, t)) →
  ∃ w0 granule names,
    check_path_validity fl (product_path args) w = (w0, Ok safe) ∧
    output_folder fl safe (output_path args) w0 = (w1, Ok out) ∧
    find_granule fl safe w1 = (w1, Ok granule) ∧
    contains "L2A" (path_name granule) = true ∧
    jp2_names fl w1 (granule ++ ["IMG_DATA"; "R10m"]) names ∧
    tier_read fl w1 (granule ++ ["IMG_DATA"; "R10m"]) wanted_10m names t ∧
    length (stack_list t) = length (code_list t).
Proof.
  unfold processor_rgbn_read.
  intros (safe' & w0 & Hcheck & Hrest)%bind_Ok.
  apply bind_Ok in Hrest as (out' & w1' & Hfolder & Hrest).
  apply bind_Ok in Hrest as (granule & w2 & Hfind & Hrest).
  pose proof (find_granule_matches _ _ _ _ _ Hfind) as [-> _].
  apply bind_Ok in Hrest as ([] & w3 & [-> Hl2a]%l2a_guard_Ok & Hrest).
  apply bind_Ok in Hrest as (names & w4 & [-> Hnames]%band_names_Ok & Hrest).
  apply bind_Ok in Hrest as (t' & w5 & (-> & Hread & Hlen)%read_tier_tier_read & Hret).
  injection Hret as <- <- <- <-.
  by exists w0, granule, names.
Qed.

(** A tier sort that returns as many bands as the canonical list has
    codes has found each code. *)
Lemma sort_tier_sorted_against ov t sorted_list (w w' : node) out :
  sort_tier ov t sorted_list w = (w', Ok out) →
  length (stack_list t) = length (code_list t) →
  length (bands out) = length sorted_list →
  length sorted_list ≤ 256 →
  sorted_against sorted_list t out.
Proof.
  intros (_ & Hdt & Hlen & _ & _ & Hfirst)%sort_tier_Ok Hcodes Hbands Hmax.
  split_and!; [done..|]. intros i code Hi.
  destruct (Hfirst ltac:(lia) i) as (code' & j & im & Hcode' & Hj & Him & Hband).
  { apply lookup_lt_Some in Hi. lia. }
  assert (code' = code) as -> by congruence.
  by exists j, im.
Qed.

(** What [processor_rgbn] has done when it returns. *)
Lemma processor_rgbn_Ok fl ov args w w' :
  processor_rgbn fl ov args w = (w', Ok tt) →
  ∃ out safe t w1 stack w2 stem granule names kwargs,
    processor_rgbn_read fl args w = (w1, Ok (out, safe, t)) ∧
    processor_rgbn_sort ov t w1 = (w2, Ok stack) ∧
    processor_rgbn_export fl args out safe t stack w2 = (w', Ok tt) ∧
    path_name safe = stem +:+ ".SAFE" ∧
    path_parent safe = path_parent (product_path args) ∧
    out = default (safe ++ ["GTIFF_PRODUCT"]) (output_path args) ∧
    find_granule fl safe w1 = (w1, Ok granule) ∧
    jp2_names fl w1 (granule ++ ["IMG_DATA"; "R10m"]) names ∧
    tier_read fl w1 (granule ++ ["IMG_DATA"; "R10m"]) wanted_10m names t ∧
    length (selected wanted_10m names) = 4 ∧
    src_kwargs t = Some kwargs ∧
    (pyramids args = true → ¬ (1 ≤ height kwargs ≤ 8 ∧ 1 ≤ width kwargs ≤ 8)) ∧
    fs_lookup fl w' (out ++ [stem +:+ "_STACK_RGBN.tif"])
      = Some (Raster (Profile "GTiff" uint16 4 (height kwargs) (width kwargs)
                        (transform kwargs) (Some "deflate") (Some "band"))
                (Some stack)) ∧
    sorted_against ["02"; "03"; "04"; "08"] t stack.
Proof.
  unfold processor_rgbn.
  intros ([[out safe] t] & w1 & Hread & Hrest)%bind_Ok.
  apply bind_Ok in Hrest as (stack & w2 & Hsort & Hexport).
  pose proof (processor_rgbn_read_Ok _ _ _ _ _ _ _ Hread)
    as (w0 & granule & names & Hcheck & Hfolder & Hfind & _ & Hnames & Htier & Hlen).
  apply check_path_validity_stem in Hcheck as (stem & Hstem & Hname & Hdrop & Hparent).
  apply output_folder_Ok in Hfolder as [Hout _].
  pose proof Hexport as Hexport'.
  unfold processor_rgbn_export in Hexport.
  apply bind_Ok in Hexport as (kwargs & w3 & Hbound & Hexport).
  destruct (src_kwargs t) as [kwargs'|] eqn:Hkw; [|done].
  injection Hbound as <- <-.
  rewrite Hdrop in Hexport.
  change (stem +:+ "_STACK_RGBN.tif") with (stem +:+ ("_STACK_RGBN" +:+ ".tif"))
    in Hexport.
  rewrite <- (append_assoc stem "_STACK_RGBN" ".tif") in Hexport.
  apply export_Ok in Hexport as (Hfile & Hcount & Hovr & _);
    [|by apply append_nonempty].
  rewrite (append_assoc stem "_STACK_RGBN" ".tif") in Hfile.
  change (stem +:+ ("_STACK_RGBN" +:+ ".tif")) with (stem +:+ "_STACK_RGBN.tif")
    in Hfile.
  simpl in Hcount.
  assert (Hsorted : sorted_against ["02"; "03"; "04"; "08"] t stack).
  { unfold processor_rgbn_sort in Hsort.
    eapply sort_tier_sorted_against; [exact Hsort|done|done|simpl; lia]. }
  assert (Hsel : length (selected wanted_10m names) = 4).
  { destruct Htier as (Hcodes & read & Hstack & Hfiles & _).
    rewrite (Forall2_length _ _ _ Hfiles).
    unfold processor_rgbn_sort in Hsort.
    apply sort_tier_Ok in Hsort as (_ & _ & Hbands & _).
    rewrite <- Hcount, Hbands, Hstack. by rewrite length_map. }
  exists out, safe, t, w1, stack, w2, stem, granule, names, kwargs'.
  split_and!; [done..| |exact Hfile|done].
  intros Hp. specialize (Hovr Hp) as [Hsmall _].
  by rewrite too_small_iff in Hsmall.
Qed.

(** X14.  When [processor_rgbn] returns, the product is in
    [stem_STACK_RGBN.tif], where [stem.SAFE] is the product folder, in the
    output folder given or else in [GTIFF_PRODUCT] in the product folder.
    It is a GTiff of 4 uint16 bands, deflate-compressed, with the height,
    width and transform of the profile of the last band file read, which
    are more than 8 by 8 pixels when [pyramids] is set.  The loop went
    through the [.jp2] names of the folder [IMG_DATA/R10m] of the granule
    found and selected exactly 4 of them, and band [i] of the product is
    the first band of the file recorded under the [i]-th of the codes 02,
    03, 04, 08. *)
Theorem processor_rgbn_product fl ov args w w' :
  processor_rgbn fl ov args w = (w', Ok tt) →
  ∃ out safe t w1 stack w2 stem granule names kwargs,
    processor_rgbn_read fl args w = (w1, Ok (out, safe, t)) ∧
    processor_rgbn_sort ov t w1 = (w2, Ok stack) ∧
    processor_rgbn_export fl args out safe t stack w2 = (w', Ok tt) ∧
    path_name safe = stem +:+ ".SAFE" ∧
    path_parent safe = path_parent (product_path args) ∧
    out = default (safe ++ ["GTIFF_PRODUCT"]) (output_path args) ∧
    find_granule fl safe w1 = (w1, Ok granule) ∧
    jp2_names fl w1 (granule ++ ["IMG_DATA"; "R10m"]) names ∧
    tier_read fl w1 (granule ++ ["IMG_DATA"; "R10m"]) wanted_10m names t ∧
    length (selected wanted_10m names) = 4 ∧
    src_kwargs t = Some kwargs ∧
    (pyramids args = true → ¬ (1 ≤ height kwargs ≤ 8 ∧ 1 ≤ width kwargs ≤ 8)) ∧
    fs_lookup fl w' (out ++ [stem +:+ "_STACK_RGBN.tif"])
      = Some (Raster (Profile "GTiff" uint16 4 (height kwargs) (width kwargs)
                        (transform kwargs) (Some "deflate") (Some "band"))
                (Some stack)) ∧
    nd_dtype stack = uint16 ∧ length (bands stack) = 4 ∧
    ∀ i code, sorted_list_10m !! i = Some code →
      ∃ j im, linear_scan code (code_list t) = Some j ∧
              stack_list t !! j = Some im ∧
              bands stack !! i = Some (cast_plane uint16 (im_data im)).
Proof.
  intros (out & safe & t & w1 & stack & w2 & stem & granule & names & kwargs &
          Hread & Hsort & Hexport & Hname & Hparent & Hout & Hfind & Hnames &
          Htier & Hsel & Hkw & Hovr & Hfile & Hdt & Hlen & Hslots)%processor_rgbn_Ok.
  exists out, safe, t, w1, stack, w2, stem, granule, names, kwargs.
  by split_and!.
Qed.

Lemma rgbn_run_Ok :
  processor_rgbn PosixFlavour Wraps (example_args "nearest" true) large_world
  = (rgbn_run.1, Ok tt).
Proof. by vm_compute. Qed.

(** X14, witness: the product with rasters of 18 pixels a side. *)
Lemma processor_rgbn_product_witness :
  ∃ out safe t w1 stack w2 stem granule names kwargs,
    processor_rgbn_read PosixFlavour (example_args "nearest" true) large_world
      = (w1, Ok (out, safe, t)) ∧
    processor_rgbn_sort Wraps t w1 = (w2, Ok stack) ∧
    processor_rgbn_export PosixFlavour (example_args "nearest" true) out safe t stack w2
      = (rgbn_run.1, Ok tt) ∧
    path_name safe = stem +:+ ".SAFE" ∧
    path_parent safe = path_parent (product_path (example_args "nearest" true)) ∧
    out = default (safe ++ ["GTIFF_PRODUCT"])
            (output_path (example_args "nearest" true)) ∧
    find_granule PosixFlavour safe w1 = (w1, Ok granule) ∧
    jp2_names PosixFlavour w1 (granule ++ ["IMG_DATA"; "R10m"]) names ∧
    tier_read PosixFlavour w1 (granule ++ ["IMG_DATA"; "R10m"]) wanted_10m names t ∧
    length (selected wanted_10m names) = 4 ∧
    src_kwargs t = Some kwargs ∧
    (pyramids (example_args "nearest" true) = true →
     ¬ (1 ≤ height kwargs ≤ 8 ∧ 1 ≤ width kwargs ≤ 8)) ∧
    fs_lookup PosixFlavour rgbn_run.1 (out ++ [stem +:+ "_STACK_RGBN.tif"])
      = Some (Raster (Profile "GTiff" uint16 4 (height kwargs) (width kwargs)
                        (transform kwargs) (Some "deflate") (Some "band"))
                (Some stack)) ∧
    nd_dtype stack = uint16 ∧ length (bands stack) = 4 ∧
    ∀ i code, sorted_list_10m !! i = Some code →
      ∃ j im, linear_scan code (code_list t) = Some j ∧
              stack_list t !! j = Some im ∧
              bands stack !! i = Some (cast_plane uint16 (im_data im)).
Proof.
  apply (processor_rgbn_product PosixFlavour Wraps (example_args "nearest" true)
           large_world rgbn_run.1).
  exact rgbn_run_Ok.
Defined.

(** ** [processor_all] from end to end (lines 33-300) *)

Section fs_remove.
Variable fl : flavour.

Lemma rmtree_lookup_below d n n' rest w w' :
  rmtree fl (d ++ [n]) w = (w', Ok tt) →
  same_name fl n n' = false →
  fs_lookup fl w' (d ++ n' :: rest) = fs_lookup fl w (d ++ n' :: rest).
Proof.
  unfold rmtree. rewrite path_parent_app, path_name_app.
  destruct (fs_lookup fl w (d ++ [n])) as [[]|]; try done.
  destruct (fs_modify fl w d (entry_remove fl n)) as [root'|] eqn:Hmod; [|done].
  intros [= <-] Hne. eapply fs_modify_lookup_below; [|exact Hmod].
  intros es. by apply entry_lookup_remove_ne.
Qed.

(** A change below the entry [n] of the folder [c] keeps what is below
    another entry of [c]. *)
Lemma fs_modify_lookup_diverge c n r f n' rest :
  same_name fl n n' = false →
  ∀ root root',
    fs_modify fl root (c ++ n :: r) f = Some root' →
    fs_lookup fl root' (c ++ n' :: rest) = fs_lookup fl root (c ++ n' :: rest).
Proof.
  intros Hne. induction c as [|a c IH]; intros root root';
    destruct root as [es| | | | |]; simpl; try done.
  - destruct (entry_lookup fl n es) as [x|] eqn:Hn; [|done].
    destruct (fs_modify fl x r f) as [x'|]; [|done].
    intros [= <-]. simpl. by rewrite entry_lookup_put_ne.
  - destruct (entry_lookup fl a es) as [y|] eqn:Ha; [|done].
    destruct (fs_modify fl y (c ++ n :: r) f) as [y'|] eqn:Hmod; [|done].
    intros [= <-]. simpl. rewrite entry_lookup_put_eq. by apply IH.
Qed.

(** Removing a tree keeps what lies apart from it. *)
Lemma rmtree_lookup_diverge p q w w' :
  rmtree fl p w = (w', Ok tt) → diverge fl p q →
  fs_lookup fl w' q = fs_lookup fl w q.
Proof.
  intros Hrm (c & n & n' & r1 & r2 & -> & -> & Hne).
  destruct (decide (r1 = [])) as [->|Hr1].
  - by apply (rmtree_lookup_below c n n' r2).
  - destruct (exists_last Hr1) as (r1' & l & ->).
    revert Hrm. unfold rmtree.
    replace (c ++ n :: r1' ++ [l]) with ((c ++ n :: r1') ++ [l])
      by (by rewrite <- app_assoc).
    rewrite path_parent_app, path_name_app.
    destruct (fs_lookup fl w _) as [[]|]; try done.
    destruct (fs_modify fl w (c ++ n :: r1') (entry_remove fl l)) as [root'|] eqn:Hmod;
      [|done].
    intros [= <-]. by eapply fs_modify_lookup_diverge.
Qed.

Lemma diverge_app p q r : diverge fl p q → diverge fl p (q ++ r).
Proof.
  intros (c & n & n' & r1 & r2 & -> & -> & Hne).
  exists c, n, n', r1, (r2 ++ r). split_and!; [done| |done].
  by rewrite <- app_assoc.
Qed.
End fs_remove.

Section all_from_end_to_end.
Variable fl : flavour.
Variable ov : overflow_policy.
Variable engine : raster_engine.

(** The steps of a run that comes to the merge. *)
Lemma processor_all_front_chain args w w3 st :
  processor_all_front fl ov engine args w = (w3, Ok st) →
  ∃ w0 rd w1 ss w2 kw,
    processor_all_read fl args w = (w0, Ok rd) ∧
    processor_all_sort ov rd w0 = (w1, Ok ss) ∧
    processor_all_save fl rd ss w1 = (w2, Ok kw) ∧
    processor_all_resample fl engine args rd ss kw w2 = (w3, Ok st).
Proof.
  unfold processor_all_front.
  intros (rd & w0 & Hread & Hrest)%bind_Ok.
  apply bind_Ok in Hrest as (ss & w1 & Hsort & Hrest).
  apply bind_Ok in Hrest as (kw & w2 & Hsave & Hres).
  by exists w0, rd, w1, ss, w2, kw.
Qed.

(** What [processor_all] has done when it has read its tiers. *)
Lemma processor_all_read_Ok args w w0 rd :
  processor_all_read fl args w = (w0, Ok rd) →
  ∃ stem granule n10 n20 n60,
    stem ≠ "" ∧
    path_name (rs_safe_path rd) = stem +:+ ".SAFE" ∧
    str_drop_last (path_name (rs_safe_path rd)) 5 = stem ∧
    path_parent (rs_safe_path rd) = path_parent (product_path args) ∧
    rs_temp_path rd = rs_safe_path rd ++ ["TEMP"] ∧
    rs_output_folder_path rd
      = default (rs_safe_path rd ++ ["GTIFF_PRODUCT"]) (output_path args) ∧
    find_granule fl (rs_safe_path rd) w0 = (w0, Ok granule) ∧
    (jp2_names fl w0 (granule ++ ["IMG_DATA"; "R10m"]) n10 ∧
     tier_read fl w0 (granule ++ ["IMG_DATA"; "R10m"]) wanted_10m n10 (rs_tier_10m rd) ∧
     length (stack_list (rs_tier_10m rd)) = length (code_list (rs_tier_10m rd))) ∧
    (jp2_names fl w0 (granule ++ ["IMG_DATA"; "R20m"]) n20 ∧
     tier_read fl w0 (granule ++ ["IMG_DATA"; "R20m"]) wanted_20m n20 (rs_tier_20m rd) ∧
     length (stack_list (rs_tier_20m rd)) = length (code_list (rs_tier_20m rd))) ∧
    (jp2_names fl w0 (granule ++ ["IMG_DATA"; "R60m"]) n60 ∧
     tier_read fl w0 (granule ++ ["IMG_DATA"; "R60m"]) wanted_60m n60 (rs_tier_60m rd) ∧
     length (stack_list (rs_tier_60m rd)) = length (code_list (rs_tier_60m rd))).
Proof.
  unfold processor_all_read.
  intros (safe & wa & Hcheck & Hread)%bind_Ok.
  apply check_path_validity_stem in Hcheck as (stem & Hstem & Hname & Hdrop & Hparent).
  apply bind_Ok in Hread as (out & wb & [Hout _]%output_folder_Ok & Hread).
  apply bind_Ok in Hread as ([] & wc & _ & Hread).
  apply bind_Ok in Hread as (granule & wd & Hfind & Hread).
  pose proof (find_granule_matches _ _ _ _ _ Hfind) as [-> _].
  apply bind_Ok in Hread as ([] & we & [-> _]%l2a_guard_Ok & Hread).
  apply bind_Ok in Hread as (n10 & wf & [-> Hn10]%band_names_Ok & Hread).
  apply bind_Ok in Hread as (n20 & wg & [-> Hn20]%band_names_Ok & Hread).
  apply bind_Ok in Hread as (n60 & wh & [-> Hn60]%band_names_Ok & Hread).
  apply bind_Ok in Hread as (t10 & wi & (-> & Ht10 & Hl10)%read_tier_tier_read & Hread).
  apply bind_Ok in Hread as (t20 & wj & (-> & Ht20 & Hl20)%read_tier_tier_read & Hread).
  apply bind_Ok in Hread as (t60 & wk & (-> & Ht60 & Hl60)%read_tier_tier_read & Hret).
  injection Hret as <- <-. simpl.
  by exists stem, granule, n10, n20, n60.
Qed.

Lemma save_stack_Ok d n kwargs a w w' :
  save_stack fl (d ++ [n]) kwargs a w = (w', Ok tt) →
  fs_lookup fl w' (d ++ [n]) = Some (Raster kwargs (Some a)) ∧
  length (bands a) = count kwargs ∧
  ∀ n', same_name fl n n' = false →
    same_name fl (n +:+ ".aux.xml") n' = false →
    same_name fl (n +:+ ".ovr") n' = false →
    fs_lookup fl w' (d ++ [n']) = fs_lookup fl w (d ++ [n']).
Proof.
  unfold save_stack. intros ([] & w1 & Hcreate & Hwrite)%bind_Ok.
  assert (Hcount : length (bands a) = count kwargs).
  { revert Hwrite. unfold raster_write. by case_decide. }
  apply raster_create_lookup in Hcreate as [_ Hc].
  apply raster_write_lookup in Hwrite as [Hsame Hw]. split_and!; [done..|].
  intros n' Hne Hxml Hovr. rewrite Hw by done. apply Hc; auto.
Qed.

Lemma processor_all_save_Ok rd ss w w' kwargs :
  processor_all_save fl rd ss w = (w', Ok kwargs) →
  ∃ k10 k20 k60,
    src_kwargs (rs_tier_10m rd) = Some k10 ∧
    src_kwargs (rs_tier_20m rd) = Some k20 ∧
    src_kwargs (rs_tier_60m rd) = Some k60 ∧
    kwargs = update_kwargs k10 4 ∧
    length (bands (ss_stack_10m_sorted ss)) = 4 ∧
    length (bands (ss_stack_20m_sorted ss)) = 6 ∧
    length (bands (ss_stack_60m_sorted ss)) = 2 ∧
    fs_lookup fl w' (stack_temp_20m rd)
      = Some (Raster (update_kwargs k20 6) (Some (ss_stack_20m_sorted ss))) ∧
    fs_lookup fl w' (stack_temp_60m rd)
      = Some (Raster (update_kwargs k60 2) (Some (ss_stack_60m_sorted ss))).
Proof.
  unfold processor_all_save.
  intros (k10 & w1 & H10 & Hrun)%bind_Ok.
  apply bind_Ok in Hrun as (k20 & w2 & H20 & Hrun).
  apply bind_Ok in Hrun as (k60 & w3 & H60 & Hrun).
  apply bind_Ok in Hrun as ([] & w4 & Hs10 & Hrun).
  apply bind_Ok in Hrun as ([] & w5 & Hs20 & Hrun).
  apply bind_Ok in Hrun as ([] & w6 & Hs60 & Hrun).
  injection Hrun as <- <-.
  destruct (src_kwargs (rs_tier_10m rd)) as [k10'|]; [|done]. injection H10 as <- <-.
  destruct (src_kwargs (rs_tier_20m rd)) as [k20'|]; [|done]. injection H20 as <- <-.
  destruct (src_kwargs (rs_tier_60m rd)) as [k60'|]; [|done]. injection H60 as <- <-.
  apply save_stack_Ok in Hs10 as (_ & Hc10 & _).
  apply save_stack_Ok in Hs20 as (Hf20 & Hc20 & _).
  apply save_stack_Ok in Hs60 as (Hf60 & Hc60 & Hk60).
  exists k10', k20', k60'. split_and!; [done..| |done].
  unfold stack_temp_20m. rewrite Hk60; [done|by destruct fl..].
Qed.

(** The three stacks of a run that has saved them are sorted against the
    canonical lists. *)
Lemma processor_all_sorted args w w0 rd w1 ss w2 kw :
  processor_all_read fl args w = (w0, Ok rd) →
  processor_all_sort ov rd w0 = (w1, Ok ss) →
  processor_all_save fl rd ss w1 = (w2, Ok kw) →
  sorted_against ["02"; "03"; "04"; "08"] (rs_tier_10m rd) (ss_stack_10m_sorted ss) ∧
  sorted_against ["05"; "06"; "07"; "11"; "12"; "8A"] (rs_tier_20m rd)
    (ss_stack_20m_sorted ss) ∧
  sorted_against ["01"; "09"] (rs_tier_60m rd) (ss_stack_60m_sorted ss).
Proof.
  intros (stem & granule & n10 & n20 & n60 & _ & _ & _ & _ & _ & _ & _ &
          (_ & _ & Hl10) & (_ & _ & Hl20) & (_ & _ & Hl60))%processor_all_read_Ok
         Hsort
         (k10 & k20 & k60 & _ & _ & _ & _ & Hc10 & Hc20 & Hc60 & _)%processor_all_save_Ok.
  unfold processor_all_sort in Hsort.
  apply bind_Ok in Hsort as (s10 & wa & Hs10 & Hsort).
  apply bind_Ok in Hsort as (s20 & wb & Hs20 & Hsort).
  apply bind_Ok in Hsort as (s60 & wc & Hs60 & Hret).
  injection Hret as <- <-. simpl in *.
  split_and!; (eapply sort_tier_sorted_against; [eassumption|done|done|simpl; lia]).
Qed.

Lemma read_resampled_stored p scale res w w' prof stored data tr :
  fs_lookup fl w p = Some (Raster prof (Some stored)) →
  p_dtype prof = uint16 → length (bands stored) = count prof →
  read_resampled fl engine p scale res w = (w', Ok (data, tr)) →
  w' = w ∧ resampled engine res scale prof stored data ∧
  tr = scaled_transform engine (transform prof) (width prof) (width prof * scale)
         (height prof) (height prof * scale) ∧
  height prof * scale ≠ 0 ∧ width prof * scale ≠ 0.
Proof.
  intros Hlook Hdt Hcount. unfold read_resampled, bind, raster_open.
  rewrite Hlook. case_decide as Hzero; [done|]. intros [= <- <- <-].
  split_and!; [done| |done|lia|lia].
  unfold resampled. rewrite Hdt, <- Hcount. by rewrite firstn_all.
Qed.

Lemma parse_resample_pure r w w' res :
  parse_resample r w = (w', Ok res) →
  w' = w ∧ ∀ w0 : node, parse_resample r w0 = (w0, Ok res).
Proof.
  unfold parse_resample. repeat case_bool_decide; try done; by intros [= <- <-].
Qed.

(** The stacks that the resampling step hands to the merge. *)
Lemma processor_all_resample_Ok args rd ss w1 w2 kw w3 st :
  processor_all_save fl rd ss w1 = (w2, Ok kw) →
  processor_all_resample fl engine args rd ss kw w2 = (w3, Ok st) →
  ∃ k10 k20 k60 res,
    src_kwargs (rs_tier_10m rd) = Some k10 ∧
    src_kwargs (rs_tier_20m rd) = Some k20 ∧
    src_kwargs (rs_tier_60m rd) = Some k60 ∧
    (∀ w0 : node, parse_resample (resample args) w0 = (w0, Ok res)) ∧
    resample args ∈ ["nearest"; "bilinear"; "cubic"] ∧
    mi_output_folder_path st = rs_output_folder_path rd ∧
    mi_safe_path st = rs_safe_path rd ∧
    mi_temp_path st = rs_temp_path rd ∧
    mi_src_10m_kwargs st = update_kwargs k10 4 ∧
    mi_stack_10m_sorted st = ss_stack_10m_sorted ss ∧
    length (bands (ss_stack_10m_sorted ss)) = 4 ∧
    length (bands (ss_stack_20m_sorted ss)) = 6 ∧
    length (bands (ss_stack_60m_sorted ss)) = 2 ∧
    resampled engine res 2 (update_kwargs k20 6) (ss_stack_20m_sorted ss)
      (mi_data_20m st) ∧
    resampled engine res 6 (update_kwargs k60 2) (ss_stack_60m_sorted ss)
      (mi_data_60m st) ∧
    length (bands (mi_data_20m st)) = 6 ∧ length (bands (mi_data_60m st)) = 2 ∧
    mi_transform_20m st
      = scaled_transform engine (transform k20) (width k20) (width k20 * 2)
          (height k20) (height k20 * 2) ∧
    mi_transform_60m st
      = scaled_transform engine (transform k60) (width k60) (width k60 * 6)
          (height k60) (height k60 * 6) ∧
    height k20 ≠ 0 ∧ width k20 ≠ 0 ∧ height k60 ≠ 0 ∧ width k60 ≠ 0.
Proof.
  intros (k10 & k20 & k60 & Hk10 & Hk20 & Hk60 & -> & Hc10 & Hc20 & Hc60 & Hf20 & Hf60)
           %processor_all_save_Ok Hres.
  unfold processor_all_resample in Hres.
  apply bind_Ok in Hres as (res & w5 & Hparse & Hres).
  pose proof (parse_resample_Ok _ _ _ _ Hparse) as Hvalid.
  apply parse_resample_pure in Hparse as [-> Hparse].
  apply bind_Ok in Hres as ((d20 & tr20) & w6 & H20 & Hres).
  apply (read_resampled_stored _ _ _ _ _ _ _ _ _ Hf20 eq_refl Hc20) in H20
    as (-> & Hd20 & -> & Hh20 & Hw20).
  apply bind_Ok in Hres as ((d60 & tr60) & w7 & H60 & Hret).
  apply (read_resampled_stored _ _ _ _ _ _ _ _ _ Hf60 eq_refl Hc60) in H60
    as (-> & Hd60 & -> & Hh60 & Hw60).
  injection Hret as <- <-. simpl in *.
  exists k10, k20, k60, res. split_and!; try done; try lia.
  - unfold invalid_resample in Hvalid.
    destruct (decide (resample args ∈ ["nearest"; "bilinear"; "cubic"])); [done|].
    by destruct Hvalid.
  - rewrite Hd20. simpl. by rewrite length_map.
  - rewrite Hd60. simpl. by rewrite length_map.
Qed.

(** What the last part of a run that returns has done. *)
Lemma processor_all_back_Ok args st w3 w' stem :
  stem ≠ "" → str_drop_last (path_name (mi_safe_path st)) 5 = stem →
  processor_all_back fl engine args st w3 = (w', Ok tt) →
  transform_eq engine (mi_transform_20m st) (mi_transform_60m st) = true ∧
  ∃ stack,
    merge_stack (mi_stack_10m_sorted st) (mi_data_20m st) (mi_data_60m st)
      = Ok stack ∧
    length (bands stack) = 12 ∧
    (4 ≤ length (bands (mi_stack_10m_sorted st)) ∧
     6 ≤ length (bands (mi_data_20m st)) ∧
     2 ≤ length (bands (mi_data_60m st))) ∧
    (pyramids args = true →
     ¬ (1 ≤ height (mi_src_10m_kwargs st) ≤ 8 ∧ 1 ≤ width (mi_src_10m_kwargs st) ≤ 8)) ∧
    (diverge fl (mi_temp_path st) (mi_output_folder_path st) →
     fs_lookup fl w'
       (mi_output_folder_path st ++
        [stem +:+ "_" +:+ upper (resample args) +:+ "_STACK_ALL.tif"])
       = Some (Raster (update_kwargs (mi_src_10m_kwargs st) 12) (Some stack))).
Proof.
  intros Hstem Hdrop Hback. unfold processor_all_back in Hback.
  apply bind_Ok in Hback as (stack' & w1' & Hmerge & Hback).
  apply bind_Ok in Hback as ([] & w2 & Hexport & Hrm).
  unfold merge in Hmerge.
  destruct (transform_eq engine _ _) eqn:Heq.
  2:{ injection Hmerge as <- <-.
      destruct (export_unbound fl (mi_output_folder_path st)
                  (str_drop_last (path_name (mi_safe_path st)) 5 +:+ "_" +:+
                   upper (resample args) +:+ "_STACK_ALL.tif")
                  (update_kwargs (mi_src_10m_kwargs st) 12) (xml args)
                  (pyramids args) w3) as (wx & e & Hx & _).
      unfold name_output_all in Hexport. rewrite Hx in Hexport. discriminate. }
  split; [done|].
  apply bind_Ok in Hmerge as (stack & w1'' & Hmerge & Hret).
  unfold lift in Hmerge.
  destruct (merge_stack _ _ _) as [stack''| |] eqn:Hstack; try done.
  injection Hmerge as <- <-. injection Hret as <- <-.
  unfold name_output_all in Hexport. rewrite Hdrop in Hexport.
  set (name := stem +:+ "_" +:+ upper (resample args) +:+ "_STACK_ALL.tif") in *.
  assert (Hname' : name = (stem +:+ "_" +:+ upper (resample args) +:+ "_STACK_ALL")
                          +:+ ".tif").
  { unfold name. rewrite !append_assoc. reflexivity. }
  rewrite Hname' in Hexport.
  apply export_Ok in Hexport as (Hfile & Hcount & Hovr & _);
    [|by apply append_nonempty].
  rewrite <- Hname' in Hfile. simpl in Hcount.
  assert (4 ≤ length (bands (mi_stack_10m_sorted st)) ∧
          6 ≤ length (bands (mi_data_20m st)) ∧
          2 ≤ length (bands (mi_data_60m st))) as Hmin.
  { pose proof (merge_stack_bands _ _ _ _ Hstack) as Hbands.
    pose proof Hcount as Hcount'.
    rewrite Hbands in Hcount'. rewrite !length_app in Hcount'.
    rewrite !length_take, !length_drop in Hcount'.
    destruct (length (bands (mi_stack_10m_sorted st))) as [|[|[|[|n10]]]],
             (length (bands (mi_data_20m st))) as [|[|[|[|[|[|n20]]]]]],
             (length (bands (mi_data_60m st))) as [|[|n60]];
      simpl in Hcount'; try discriminate; lia. }
  exists stack''. split; [done|]. split; [done|]. split; [done|]. split.
  - intros Hp. specialize (Hovr Hp) as [Hsmall _].
    by rewrite too_small_iff in Hsmall.
  - intros Hdiv. rewrite <- Hfile.
    eapply rmtree_lookup_diverge; [exact Hrm|]. by apply diverge_app.
Qed.

(** X15.  When [processor_all] returns, the transforms of the two
    resampled stacks were equal and [resample] was one of the three
    options; the product is the merge of the sorted 10m stack and the two
    resampled stacks, 12 bands of one shape, so each stack held at least 4,
    6 and 2 bands; with [pyramids] set it has more than 8 by 8 pixels.  It
    is in [stem_RESAMPLE_STACK_ALL.tif], [RESAMPLE] being the option in
    capitals and [stem.SAFE] the product folder, with the profile of the
    10m tier set to 12 uint16 bands: in [GTIFF_PRODUCT] in the product
    folder, or in the output folder given when that lies apart from the
    temporary folder. *)
Theorem processor_all_product args w w' :
  processor_all fl ov engine args w = (w', Ok tt) →
  ∃ w3 st safe stem stack,
    processor_all_front fl ov engine args w = (w3, Ok st) ∧
    processor_all_back fl engine args st w3 = (w', Ok tt) ∧
    mi_safe_path st = safe ∧
    path_name safe = stem +:+ ".SAFE" ∧
    path_parent safe = path_parent (product_path args) ∧
    resample args ∈ ["nearest"; "bilinear"; "cubic"] ∧
    transform_eq engine (mi_transform_20m st) (mi_transform_60m st) = true ∧
    merge_stack (mi_stack_10m_sorted st) (mi_data_20m st) (mi_data_60m st)
      = Ok stack ∧
    length (bands stack) = 12 ∧
    (4 ≤ length (bands (mi_stack_10m_sorted st)) ∧
     6 ≤ length (bands (mi_data_20m st)) ∧
     2 ≤ length (bands (mi_data_60m st))) ∧
    (pyramids args = true →
     ¬ (1 ≤ height (mi_src_10m_kwargs st) ≤ 8 ∧ 1 ≤ width (mi_src_10m_kwargs st) ≤ 8)) ∧
    (output_path args = None →
     fs_lookup fl w'
       (safe ++ ["GTIFF_PRODUCT";
                 stem +:+ "_" +:+ upper (resample args) +:+ "_STACK_ALL.tif"])
       = Some (Raster (update_kwargs (mi_src_10m_kwargs st) 12) (Some stack))) ∧
    (∀ out, output_path args = Some out → diverge fl (safe ++ ["TEMP"]) out →
     fs_lookup fl w'
       (out ++ [stem +:+ "_" +:+ upper (resample args) +:+ "_STACK_ALL.tif"])
       = Some (Raster (update_kwargs (mi_src_10m_kwargs st) 12) (Some stack))).
Proof.
  unfold processor_all.
  intros (st & w3 & Hfront & Hback)%bind_Ok.
  pose proof (processor_all_front_chain _ _ _ _ Hfront)
    as (w0 & rd & w1 & ss & w2 & kw & Hread & Hsort & Hsave & Hres).
  pose proof (processor_all_read_Ok _ _ _ _ Hread)
    as (stem & granule & n10 & n20 & n60 & Hstem & Hname & Hdrop & Hparent &
        Htemp & Hout & _).
  pose proof (processor_all_resample_Ok _ _ _ _ _ _ _ _ Hsave Hres)
    as (k10 & k20 & k60 & res & _ & _ & _ & _ & Hvalid & Hmout & Hmsafe & Hmtemp & _).
  rewrite <- Hmsafe in Hdrop.
  pose proof (processor_all_back_Ok _ _ _ _ _ Hstem Hdrop Hback)
    as (Heq & stack & Hmerge & Hlen & (H4 & H6 & H2) & Hovr & Hfile).
  rewrite Hmtemp, Hmout, Htemp, Hout in Hfile.
  exists w3, st, (rs_safe_path rd), stem, stack.
  split_and!; [done..| |].
  - intros Hnone. rewrite Hnone in Hfile. simpl in Hfile.
    rewrite <- app_assoc in Hfile. apply Hfile.
    exists (rs_safe_path rd), "TEMP", "GTIFF_PRODUCT", [], [].
    split_and!; [done..|]. by apply same_name_length.
  - intros out Hsome Hdiv. rewrite Hsome in Hfile. by apply Hfile.
Qed.
End all_from_end_to_end.

Lemma all_run_Ok :
  processor_all PosixFlavour Wraps example_engine (example_args "nearest" true)
    large_world
  = (all_run.1, Ok tt).
Proof. by vm_compute. Qed.

(** X15, witness: the product with rasters of 18 pixels a side. *)
Lemma processor_all_product_witness :
  ∃ w3 st safe stem stack,
    processor_all_front PosixFlavour Wraps example_engine
      (example_args "nearest" true) large_world = (w3, Ok st) ∧
    processor_all_back PosixFlavour example_engine (example_args "nearest" true) st w3
      = (all_run.1, Ok tt) ∧
    path_name safe = stem +:+ ".SAFE" ∧
    length (bands stack) = 12 ∧
    fs_lookup PosixFlavour all_run.1
      (safe ++ ["GTIFF_PRODUCT";
                stem +:+ "_" +:+ upper (resample (example_args "nearest" true))
                  +:+ "_STACK_ALL.tif"])
      = Some (Raster (update_kwargs (mi_src_10m_kwargs st) 12) (Some stack)).
Proof.
  destruct (processor_all_product PosixFlavour Wraps example_engine
              (example_args "nearest" true) large_world all_run.1 all_run_Ok)
    as (w3 & st & safe & stem & stack & Hfront & Hback & _ & Hname & _ & _ & _ & _ &
        Hlen & _ & _ & Hfile & _).
  exists w3, st, safe, stem, stack. split_and!; [done..|]. by apply Hfile.
Defined.

(** ** An output folder that does not exist (lines 330-340 and 388-408) *)

Lemma sort_tier_nonempty ov t sorted_list (w w' : node) out :
  sort_tier ov t sorted_list w = (w', Ok out) → stack_list t ≠ [].
Proof.
  unfold sort_tier, lift.
  intros (o & w1 & Harr & Hsort)%bind_Ok.
  destruct (np_asarray (stack_list t)) as [o'| |] eqn:Hasarray; try done.
  injection Harr as <- <-.
  destruct (stack_sort_call ov o' (code_list t) sorted_list) as [out'| |] eqn:Hcall;
    try done.
  apply stack_sort_call_Ok_inv in Hcall as (a & dst & -> & _).
  by apply np_asarray_Ok_Nd3 in Hasarray as (_ & Hne & _).
Qed.

Lemma tier_read_kwargs fl w dir wanted names t :
  tier_read fl w dir wanted names t → stack_list t ≠ [] → is_Some (src_kwargs t).
Proof.
  intros (_ & read & Hstack & _ & ->) Hne.
  destruct read as [|pi read _] using rev_ind; [by rewrite Hstack in Hne|].
  rewrite last_snoc. by eexists.
Qed.

Lemma fs_lookup_None_app fl d rest :
  ∀ w, fs_lookup fl w d = None → fs_lookup fl w (d ++ rest) = None.
Proof.
  induction d as [|c d IH]; intros w; [done|].
  destruct w as [es| | | | |]; simpl; try done.
  destruct (entry_lookup fl c es) as [y|]; [|done]. apply IH.
Qed.

(** The export into a folder that is not there. *)
Lemma export_no_folder fl stack out stem new_kwargs xml pyramids w :
  fs_lookup fl w out = None → stem ≠ "" →
  ∃ e,
    export fl (Some stack) (out ++ [stem +:+ ".tif"]) new_kwargs xml pyramids w
      = (w, Raise e) ∧
    (xml = false → e = RasterioIOError) ∧
    (xml = true → e = ValueError ∨ e = missing_error fl w out).
Proof.
  intros Hnone Hstem. destruct xml.
  - unfold export, create_pam_xml.
    rewrite with_suffix_app by (done || apply is_suffix_tif).
    destruct (calculate_statistics stack) as [n|e|] eqn:Hstats.
    + exists (missing_error fl w out). split_and!; [|done|by right].
      apply bind_run_Raise. rewrite (bind_run_Ok _ _ _ w stack) by done.
      unfold lift. rewrite (bind_run_Ok _ _ _ w n) by (by rewrite Hstats).
      unfold xml_write. rewrite (fs_lookup_None_app fl out _ w Hnone).
      unfold fs_put. rewrite path_parent_app, path_name_app.
      rewrite (fs_modify_None fl out _ w Hnone). unfold no_directory.
      by rewrite Hnone.
    + exists ValueError. split_and!; [|done|by left].
      apply bind_run_Raise. rewrite (bind_run_Ok _ _ _ w stack) by done.
      apply bind_run_Raise. unfold lift. rewrite Hstats.
      revert Hstats. unfold calculate_statistics. case_decide; [|done].
      by intros [= <-].
    + revert Hstats. unfold calculate_statistics. by case_decide.
  - exists RasterioIOError. split_and!; [|done..].
    unfold export. rewrite (bind_run_Ok _ _ _ w tt) by done.
    apply bind_run_Raise. unfold raster_create.
    by rewrite path_parent_app, Hnone.
Qed.

(** X16.  An output folder that is given is not created, unlike the
    default one.  When it does not exist, [processor_rgbn] on a [.SAFE]
    folder does not return: a run that has read and sorted its tier stops
    in the export, with rasterio's error from the dataset when [xml] is
    off, and from the statistics when it is on, with [ValueError] for bands
    without pixels and else with the error of the missing path.  The
    folder is still not there afterwards. *)
Theorem export_missing_folder fl ov args out w :
  path_suffix (product_path args) = ".SAFE" →
  output_path args = Some out →
  fs_lookup fl w out = None →
  (∀ w', processor_rgbn fl ov args w ≠ (w', Ok tt)) ∧
  (∀ out' safe t w1 stack w2,
     processor_rgbn_read fl args w = (w1, Ok (out', safe, t)) →
     processor_rgbn_sort ov t w1 = (w2, Ok stack) →
     ∃ w' e,
       processor_rgbn fl ov args w = (w', Raise e) ∧
       fs_lookup fl w' out = None ∧
       (xml args = false → e = RasterioIOError) ∧
       (xml args = true → e = ValueError ∨ e = missing_error fl w out)).
Proof.
  intros Hsfx Hout Hnone.
  assert (Hstop : ∀ out' safe t w1 stack w2,
     processor_rgbn_read fl args w = (w1, Ok (out', safe, t)) →
     processor_rgbn_sort ov t w1 = (w2, Ok stack) →
     ∃ w' e,
       processor_rgbn fl ov args w = (w', Raise e) ∧
       fs_lookup fl w' out = None ∧
       (xml args = false → e = RasterioIOError) ∧
       (xml args = true → e = ValueError ∨ e = missing_error fl w out)).
  { intros out' safe t w1 stack w2 Hread Hsort.
    pose proof (processor_rgbn_read_Ok _ _ _ _ _ _ _ Hread)
      as (w0 & granule & names & Hcheck & Hfolder & _ & _ & _ & Htier & _).
    pose proof (check_path_validity_stem _ _ _ _ _ Hcheck)
      as (stem & Hstem & _ & Hdrop & _).
    apply check_path_validity_Ok in Hcheck as [(_ & _ & ->)|(Hzip & _)];
      [|rewrite Hsfx in Hzip; discriminate].
    rewrite Hout in Hfolder. injection Hfolder as <- <-.
    unfold processor_rgbn_sort in Hsort.
    pose proof (sort_tier_nonempty _ _ _ _ _ _ Hsort) as Hne.
    destruct (tier_read_kwargs _ _ _ _ _ _ Htier Hne) as [kwargs Hkw].
    pose proof Hsort as (-> & _)%sort_tier_Ok.
    destruct (export_no_folder fl stack out (stem +:+ "_STACK_RGBN")
                (update_kwargs kwargs 4) (xml args) (pyramids args) w Hnone)
      as (e & Hexport & He); [by apply append_nonempty|].
    exists w, e. split; [|by split].
    unfold processor_rgbn. rewrite (bind_run_Ok _ _ _ _ _ Hread).
    unfold processor_rgbn_sort. rewrite (bind_run_Ok _ _ _ _ _ Hsort).
    unfold processor_rgbn_export. rewrite Hkw.
    rewrite (bind_run_Ok _ _ _ w kwargs) by done. rewrite Hdrop.
    rewrite <- Hexport. by rewrite append_assoc. }
  split; [|exact Hstop].
  intros w' Hrun. pose proof Hrun as Hrun'. unfold processor_rgbn in Hrun'.
  apply bind_Ok in Hrun' as ([[out' safe] t] & w1 & Hread & Hrest).
  apply bind_Ok in Hrest as (stack & w2 & Hsort & _).
  destruct (Hstop _ _ _ _ _ _ Hread Hsort) as (w'' & e & Hraise & _).
  rewrite Hrun in Hraise. discriminate.
Qed.

Lemma missing_out_read :
  processor_rgbn_read PosixFlavour missing_out_args example_world
  = (example_world, Ok (["out"], safe_example, tier_10m_read_example)).
Proof. by vm_compute. Qed.

Lemma missing_out_sort :
  processor_rgbn_sort Wraps tier_10m_read_example example_world
  = (example_world,
     Ok (NdArray uint16 6 6 [const_plane 6 6 2; const_plane 6 6 3;
                             const_plane 6 6 4; const_plane 6 6 8])).
Proof. by vm_compute. Qed.

(** X16, witness: the folder [out] of the concrete world, which has
    only [data]. *)
Lemma export_missing_folder_witness :
  ∃ w' e,
    processor_rgbn PosixFlavour Wraps missing_out_args example_world = (w', Raise e) ∧
    fs_lookup PosixFlavour w' ["out"] = None ∧
    (e = ValueError ∨ e = missing_error PosixFlavour example_world ["out"]).
Proof.
  destruct (proj2 (export_missing_folder PosixFlavour Wraps missing_out_args ["out"]
                     example_world eq_refl eq_refl eq_refl)
              _ _ _ _ _ _ missing_out_read missing_out_sort)
    as (w' & e & Hrun & Hnone & _ & Hxml).
  exists w', e. split; [exact Hrun|]. split; [exact Hnone|]. by apply Hxml.
Defined.

(** ** A tier without bands (lines 74-142) *)

(** X17.  A loop that selects no file of its folder leaves empty lists and
    no profile, and the sort of such a tier raises [ValueError]:
    [np.asarray([])] has the shape [(0,)], which [stack_sort] cannot unpack
    into three numbers.  So does every call of [stack_sort] on an array
    that is not 3-D, before anything is allocated. *)
Theorem empty_tier_ValueError fl ov dir wanted names sorted_list w w' t :
  read_tier fl dir wanted names (Tier [] [] None) w = (w', Ok t) →
  selected wanted names = [] →
  t = Tier [] [] None ∧
  sort_tier ov t sorted_list w' = (w', Raise ValueError) ∧
  ∀ (h : heap) lst lc ls dt xs,
    h !! lst = Some (Nd1 dt xs) →
    stack_sort ov lst lc ls h = (h, Raise ValueError).
Proof.
  intros (_ & Hcodes & read & Hstack & Hfiles & Hkw)%read_tier_Ok Hnone.
  rewrite Hnone in Hcodes, Hfiles. apply Forall2_nil_inv_l in Hfiles as ->.
  simpl in *. assert (t = Tier [] [] None) as ->.
  { destruct t as [codes images kwargs]. simpl in *. by subst. }
  split_and!; [done..|].
  intros h lst lc ls dt xs Hst.
  unfold stack_sort, shape3, bind, deref. by rewrite Hst.
Qed.

(** X17, witness: a folder that holds the true-colour image only. *)
Lemma empty_tier_ValueError_witness :
  sort_tier Wraps (Tier [] [] None) sorted_list_60m example_world
    = (example_world, Raise ValueError).
Proof.
  eapply proj1, proj2.
  apply (empty_tier_ValueError PosixFlavour Wraps ["R60m"] wanted_60m
           ["T34SGH_20230101T092401_TCI_60m.jp2"] sorted_list_60m
           example_world example_world (Tier [] [] None)).
  - reflexivity.
  - reflexivity.
Defined.

Lemma read_tier_10m_example :
  ∃ w' t,
    read_tier PosixFlavour r10m_example wanted_10m names_10m_example
      (Tier [] [] None) example_world = (w', Ok t).
Proof. eexists _, _. vm_compute. reflexivity. Qed.

(** X10, witness: the 10m folder of the concrete product. *)
Lemma read_tier_selected_witness :
  ∃ w' t,
    read_tier PosixFlavour r10m_example wanted_10m names_10m_example
      (Tier [] [] None) example_world = (w', Ok t) ∧
    code_list t = ["08"; "02"; "04"; "03"] ∧
    length (stack_list t) = length (code_list t).
Proof.
  destruct read_tier_10m_example as (w' & t & Hrun). exists w', t.
  split; [exact Hrun|].
  destruct (read_tier_selected PosixFlavour r10m_example wanted_10m names_10m_example
              example_world w' t Hrun) as (Hcodes & Hlen & _).
  split; [exact Hcodes|exact Hlen].
Defined.

(** X8, witness: the third file of the 10m folder, the second that the
    loop selects. *)
Lemma band_code_of_name_witness :
  ∃ w' t,
    read_tier PosixFlavour r10m_example wanted_10m names_10m_example
      (Tier [] [] None) example_world = (w', Ok t) ∧
    code_list t !! 1 = Some "02".
Proof.
  destruct read_tier_10m_example as (w' & t & Hrun). exists w', t.
  split; [exact Hrun|].
  apply (band_code_of_name PosixFlavour r10m_example wanted_10m names_10m_example
           example_world w' t 1 "T34SGH" "20230101T092401" "02" "_10m.jp2" Hrun);
    reflexivity.
Defined.

(** * The default output folder (processors.py, lines 39-47 and 330-338) *)

Section output_folder.
Variable fl : flavour.

Lemma entry_lookup_fresh n es :
  Forall (λ e : string * node, same_name fl n e.1 = false) es →
  entry_lookup fl n es = None.
Proof.
  induction 1 as [|[m y] es Hm _ IH]; simpl; [done|].
  simpl in Hm. by rewrite Hm.
Qed.

Lemma entry_lookup_remove_eq n es :
  unique_names fl es → entry_lookup fl n (entry_remove fl n es) = None.
Proof.
  induction es as [|[m y] es IH]; simpl; [done|]. intros [Hfresh Hunique].
  destruct (same_name fl n m) eqn:Hnm.
  - apply entry_lookup_fresh. eapply Forall_impl; [exact Hfresh|].
    intros [k z] Hk. simpl in *.
    rewrite same_name_sym in Hnm. rewrite same_name_sym.
    by apply (same_name_trans_false fl m k n).
  - simpl. rewrite Hnm. by apply IH.
Qed.

Lemma rmtree_removes d n es w :
  fs_lookup fl w d = Some (Dir es) → unique_names fl es →
  (∃ old, fs_lookup fl w (d ++ [n]) = Some (Dir old)) →
  ∃ w', rmtree fl (d ++ [n]) w = (w', Ok tt) ∧
        fs_lookup fl w' d = Some (Dir (entry_remove fl n es)) ∧
        fs_lookup fl w' (d ++ [n]) = None ∧
        ∀ n' rest, same_name fl n n' = false →
          fs_lookup fl w' (d ++ n' :: rest) = fs_lookup fl w (d ++ n' :: rest).
Proof.
  intros Hdir Hunique [old Hold]. unfold rmtree.
  rewrite Hold, path_parent_app, path_name_app.
  destruct (fs_modify_Dir fl d (entry_remove fl n) w es Hdir) as [w' Hmod].
  rewrite Hmod. exists w'. split; [done|].
  pose proof (fs_modify_lookup_self _ _ _ _ _ _ Hmod Hdir) as Hself.
  split_and!; [done|..].
  - rewrite fs_lookup_app, Hself. by apply entry_lookup_remove_eq.
  - intros n' rest Hne. eapply fs_modify_lookup_below; [|exact Hmod].
    intros es'. by apply entry_lookup_remove_ne.
Qed.

Lemma mkdir_creates d n es w :
  fs_lookup fl w d = Some (Dir es) → fs_lookup fl w (d ++ [n]) = None →
  ∃ w', mkdir fl (d ++ [n]) w = (w', Ok tt) ∧
        fs_lookup fl w' (d ++ [n]) = Some (Dir []) ∧
        ∀ n', same_name fl n n' = false →
          fs_lookup fl w' (d ++ [n']) = fs_lookup fl w (d ++ [n']).
Proof.
  intros Hdir Hnone. unfold mkdir. rewrite Hnone.
  destruct (fs_modify_Dir fl d (entry_put fl n (Dir [])) w es Hdir) as [w' Hmod].
  assert (Hput : fs_put fl (d ++ [n]) (Dir []) w = (w', Ok tt)).
  { unfold fs_put. by rewrite path_parent_app, path_name_app, Hmod. }
  exists w'. split; [done|]. by apply fs_put_lookup.
Qed.

(** X18.  Without an output folder given, the product goes to
    [GTIFF_PRODUCT] in the product folder, and the run starts by making
    that folder anew: one that is there is removed with all it holds,
    products of earlier runs among them, and an empty one is made.  The
    other entries of the product folder stay.  A file of that name stops
    the run with [NotADirectoryError]. *)
Theorem output_folder_default safe_path es w :
  fs_lookup fl w safe_path = Some (Dir es) → unique_names fl es →
  (fs_lookup fl w (safe_path ++ ["GTIFF_PRODUCT"]) = None ∨
   (∃ old, fs_lookup fl w (safe_path ++ ["GTIFF_PRODUCT"]) = Some (Dir old)) →
   ∃ w', output_folder fl safe_path None w
           = (w', Ok (safe_path ++ ["GTIFF_PRODUCT"])) ∧
         fs_lookup fl w' (safe_path ++ ["GTIFF_PRODUCT"]) = Some (Dir []) ∧
         ∀ n', same_name fl "GTIFF_PRODUCT" n' = false →
           fs_lookup fl w' (safe_path ++ [n']) = fs_lookup fl w (safe_path ++ [n'])) ∧
  (∀ x, fs_lookup fl w (safe_path ++ ["GTIFF_PRODUCT"]) = Some x →
        (∀ old, x ≠ Dir old) →
        output_folder fl safe_path None w = (w, Raise NotADirectoryError)).
Proof.
  intros Hdir Hunique. split.
  - intros [Hnone|Hold]; unfold output_folder, bind, path_exists.
    + rewrite Hnone. simpl.
      destruct (mkdir_creates _ "GTIFF_PRODUCT" _ _ Hdir Hnone)
        as (w' & Hmk & Hnew & Hkeep).
      rewrite Hmk. by exists w'.
    + destruct (rmtree_removes _ "GTIFF_PRODUCT" _ _ Hdir Hunique Hold)
        as (w1 & Hrm & Hself & Hgone & Hkeep1).
      destruct Hold as [old Hold]. rewrite Hold. simpl. rewrite Hrm.
      destruct (mkdir_creates _ "GTIFF_PRODUCT" _ _ Hself Hgone)
        as (w' & Hmk & Hnew & Hkeep).
      rewrite Hmk. exists w'. split_and!; [done..|].
      intros n' Hne. rewrite Hkeep by done. by apply (Hkeep1 n' []).
  - intros x Hx Hfile. unfold output_folder, bind, path_exists.
    rewrite Hx. simpl. unfold rmtree. rewrite Hx.
    destruct x; try done. by destruct (Hfile entries).
Qed.
End output_folder.

(** X18, witness: the folder of the earlier run is emptied. *)
Lemma output_folder_default_witness :
  ∃ w', output_folder PosixFlavour safe_example None rerun_world
          = (w', Ok (safe_example ++ ["GTIFF_PRODUCT"])) ∧
        fs_lookup PosixFlavour w' (safe_example ++ ["GTIFF_PRODUCT"]) = Some (Dir []).
Proof.
  assert (Hunique : unique_names PosixFlavour
            [ ("GRANULE", Dir []);
              ("GTIFF_PRODUCT",
               Dir [ ("S2A_MSIL2A_T34SGH_STACK_RGBN.tif", OtherFile) ]) ]).
  { simpl. repeat constructor. }
  destruct (proj1 (output_folder_default PosixFlavour safe_example _
                     rerun_world eq_refl Hunique))
    as (w' & Hrun & Hnew & _).
  - right. eexists. reflexivity.
  - exists w'. split; [exact Hrun|exact Hnew].
Defined.

(** * The stacks that [processor_all] merges (processors.py, lines 144-237) *)

Section stacks.
Variable fl : flavour.
Variable ov : overflow_policy.
Variable engine : raster_engine.

End stacks.



(** ** The canonical order in the processors, and their exits *)

(** C5.  Both processors sort each tier against its canonical sequence:
    02, 03, 04, 08 for the 10m tier, 05, 06, 07, 11, 12, 8A for the 20m
    tier and 01, 09 for the 60m tier.  A run of [processor_all] that
    returns has read its three tiers, sorted them, saved and resampled the
    stacks and merged them, and a run of [processor_rgbn] that returns has
    read, sorted and exported its tier; each sorted stack has one uint16
    band for each code of the sequence, the band read under that code, in
    the order of the sequence.  The sorted 10m stack and the sorted 20m
    and 60m stacks, resampled, are what [processor_all] merges, and the
    sorted 10m stack is the product of [processor_rgbn].  On a tier of
    uint16 bands whose codes are a permutation of its sequence the sort
    returns, with the bands in that order. *)
Theorem tiers_sorted_by_canonical_codes fl ov engine args w :
  (∀ w', processor_all fl ov engine args w = (w', Ok tt) →
     ∃ w0 rd w1 ss w2 kw w3 st k20 k60 res,
       processor_all_read fl args w = (w0, Ok rd) ∧
       processor_all_sort ov rd w0 = (w1, Ok ss) ∧
       processor_all_save fl rd ss w1 = (w2, Ok kw) ∧
       processor_all_resample fl engine args rd ss kw w2 = (w3, Ok st) ∧
       processor_all_back fl engine args st w3 = (w', Ok tt) ∧
       sorted_against ["02"; "03"; "04"; "08"] (rs_tier_10m rd)
         (ss_stack_10m_sorted ss) ∧
       sorted_against ["05"; "06"; "07"; "11"; "12"; "8A"] (rs_tier_20m rd)
         (ss_stack_20m_sorted ss) ∧
       sorted_against ["01"; "09"] (rs_tier_60m rd) (ss_stack_60m_sorted ss) ∧
       mi_stack_10m_sorted st = ss_stack_10m_sorted ss ∧
       resampled engine res 2 (update_kwargs k20 6) (ss_stack_20m_sorted ss)
         (mi_data_20m st) ∧
       resampled engine res 6 (update_kwargs k60 2) (ss_stack_60m_sorted ss)
         (mi_data_60m st)) ∧
  (∀ w', processor_rgbn fl ov args w = (w', Ok tt) →
     ∃ out safe t w1 stack w2 name prof,
       processor_rgbn_read fl args w = (w1, Ok (out, safe, t)) ∧
       processor_rgbn_sort ov t w1 = (w2, Ok stack) ∧
       processor_rgbn_export fl args out safe t stack w2 = (w', Ok tt) ∧
       sorted_against ["02"; "03"; "04"; "08"] t stack ∧
       fs_lookup fl w' (out ++ [name]) = Some (Raster prof (Some stack))) ∧
  (∀ t sorted_list r c (w0 : node),
     sorted_list ∈ [ ["02"; "03"; "04"; "08"];
                     ["05"; "06"; "07"; "11"; "12"; "8A"];
                     ["01"; "09"] ] →
     tier_wf t r c →
     code_list t ≡ₚ sorted_list →
     ∃ w' out,
       sort_tier ov t sorted_list w0 = (w', Ok out) ∧
       shape out = (length sorted_list, r, c) ∧
       ∀ i code, sorted_list !! i = Some code →
         ∃ j im, code_list t !! j = Some code ∧
                 stack_list t !! j = Some im ∧
                 bands out !! i = Some (im_data im)).
Proof.
  split_and!.
  - intros w' Hrun. pose proof Hrun as Hrun'. unfold processor_all in Hrun'.
    apply bind_Ok in Hrun' as (st & w3 & Hfront & Hback).
    pose proof (processor_all_front_chain _ _ _ _ _ _ _ Hfront)
      as (w0 & rd & w1 & ss & w2 & kw & Hread & Hsort & Hsave & Hres).
    pose proof (processor_all_sorted _ _ _ _ _ _ _ _ _ _ Hread Hsort Hsave)
      as (H10 & H20 & H60).
    pose proof (processor_all_resample_Ok _ _ _ _ _ _ _ _ _ _ Hsave Hres)
      as (k10 & k20 & k60 & res & _ & _ & _ & _ & _ & _ & _ & _ & _ & Hs10 & _ & _ &
          _ & Hr20 & Hr60 & _).
    exists w0, rd, w1, ss, w2, kw, w3, st, k20, k60, res.
    split; [exact Hread|]. split; [exact Hsort|]. split; [exact Hsave|].
    split; [exact Hres|]. split; [exact Hback|]. split; [exact H10|].
    split; [exact H20|]. split; [exact H60|]. split; [exact Hs10|].
    split; [exact Hr20|exact Hr60].
  - intros w' (out & safe & t & w1 & stack & w2 & stem & granule & names & kwargs &
               Hread & Hsort & Hexport & _ & _ & _ & _ & _ & _ & _ & _ & _ & Hfile &
               Hsorted)%processor_rgbn_Ok.
    exists out, safe, t, w1, stack, w2. eexists _, _.
    split; [exact Hread|]. split; [exact Hsort|]. split; [exact Hexport|].
    split; [exact Hsorted|exact Hfile].
  - intros t sorted_list r c w0 Hin Hwf Hperm.
    destruct (sort_tier_canonical ov t sorted_list r c w0 Hwf Hperm)
      as (out & Hrun & Hshape & _ & Hslots).
    { rewrite !elem_of_cons, elem_of_nil in Hin.
      destruct Hin as [->|[->|[->|[]]]]; simpl; lia. }
    { rewrite !elem_of_cons, elem_of_nil in Hin.
      by destruct Hin as [->|[->|[->|[]]]]. }
    exists w0, out. split_and!; [done..|].
    intros i code Hi. destruct (Hslots i code Hi) as (j & im & Hj & Him & Hband).
    exists j, im. split_and!; [|done..]. by apply linear_scan_Some in Hj as [? _].
Qed.

(** C5, witness: both processors on the product with rasters of 18 pixels
    a side. *)
Lemma tiers_sorted_by_canonical_codes_witness :
  (∃ w0 rd w1 ss w2 kw w3 st,
     processor_all_read PosixFlavour (example_args "nearest" true) large_world
       = (w0, Ok rd) ∧
     processor_all_sort Wraps rd w0 = (w1, Ok ss) ∧
     processor_all_save PosixFlavour rd ss w1 = (w2, Ok kw) ∧
     processor_all_resample PosixFlavour example_engine (example_args "nearest" true)
       rd ss kw w2 = (w3, Ok st) ∧
     processor_all_back PosixFlavour example_engine (example_args "nearest" true) st w3
       = (all_run.1, Ok tt) ∧
     sorted_against ["02"; "03"; "04"; "08"] (rs_tier_10m rd)
       (ss_stack_10m_sorted ss) ∧
     sorted_against ["05"; "06"; "07"; "11"; "12"; "8A"] (rs_tier_20m rd)
       (ss_stack_20m_sorted ss) ∧
     sorted_against ["01"; "09"] (rs_tier_60m rd) (ss_stack_60m_sorted ss)) ∧
  (∃ out safe t w1 stack w2,
     processor_rgbn_read PosixFlavour (example_args "nearest" true) large_world
       = (w1, Ok (out, safe, t)) ∧
     processor_rgbn_sort Wraps t w1 = (w2, Ok stack) ∧
     processor_rgbn_export PosixFlavour (example_args "nearest" true) out safe t stack w2
       = (rgbn_run.1, Ok tt) ∧
     sorted_against ["02"; "03"; "04"; "08"] t stack).
Proof.
  split.
  - destruct (proj1 (tiers_sorted_by_canonical_codes PosixFlavour Wraps example_engine
                       (example_args "nearest" true) large_world)
                all_run.1 all_run_Ok)
      as (w0 & rd & w1 & ss & w2 & kw & w3 & st & k20 & k60 & res & Hread & Hsort &
          Hsave & Hres & Hback & H10 & H20 & H60 & _).
    exists w0, rd, w1, ss, w2, kw, w3, st.
    split; [exact Hread|]. split; [exact Hsort|]. split; [exact Hsave|].
    split; [exact Hres|]. split; [exact Hback|]. split; [exact H10|].
    split; [exact H20|exact H60].
  - destruct (proj1 (proj2 (tiers_sorted_by_canonical_codes PosixFlavour Wraps
                              example_engine (example_args "nearest" true)
                              large_world))
                rgbn_run.1 rgbn_run_Ok)
      as (out & safe & t & w1 & stack & w2 & name & prof & Hread & Hsort & Hexport &
          Hsorted & _).
    exists out, safe, t, w1, stack, w2.
    split; [exact Hread|]. split; [exact Hsort|]. split; [exact Hexport|].
    exact Hsorted.
Defined.






